(** * ERM2 (EBIOS RM editor): data model, derived metrics and store handlers

    A shallow embedding of the parts of [src/app.js] that compute derived
    values (pertinence, stakeholder indices, support statistics), normalise
    stored fields at render time, and mutate the analyses store (mission
    deletion, risk addition, JSON import and export).

    The first half of the file holds the embedding, the second half the
    properties proved about it. *)

From Stdlib Require Import ZArith NArith List Bool Lia QArith Qabs String Ascii.
From Stdlib Require DecimalPos DecimalFacts.
Import ListNotations.
Open Scope Z_scope.

(* ================================================================== *)
(** ** JavaScript values and the runtime primitives the program calls *)
(* ================================================================== *)

Module Js.

(** A JavaScript string is a sequence of UTF-16 code units. *)
Definition jsstring := list N.

(** An ASCII literal of the source, as code units. *)
Definition lit (s : string) : jsstring :=
  map N_of_ascii (list_ascii_of_string s).

Fixpoint str_eqb (a b : jsstring) : bool :=
  match a, b with
  | [], [] => true
  | x :: a', y :: b' => N.eqb x y && str_eqb a' b'
  | _, _ => false
  end.

(** Numbers.  The stored scores are small integers; a number is modelled by
    the integer it holds, or is [NaN], which [parseInt] produces.  The
    integers below 2^53 in magnitude are held exactly by the runtime
    ([safe] below); beyond them the runtime rounds to the nearest double,
    which the integer arithmetic of the model does not follow. *)
Inductive JsNum : Type :=
| NaN
| Int (z : Z).

(** Primitive values a stored field can hold (a field that holds an array
    or an object is outside the model). *)
Inductive value : Type :=
| VUndefined
| VNull
| VBool (b : bool)
| VNum (n : JsNum)
| VStr (s : jsstring).

(** [ToBoolean]. *)
Definition truthy (v : value) : bool :=
  match v with
  | VUndefined | VNull => false
  | VBool b => b
  | VNum NaN => false
  | VNum (Int z) => negb (z =? 0)
  | VStr [] => false
  | VStr (_ :: _) => true
  end.

(** [a || b]. *)
Definition js_or (a b : value) : value := if truthy a then a else b.

(** [n || d] where [n] is a number and [d] an integer literal: the result is
    never [NaN], so it is returned as an integer. *)
Definition num_or (n : JsNum) (d : Z) : Z :=
  match n with
  | NaN => d
  | Int z => if z =? 0 then d else z
  end.

(** [typeof v === 'number']. *)
Definition is_number (v : value) : bool :=
  match v with VNum _ => true | _ => false end.

(** [a === b] on primitives: [NaN] differs from itself. *)
Definition strict_eq (a b : value) : bool :=
  match a, b with
  | VUndefined, VUndefined => true
  | VNull, VNull => true
  | VBool x, VBool y => Bool.eqb x y
  | VNum (Int x), VNum (Int y) => x =? y
  | VStr x, VStr y => str_eqb x y
  | _, _ => false
  end.

(** SameValueZero, the key comparison of [Map]: as [===], but [NaN] equals
    itself. *)
Definition same_value_zero (a b : value) : bool :=
  match a, b with
  | VNum NaN, VNum NaN => true
  | _, _ => strict_eq a b
  end.

(** White space and line terminators: what [trim], [\s] and the prefix
    skipping of [parseInt] recognise. *)
Definition isWhiteSpace (c : N) : bool :=
  let in_range lo hi := (N.leb lo c && N.leb c hi)%bool in
  (in_range 9 13 || N.eqb c 32 || N.eqb c 160 || N.eqb c 5760
   || in_range 8192 8202 || N.eqb c 8232 || N.eqb c 8233 || N.eqb c 8239
   || N.eqb c 8287 || N.eqb c 12288 || N.eqb c 65279)%N%bool.

Fixpoint trimStart (s : jsstring) : jsstring :=
  match s with
  | [] => []
  | c :: r => if isWhiteSpace c then trimStart r else s
  end.

(** [s.trim()]. *)
Definition trim (s : jsstring) : jsstring :=
  rev (trimStart (rev (trimStart s))).

Definition isDigit (c : N) : bool := (N.leb 48 c && N.leb c 57)%bool.

(** Value of the longest prefix of decimal digits, continuing from [acc]. *)
Fixpoint digits_val (acc : Z) (s : jsstring) : Z :=
  match s with
  | [] => acc
  | c :: r =>
      if isDigit c then digits_val (10 * acc + (Z.of_N c - 48)) r else acc
  end.

(** [parseInt(s, 10)] on a string: leading white space, an optional sign,
    then the longest run of decimal digits; [NaN] when there is none.  The
    value is exact, as the runtime's is below 2^53. *)
Definition parseInt_str (s : jsstring) : JsNum :=
  let s1 := trimStart s in
  let '(neg, s2) :=
    match s1 with
    | 45%N :: r => (true, r)
    | 43%N :: r => (false, r)
    | _ => (false, s1)
    end in
  match s2 with
  | c :: _ =>
      if isDigit c
      then Int (if neg then - digits_val 0 s2 else digits_val 0 s2)
      else NaN
  | [] => NaN
  end.

(** The integers a number holds exactly: those below 2^53 in magnitude.
    Beyond them the runtime rounds, so the statements that read a number
    back or need its exact value are made for safe integers. *)
Definition safe (z : Z) : Prop := Z.abs z < 9007199254740992.

(** The first digit of a decimal numeral. *)
Definition first_digit (u : Decimal.uint) : Z :=
  match u with
  | Decimal.D1 _ => 1 | Decimal.D2 _ => 2 | Decimal.D3 _ => 3
  | Decimal.D4 _ => 4 | Decimal.D5 _ => 5 | Decimal.D6 _ => 6
  | Decimal.D7 _ => 7 | Decimal.D8 _ => 8 | Decimal.D9 _ => 9
  | _ => 0
  end.

(** What [parseInt] reads in the exponent form [ToString] gives a number of
    magnitude 10^21 or more ("1e+21", "-2.5e+30"): the sign and the digit
    before the point.  That digit is the first digit of [z] when [z] is
    written with the digits [ToString] prints, as 10^21 is. *)
Definition exponent_head (z : Z) : Z :=
  match z with
  | Z0 => 0
  | Zpos p => first_digit (Pos.to_uint p)
  | Zneg p => - first_digit (Pos.to_uint p)
  end.

(** [parseInt(v, 10)]: the argument goes through [ToString] first.  The
    strings "undefined", "null", "true", "false" and "NaN" have no leading
    digit; the decimal digits of an integer below 10^21 read back as that
    integer; from 10^21 on [ToString] gives the exponent form, of which only
    the leading digit is read. *)
Definition parseInt (v : value) : JsNum :=
  match v with
  | VStr s => parseInt_str s
  | VNum NaN => NaN
  | VNum (Int z) =>
      if Z.abs z <? 1000000000000000000000 then Int z else Int (exponent_head z)
  | VUndefined | VNull | VBool _ => NaN
  end.

(** [s.startsWith(p)]. *)
Fixpoint startsWith (p s : jsstring) : bool :=
  match p, s with
  | [], _ => true
  | x :: p', y :: s' => N.eqb x y && startsWith p' s'
  | _ :: _, [] => false
  end.

End Js.

Import Js.

(* ================================================================== *)
(** ** JSON documents and what a handler leaves behind                *)
(* ================================================================== *)

Module Json.

(** A value of the kind [JSON.parse] builds.  Numbers of a document are
    modelled as integers.  An array is an object too: [own] holds the named
    properties a handler may have set on it ([JSON.parse] sets none and
    [JSON.stringify] ignores them). *)
#[local] Set Warnings "-register-all".

Inductive json : Type :=
| JNull
| JBool (b : bool)
| JNum (z : Z)
| JStr (s : jsstring)
| JArr (items : list json) (own : list (jsstring * json))
| JObj (fields : list (jsstring * json)).

Fixpoint assoc_get {V : Type} (k : jsstring) (l : list (jsstring * V)) : option V :=
  match l with
  | [] => None
  | (k', v) :: r => if str_eqb k' k then Some v else assoc_get k r
  end.

(** Assignment to a property: in place when it exists, appended otherwise. *)
Fixpoint assoc_set {V : Type} (k : jsstring) (v : V) (l : list (jsstring * V))
  : list (jsstring * V) :=
  match l with
  | [] => [(k, v)]
  | (k', v') :: r =>
      if str_eqb k' k then (k', v) :: r else (k', v') :: assoc_set k v r
  end.

(** [ToBoolean]; [None] stands for [undefined]. *)
Definition truthy_json (v : option json) : bool :=
  match v with
  | None | Some JNull => false
  | Some (JBool b) => b
  | Some (JNum z) => negb (z =? 0)
  | Some (JStr []) => false
  | Some (JStr (_ :: _)) => true
  | Some (JArr _ _) | Some (JObj _) => true
  end.

Definition is_array (v : json) : bool :=
  match v with JArr _ _ => true | _ => false end.

(** [typeof v === 'object']: true of [null] as well. *)
Definition typeof_object (v : json) : bool :=
  match v with JNull | JArr _ _ | JObj _ => true | _ => false end.

(** [v.k] for one of the data keys of the program (none of them is a
    built-in of strings, numbers, booleans or arrays).  Reading a property
    of [null] or [undefined] throws: the outer [None]. *)
Definition get_prop (v : option json) (k : jsstring) : option (option json) :=
  match v with
  | None | Some JNull => None
  | Some (JObj fields) => Some (assoc_get k fields)
  | Some (JArr _ own) => Some (assoc_get k own)
  | Some (JBool _) | Some (JNum _) | Some (JStr _) => Some None
  end.

(** [v.k = x] on a value that is not [null] or [undefined]; outside strict
    mode the assignment to a property of a primitive is dropped. *)
Definition set_prop (v : json) (k : jsstring) (x : json) : json :=
  match v with
  | JObj fields => JObj (assoc_set k x fields)
  | JArr items own => JArr items (assoc_set k x own)
  | _ => v
  end.

End Json.

Import Json.

(* ================================================================== *)
(** ** The text of a JSON document                                    *)
(* ================================================================== *)

Module JsonText.

(** [JSON.stringify] and [JSON.parse] of the runtime, on the values of
    [json].  They are the functions of the runtime on the plain values
    ([plain] below) and on the texts that denote one; the limits of the
    runtime (depth of nesting, memory) are not modelled. *)

(** *** [JSON.stringify] *)

(** The decimal digits of a numeral. *)
Fixpoint digits_of (u : Decimal.uint) : jsstring :=
  match u with
  | Decimal.Nil => []
  | Decimal.D0 r => 48%N :: digits_of r
  | Decimal.D1 r => 49%N :: digits_of r
  | Decimal.D2 r => 50%N :: digits_of r
  | Decimal.D3 r => 51%N :: digits_of r
  | Decimal.D4 r => 52%N :: digits_of r
  | Decimal.D5 r => 53%N :: digits_of r
  | Decimal.D6 r => 54%N :: digits_of r
  | Decimal.D7 r => 55%N :: digits_of r
  | Decimal.D8 r => 56%N :: digits_of r
  | Decimal.D9 r => 57%N :: digits_of r
  end.

(** [ToString] of an integer below 10^21 in magnitude: its decimal digits
    (beyond, the runtime writes an exponent). *)
Definition number_text (z : Z) : jsstring :=
  match z with
  | Z0 => [48%N]
  | Zpos p => digits_of (Pos.to_uint p)
  | Zneg p => 45%N :: digits_of (Pos.to_uint p)
  end.

(** A hexadecimal digit, in lower case. *)
Definition hex_digit (n : N) : N := (if n <? 10 then 48 + n else 87 + n)%N.

(** [UnicodeEscape]: a backslash, "u" and four hexadecimal digits. *)
Definition unicode_escape (c : N) : jsstring :=
  [92; 117; hex_digit (c / 4096); hex_digit ((c / 256) mod 16);
   hex_digit ((c / 16) mod 16); hex_digit (c mod 16)]%N.

Definition is_high (c : N) : bool := (N.leb 55296 c && N.leb c 56319)%bool.
Definition is_low (c : N) : bool := (N.leb 56320 c && N.leb c 57343)%bool.

(** The characters of [QuoteJSONString] between the quotes: the short
    escapes, [UnicodeEscape] for the other control characters and for a
    surrogate that is not part of a pair, and the code unit itself
    otherwise. *)
Fixpoint quote_body (s : jsstring) : jsstring :=
  match s with
  | [] => []
  | c :: r =>
      if N.eqb c 8 then [92; 98]%N ++ quote_body r
      else if N.eqb c 9 then [92; 116]%N ++ quote_body r
      else if N.eqb c 10 then [92; 110]%N ++ quote_body r
      else if N.eqb c 12 then [92; 102]%N ++ quote_body r
      else if N.eqb c 13 then [92; 114]%N ++ quote_body r
      else if N.eqb c 34 then [92; 34]%N ++ quote_body r
      else if N.eqb c 92 then [92; 92]%N ++ quote_body r
      else if N.ltb c 32 then unicode_escape c ++ quote_body r
      else if is_high c then
        match r with
        | c2 :: r2 =>
            if is_low c2 then c :: c2 :: quote_body r2
            else unicode_escape c ++ quote_body r
        | [] => unicode_escape c
        end
      else if is_low c then unicode_escape c ++ quote_body r
      else c :: quote_body r
  end.

Definition quote (s : jsstring) : jsstring := [34%N] ++ quote_body s ++ [34%N].

(** The elements of an array after the first, and the closing bracket. *)
Fixpoint elements_tail (f : json -> jsstring) (line back : jsstring) (l : list json)
  : jsstring :=
  match l with
  | [] => back ++ [93%N]
  | y :: l' => [44%N] ++ line ++ f y ++ elements_tail f line back l'
  end.

(** The members of an object after the first, and the closing brace. *)
Fixpoint members_tail (f : json -> jsstring) (colon line back : jsstring)
  (l : list (jsstring * json)) : jsstring :=
  match l with
  | [] => back ++ [125%N]
  | (k, y) :: l' =>
      [44%N] ++ line ++ quote k ++ colon ++ f y ++ members_tail f colon line back l'
  end.

(** [SerializeJSONProperty] with the gap [gap] at the indentation [indent]:
    with a gap, every element and member starts a line, indented by one gap
    more, and a space follows the colon. *)
Fixpoint serialize (gap indent : jsstring) (v : json) : jsstring :=
  let inner := indent ++ gap in
  let line := match gap with [] => [] | _ :: _ => 10%N :: inner end in
  let back := match gap with [] => [] | _ :: _ => 10%N :: indent end in
  let colon := match gap with [] => [58%N] | _ :: _ => [58; 32]%N end in
  match v with
  | JNull => lit "null"
  | JBool true => lit "true"
  | JBool false => lit "false"
  | JNum z => number_text z
  | JStr s => quote s
  | JArr [] _ => lit "[]"
  | JArr (x :: items) _ =>
      [91%N] ++ line ++ serialize gap inner x
      ++ elements_tail (serialize gap inner) line back items
  | JObj [] => lit "{}"
  | JObj ((k, x) :: fields) =>
      [123%N] ++ line ++ quote k ++ colon ++ serialize gap inner x
      ++ members_tail (serialize gap inner) colon line back fields
  end.

(** [JSON.stringify(v, null, indent)]: the gap is [indent] spaces, ten at
    most. *)
Definition stringify (v : json) (indent : Z) : jsstring :=
  serialize (repeat 32%N (Z.to_nat (Z.min indent 10))) [] v.


(** *** [JSON.parse] *)

(** The white space of the JSON grammar. *)
Definition is_ws (c : N) : bool :=
  (N.eqb c 32 || N.eqb c 9 || N.eqb c 10 || N.eqb c 13)%bool.

Fixpoint skip_ws (s : jsstring) : jsstring :=
  match s with
  | c :: r => if is_ws c then skip_ws r else s
  | [] => []
  end.

Definition hex_value (c : N) : option N :=
  (if (48 <=? c) && (c <=? 57) then Some (c - 48)
   else if (97 <=? c) && (c <=? 102) then Some (c - 87)
   else if (65 <=? c) && (c <=? 70) then Some (c - 55)
   else None)%N%bool.

Definition hex4 (a b c d : N) : option N :=
  match hex_value a, hex_value b, hex_value c, hex_value d with
  | Some x, Some y, Some z, Some w => Some (((x * 16 + y) * 16 + z) * 16 + w)%N
  | _, _, _, _ => None
  end.

Definition cons_to {A : Type} (c : N) (r : option (jsstring * A)) : option (jsstring * A) :=
  match r with
  | Some (s, x) => Some (c :: s, x)
  | None => None
  end.

(** A string of the grammar, read from behind its opening quote: the
    string and what follows its closing quote. *)
Fixpoint read_string (s : jsstring) : option (jsstring * jsstring) :=
  match s with
  | [] => None
  | c :: r =>
      if N.eqb c 34 then Some ([], r)
      else if N.eqb c 92 then
        match r with
        | e :: r1 =>
            if (N.eqb e 34 || N.eqb e 92 || N.eqb e 47)%bool then cons_to e (read_string r1)
            else if N.eqb e 98 then cons_to 8%N (read_string r1)
            else if N.eqb e 102 then cons_to 12%N (read_string r1)
            else if N.eqb e 110 then cons_to 10%N (read_string r1)
            else if N.eqb e 114 then cons_to 13%N (read_string r1)
            else if N.eqb e 116 then cons_to 9%N (read_string r1)
            else if N.eqb e 117 then
              match r1 with
              | h1 :: h2 :: h3 :: h4 :: r2 =>
                  match hex4 h1 h2 h3 h4 with
                  | Some u => cons_to u (read_string r2)
                  | None => None
                  end
              | _ => None
              end
            else None
        | [] => None
        end
      else if N.ltb c 32 then None
      else cons_to c (read_string r)
  end.

(** The digits at the head of [s], read after [acc], and what follows. *)
Fixpoint read_digits (acc : Z) (s : jsstring) : Z * jsstring :=
  match s with
  | c :: r => if isDigit c then read_digits (10 * acc + (Z.of_N c - 48)) r else (acc, s)
  | [] => (acc, [])
  end.

(** What may not follow the digits of an integer: a fraction or an
    exponent. *)
Definition continues (s : jsstring) : bool :=
  match s with
  | c :: _ => (N.eqb c 46 || N.eqb c 101 || N.eqb c 69)%bool
  | [] => false
  end.

(** An integer of the grammar without its sign: no leading zero. *)
Definition read_natural (s : jsstring) : option (Z * jsstring) :=
  match s with
  | c :: r =>
      if N.eqb c 48 then
        match r with
        | d :: _ => if isDigit d then None else Some (0, r)
        | [] => Some (0, r)
        end
      else if isDigit c then Some (read_digits 0 s)
      else None
  | [] => None
  end.

(** A number of the grammar that is an integer below 2^53 in magnitude;
    [None] for any other number, -0 included. *)
Definition read_number (s : jsstring) : option (json * jsstring) :=
  let '(neg, s1) :=
    match s with
    | c :: r => if N.eqb c 45 then (true, r) else (false, s)
    | [] => (false, s)
    end in
  match read_natural s1 with
  | Some (n, r) =>
      if (continues r || (9007199254740992 <=? n) || (neg && (n =? 0)))%bool then None
      else Some (JNum (if neg then - n else n), r)
  | None => None
  end.

(** A key that is an array index: the decimal digits, without a leading
    zero, of an integer up to 2^32 - 2. *)
Definition is_index (k : jsstring) : bool :=
  match k with
  | [] => false
  | c :: r =>
      if N.eqb c 48 then match r with [] => true | _ :: _ => false end
      else (forallb isDigit k && (Nat.leb (List.length k) 10)
            && (fst (read_digits 0 k) <=? 4294967294))%bool
  end.

Definition starts_with (p s : jsstring) : option jsstring :=
  if str_eqb (firstn (List.length p) s) p then Some (skipn (List.length p) s) else None.

(** A value of the grammar at the head of [s], and what follows it.  An
    object is built as the runtime builds it, a key met again taking the new
    value at its first place.  [fuel] bounds the nesting and the number of
    elements read. *)
Fixpoint read_value (fuel : nat) (s : jsstring) : option (json * jsstring) :=
  match fuel with
  | O => None
  | S f =>
      match s with
      | [] => None
      | c :: r =>
          if N.eqb c 123 then
            match skip_ws r with
            | c1 :: r1 => if N.eqb c1 125 then Some (JObj [], r1)
                          else read_members f [] (c1 :: r1)
            | [] => None
            end
          else if N.eqb c 91 then
            match skip_ws r with
            | c1 :: r1 => if N.eqb c1 93 then Some (JArr [] [], r1)
                          else read_elements f [] (c1 :: r1)
            | [] => None
            end
          else if N.eqb c 34 then
            match read_string r with
            | Some (str, r1) => Some (JStr str, r1)
            | None => None
            end
          else if N.eqb c 116 then
            match starts_with (lit "true") s with
            | Some r1 => Some (JBool true, r1)
            | None => None
            end
          else if N.eqb c 102 then
            match starts_with (lit "false") s with
            | Some r1 => Some (JBool false, r1)
            | None => None
            end
          else if N.eqb c 110 then
            match starts_with (lit "null") s with
            | Some r1 => Some (JNull, r1)
            | None => None
            end
          else read_number s
      end
  end
with read_elements (fuel : nat) (acc : list json) (s : jsstring)
  : option (json * jsstring) :=
  match fuel with
  | O => None
  | S f =>
      match read_value f s with
      | Some (v, r) =>
          match skip_ws r with
          | c :: r1 =>
              if N.eqb c 44 then read_elements f (acc ++ [v]) (skip_ws r1)
              else if N.eqb c 93 then Some (JArr (acc ++ [v]) [], r1)
              else None
          | [] => None
          end
      | None => None
      end
  end
with read_members (fuel : nat) (acc : list (jsstring * json)) (s : jsstring)
  : option (json * jsstring) :=
  match fuel with
  | O => None
  | S f =>
      match s with
      | c :: r =>
          if N.eqb c 34 then
            match read_string r with
            | Some (k, r1) =>
                match skip_ws r1 with
                | c2 :: r2 =>
                    if N.eqb c2 58 then
                      match read_value f (skip_ws r2) with
                      | Some (v, r3) =>
                          if is_index k then None
                          else
                            match skip_ws r3 with
                            | c4 :: r4 =>
                                if N.eqb c4 44
                                then read_members f (assoc_set k v acc) (skip_ws r4)
                                else if N.eqb c4 125
                                     then Some (JObj (assoc_set k v acc), r4)
                                     else None
                            | [] => None
                            end
                      | None => None
                      end
                    else None
                | [] => None
                end
            | None => None
            end
          else None
      | [] => None
      end
  end.

(** [JSON.parse(text)] for a text of the fragment: the value, or [None] when
    the text is not of the grammar or holds a number or a key the fragment
    leaves out. *)
Definition read (text : jsstring) : option json :=
  match read_value (S (List.length text)) (skip_ws text) with
  | Some (v, r) => match skip_ws r with [] => Some v | _ :: _ => None end
  | None => None
  end.


(** No key occurs twice. *)
Fixpoint distinct (keys : list jsstring) : bool :=
  match keys with
  | [] => true
  | k :: r => negb (existsb (str_eqb k) r) && distinct r
  end.

(** The values on which [stringify] and [read] are the functions of the
    runtime: the numbers are integers below 2^53 in magnitude, an array has
    no named property, and the keys of an object are distinct and none is an
    array index (the runtime lists those first, in numeric order). *)
Fixpoint plain (v : json) : bool :=
  match v with
  | JNull | JBool _ | JStr _ => true
  | JNum z => Z.abs z <? 9007199254740992
  | JArr items own =>
      match own with [] => forallb plain items | _ :: _ => false end
  | JObj fields =>
      distinct (map fst fields)
      && forallb (fun kv => negb (is_index (fst kv)) && plain (snd kv)) fields
  end.

(** The calls [read_value] needs for a value. *)
Fixpoint weight (v : json) : nat :=
  match v with
  | JArr items _ => S (fold_right (fun x n => S (weight x + n)) O items)
  | JObj fields => S (fold_right (fun kv n => S (weight (snd kv) + n)) O fields)
  | _ => 1
  end.

(** *** What the proof of the round trip speaks of *)

(** What may follow a value in the text [stringify] writes. *)
Definition stops (rest : jsstring) : bool :=
  match rest with
  | [] => true
  | c :: _ => negb (isDigit c || N.eqb c 46 || N.eqb c 101 || N.eqb c 69)
  end.

(** The calls [read_elements] and [read_members] need for what is left of
    an array or an object. *)
Definition elems_weight (l : list json) : nat :=
  fold_right (fun x n => S (weight x + n)) O l.

Definition members_weight (l : list (jsstring * json)) : nat :=
  fold_right (fun kv n => S (weight (snd kv) + n)) O l.

(** What the induction gives for a value: it is read back from any text
    that starts with its serialization, with fuel for its weight. *)
Definition reads_back (v : json) : Prop :=
  forall (gap indent : jsstring) (fuel : nat) (rest : jsstring),
    forallb is_ws gap = true -> forallb is_ws indent = true ->
    (weight v <= fuel)%nat -> stops rest = true ->
    read_value fuel (serialize gap indent v ++ rest) = Some (v, rest).

End JsonText.

(** What a handler does besides changing the store, in program order:
    [saveAnalyses()] with the snapshot it serialises, [alert(msg)], and the
    calls that redraw a view. *)
Inductive Effect (S : Type) : Type :=
| Save (snapshot : S)
| Alert (msg : jsstring)
| Redraw (fn : string).

Arguments Save {S} snapshot.
Arguments Alert {S} msg.
Arguments Redraw {S} fn.

(** [uid()]: "id-" followed by random and clock digits; [rnd n] stands for
    the digits of the [n]-th call. *)
Definition uid (rnd : nat -> jsstring) (n : nat) : jsstring :=
  lit "id-" ++ rnd n.

(** [l.splice(idx, 1)]. *)
Definition splice1 {A : Type} (idx : nat) (l : list A) : list A :=
  firstn idx l ++ skipn (S idx) l.

(** Mutation of the object at position [k] of an array. *)
Fixpoint update_nth {A : Type} (k : nat) (f : A -> A) (l : list A) : list A :=
  match l, k with
  | [], _ => []
  | x :: r, O => f x :: r
  | x :: r, S k' => x :: update_nth k' f r
  end.

(* ================================================================== *)
(** ** Text normalisation done by the runtime                         *)
(* ================================================================== *)

Module Text.

(** The runtime's Unicode tables are modelled for the repertoire the
    requirement statuses are written in: Basic Latin, the Latin-1
    Supplement, and the diacritics among the modifier letters and combining
    marks U+02B0 to U+036F (the accents the letters decompose into).  The
    functions below are those of the runtime on strings of that repertoire
    only; on a code unit outside it (U+0113, U+0130, U+1EBD, U+212B, ...)
    the runtime maps or decomposes where they leave the code unit as it is,
    and what is proved of them is stated for strings of the repertoire. *)

Definition in_repertoire (c : N) : bool :=
  (N.ltb c 256 || (N.leb 688 c && N.leb c 846) || (N.leb 848 c && N.leb c 855)
   || (N.leb 861 c && N.leb c 866))%bool.

(** A string written in the repertoire. *)
Definition modelled (s : jsstring) : bool := forallb in_repertoire s.

(** [toLowerCase], one code unit at a time. *)
Definition lower_cu (c : N) : N :=
  if (N.leb 65 c && N.leb c 90)%bool then (c + 32)%N
  else if (N.leb 192 c && N.leb c 222 && negb (N.eqb c 215))%bool then (c + 32)%N
  else c.

Definition toLowerCase (s : jsstring) : jsstring := map lower_cu s.

(** Canonical decomposition of the small letters of the Latin-1 Supplement:
    base letter and combining mark. *)
Definition decomp_small (c : N) : option (N * N) :=
  match c with
  | 224 => Some (97, 768) | 225 => Some (97, 769) | 226 => Some (97, 770)
  | 227 => Some (97, 771) | 228 => Some (97, 776) | 229 => Some (97, 778)
  | 231 => Some (99, 807)
  | 232 => Some (101, 768) | 233 => Some (101, 769) | 234 => Some (101, 770)
  | 235 => Some (101, 776)
  | 236 => Some (105, 768) | 237 => Some (105, 769) | 238 => Some (105, 770)
  | 239 => Some (105, 776)
  | 241 => Some (110, 771)
  | 242 => Some (111, 768) | 243 => Some (111, 769) | 244 => Some (111, 770)
  | 245 => Some (111, 771) | 246 => Some (111, 776)
  | 249 => Some (117, 768) | 250 => Some (117, 769) | 251 => Some (117, 770)
  | 252 => Some (117, 776)
  | 253 => Some (121, 769) | 255 => Some (121, 776)
  | _ => None
  end%N.

(** The capitals decompose as their small letters do, on the capital base. *)
Definition decomp (c : N) : option (N * N) :=
  if (N.leb 192 c && N.leb c 222)%bool then
    match decomp_small (c + 32) with
    | Some (base, mark) => Some ((base - 32)%N, mark)
    | None => None
    end
  else decomp_small c.

(** Canonical decomposition of one code unit; four combining marks
    decompose into other marks. *)
Definition decompose (c : N) : list N :=
  match c with
  | 832 => [768]
  | 833 => [769]
  | 835 => [787]
  | 836 => [776; 769]
  | _ => match decomp c with
         | Some (base, mark) => [base; mark]
         | None => [c]
         end
  end%N.

(** [s.normalize('NFD')].  The reordering of consecutive combining marks is
    not modelled: it permutes marks among themselves, and the marks of the
    repertoire are all removed by [strip_diacritics]. *)
Definition normalizeNFD (s : jsstring) : jsstring := flat_map decompose s.

(** The Unicode property [Diacritic] within the repertoire. *)
Definition isDiacritic (c : N) : bool :=
  let in_range lo hi := (N.leb lo c && N.leb c hi)%bool in
  (N.eqb c 94 || N.eqb c 96 || N.eqb c 168 || N.eqb c 175 || N.eqb c 180
   || N.eqb c 183 || N.eqb c 184 || in_range 688 846 || in_range 848 855
   || in_range 861 866)%N%bool.

(** [s.replace(/\p{Diacritic}/gu, '')]. *)
Definition strip_diacritics (s : jsstring) : jsstring :=
  filter (fun c => negb (isDiacritic c)) s.

(** [s.replace(/\s+/g, '')]. *)
Definition strip_spaces (s : jsstring) : jsstring :=
  filter (fun c => negb (isWhiteSpace c)) s.

(** *** The normalised text, as the design words it *)

(** The small letter without accent that a code unit of Basic Latin or of
    the Latin-1 Supplement stands for; a code unit that is no accented or
    capital letter stands for itself. *)
Definition base_letter (c : N) : N :=
  let in_range lo hi := (N.leb lo c && N.leb c hi)%bool in
  (if in_range 65 90 then c + 32
   else if in_range 192 197 || in_range 224 229 then 97
   else if N.eqb c 198 then 230
   else if N.eqb c 199 || N.eqb c 231 then 99
   else if in_range 200 203 || in_range 232 235 then 101
   else if in_range 204 207 || in_range 236 239 then 105
   else if N.eqb c 208 then 240
   else if N.eqb c 209 || N.eqb c 241 then 110
   else if in_range 210 214 || in_range 242 246 then 111
   else if N.eqb c 216 then 248
   else if in_range 217 220 || in_range 249 252 then 117
   else if N.eqb c 221 || N.eqb c 253 || N.eqb c 255 then 121
   else if N.eqb c 222 then 254
   else c)%N%bool.

(** "Lowercased, diacritics stripped, whitespace removed", one code unit at
    a time: white space and accents go, a letter leaves its small letter
    without accent. *)
Definition bare (c : N) : jsstring :=
  if (isWhiteSpace c || isDiacritic c)%bool then [] else [base_letter c].

Definition skeleton (s : jsstring) : jsstring := flat_map bare s.

(** [parts.join(sep)]. *)
Fixpoint join (sep : jsstring) (parts : list jsstring) : jsstring :=
  match parts with
  | [] => []
  | [x] => x
  | x :: r => x ++ sep ++ join sep r
  end.

End Text.

(* ================================================================== *)
(** ** Atelier 2: source/objective couples and their pertinence       *)
(* ================================================================== *)

Module Srov.

(** A couple as found in the store, before any rendering touched it. *)
Record Stored : Type := mkStored {
  s_id : value;
  s_source : value;
  s_objectif : value;
  s_motivation : value;
  s_ressources : value;
  s_priorite : value;
  s_retenue : value;
  s_justification : value
}.

(** The same object once [renderSROV] has normalised it; the change handlers
    of the selects store [parseInt(e.target.value, 10)], a number. *)
Record Item : Type := mkItem {
  id : value;
  source : value;
  objectif : value;
  motivation : JsNum;
  ressources : JsNum;
  priorite : JsNum;
  retenue : bool;
  justification : value
}.

(** [levelColor(lvl)] of [renderSROV] and [updateAtelier2Chart]. *)
Definition levelColor (lvl : Z) : string :=
  match lvl with
  | 1 => "#2a9d8f"
  | 2 => "#e9c46a"
  | 3 => "#f4a261"
  | 4 => "#e63946"
  | _ => "#9aa0a6"
  end.

(** [pertinenceBucket(p)], as declared in [renderSROV]. *)
Definition pertinenceBucket (p : Z) : Z :=
  if 13 <=? p then 4
  else if 9 <=? p then 3
  else if 5 <=? p then 2
  else 1.

(** [pertinenceBucket(p)], as declared a second time in
    [updateAtelier2Chart]. *)
Definition chart_pertinenceBucket (p : Z) : Z :=
  if 13 <=? p then 4
  else if 9 <=? p then 3
  else if 5 <=? p then 2
  else 1.

(** The per-item normalisation at the head of the [forEach] of [renderSROV].
    [next_id] is what [uid()] returns if it is called. *)
Definition normalize (next_id : jsstring) (item : Stored) : Item :=
  {| id := if truthy (s_id item) then s_id item else VStr next_id;
     source := s_source item;
     objectif := s_objectif item;
     motivation := Int (num_or (parseInt (s_motivation item)) 1);
     ressources := Int (num_or (parseInt (s_ressources item)) 1);
     priorite := Int (num_or (parseInt (s_priorite item)) 1);
     retenue := match s_retenue item with VBool b => b | _ => true end;
     justification := s_justification item |}.

(** The normalised object read back as a stored one (it is the same
    object). *)
Definition stored_of (item : Item) : Stored :=
  {| s_id := id item;
     s_source := source item;
     s_objectif := objectif item;
     s_motivation := VNum (motivation item);
     s_ressources := VNum (ressources item);
     s_priorite := VNum (priorite item);
     s_retenue := VBool (retenue item);
     s_justification := justification item |}.

(** What [setPertinence] writes into the pertinence cell: the product, the
    level shown after "niv" and the background colour. *)
Record PertinenceCell : Type := mkCell {
  cell_p : Z;
  cell_bucket : Z;
  cell_color : string
}.

Definition setPertinence (item : Item) : PertinenceCell :=
  let p := num_or (motivation item) 1 * num_or (ressources item) 1 in
  let bucket := pertinenceBucket p in
  {| cell_p := p; cell_bucket := bucket; cell_color := levelColor bucket |}.

(** [updatePertinenceCell(row, entry)], which the change handlers of the
    motivation and ressources selects call. *)
Definition updatePertinenceCell (entry : Item) : PertinenceCell :=
  let p := num_or (motivation entry) 1 * num_or (ressources entry) 1 in
  let bucket := pertinenceBucket p in
  {| cell_p := p; cell_bucket := bucket; cell_color := levelColor bucket |}.

(** What the edge-drawing loop of [updateAtelier2Chart] derives for one
    couple. *)
Record Edge : Type := mkEdge {
  edge_p : Z;
  edge_bucket : Z;
  edge_color : string;
  edge_retenue : bool
}.

Definition chart_edge (item : Stored) : Edge :=
  let m := num_or (parseInt (s_motivation item)) 1 in
  let r := num_or (parseInt (s_ressources item)) 1 in
  let p := m * r in
  let bucket := chart_pertinenceBucket p in
  {| edge_p := p;
     edge_bucket := bucket;
     edge_color := levelColor bucket;
     edge_retenue := match s_retenue item with VBool b => b | _ => true end |}.

(** The thresholds as the data model words them. *)
Definition bucket_of_thresholds (p b : Z) : Prop :=
  (13 <= p -> b = 4) /\
  (9 <= p < 13 -> b = 3) /\
  (5 <= p < 9 -> b = 2) /\
  (p < 5 -> b = 1).

End Srov.

(* ================================================================== *)
(** ** Atelier 3: stakeholder cartography                             *)
(* ================================================================== *)

Module Ppc.

(** A cartography entry as found in the store.  [supportIds] and [valueIds]
    are [None] when the stored property is not an array. *)
Record Stored : Type := mkStored {
  s_id : value;
  s_nom : value;
  s_categorie : value;
  s_supportIds : option (list value);
  s_valueIds : option (list value);
  s_dependance : value;
  s_penetration : value;
  s_maturite : value;
  s_confiance : value
}.

(** The same object once [renderPPCarto] has normalised it; the selects then
    store [parseInt(e.target.value, 10)]. *)
Record Item : Type := mkItem {
  id : value;
  nom : value;
  categorie : value;
  supportIds : list value;
  valueIds : list value;
  dependance : JsNum;
  penetration : JsNum;
  maturite : JsNum;
  confiance : JsNum
}.

(** The per-entry normalisation at the head of the [forEach] of
    [renderPPCarto]. *)
Definition normalize (next_id : jsstring) (item : Stored) : Item :=
  {| id := if truthy (s_id item) then s_id item else VStr next_id;
     nom := js_or (s_nom item) (VStr []);
     categorie := js_or (s_categorie item) (VStr (lit "prestataire"));
     supportIds := match s_supportIds item with Some l => l | None => [] end;
     valueIds := match s_valueIds item with Some l => l | None => [] end;
     dependance := Int (num_or (parseInt (s_dependance item)) 1);
     penetration := Int (num_or (parseInt (s_penetration item)) 1);
     maturite := Int (num_or (parseInt (s_maturite item)) 1);
     confiance := Int (num_or (parseInt (s_confiance item)) 1) |}.

(** Result of a division of two integers: a double, held as the rational
    it is equal to, an infinity, or [NaN]. *)
Inductive Ratio : Type :=
| RNaN
| RInf (negative : bool)
| RFin (q : Q).

(** Rounding of [n / d] to an integer, to the nearest and to the even one
    on a tie ([0 <= n], [0 < d]). *)
Definition round_half_even (n d : Z) : Z :=
  let q := n / d in
  let r := n mod d in
  if 2 * r <? d then q
  else if d <? 2 * r then q + 1
  else if Z.even q then q else q + 1.

(** The exponent [e] with [2^e <= A / B < 2^(e+1)], for positive [A] and
    [B]. *)
Definition binade (A B : Z) : Z :=
  let c := Z.log2 A - Z.log2 B in
  if (if 0 <=? c then B * 2 ^ c <=? A else B <=? A * 2 ^ (- c)) then c else c - 1.

(** The double nearest to [A / B]: the quotient is scaled to 53 significant
    bits, rounded, and scaled back. *)
Definition fl_div_pos (A B : Z) : Q :=
  let t := 52 - binade A B in
  if 0 <=? t
  then Qmake (round_half_even (A * 2 ^ t) B) (Z.to_pos (2 ^ t))
  else inject_Z (round_half_even A (B * 2 ^ (- t)) * 2 ^ (- t)).

(** The number the runtime computes for [a / b] when [b] is not zero and
    both operands are safe integers: the double nearest to the quotient
    (round to nearest, ties to even; such a quotient neither overflows nor
    underflows). *)
Definition fl_div (a b : Z) : Q :=
  if a =? 0 then inject_Z 0
  else
    let v := fl_div_pos (Z.abs a) (Z.abs b) in
    if Z.sgn a * Z.sgn b <? 0 then Qopp v else v.

(** [a / b] on integer operands. *)
Definition js_div (a b : Z) : Ratio :=
  if b =? 0 then (if a =? 0 then RNaN else RInf (a <? 0))
  else RFin (fl_div a b).

(** [r >= k] for an integer literal [k]. *)
Definition ratio_ge (r : Ratio) (k : Z) : bool :=
  match r with
  | RNaN => false
  | RInf negative => negb negative
  | RFin q => Qle_bool (inject_Z k) q
  end.

(** The conditional [niveau ? (expo / niveau) : 0]. *)
Definition indice_expr (expo niveau : Z) : Ratio :=
  if negb (niveau =? 0) then js_div expo niveau else RFin (inject_Z 0).

(** [pertinenceBucketForExpo(p)]. *)
Definition pertinenceBucketForExpo (p : Z) : Z :=
  if 13 <=? p then 4
  else if 9 <=? p then 3
  else if 5 <=? p then 2
  else 1.

(** [ssiColor(lvl)]: the scale of [levelColor], inverted. *)
Definition ssiColor (lvl : Z) : string :=
  match lvl with
  | 1 => "#e63946"
  | 2 => "#f4a261"
  | 3 => "#e9c46a"
  | 4 => "#2a9d8f"
  | _ => "#9aa0a6"
  end.

(** What [updateDerivedCells] computes for the three derived cells of a row
    (each is written only when the row has that cell). *)
Record DerivedCells : Type := mkDerived {
  expo : Z;
  expo_color : string;
  niveau : Z;
  niveau_color : string;
  indice : Ratio;
  indLvl : Z;
  indice_color : string
}.

Definition updateDerivedCells (entry : Item) : DerivedCells :=
  let expo := num_or (dependance entry) 1 * num_or (penetration entry) 1 in
  let niveau := num_or (maturite entry) 1 * num_or (confiance entry) 1 in
  let indice := indice_expr expo niveau in
  let indLvl :=
    if ratio_ge indice 4 then 4
    else if ratio_ge indice 3 then 3
    else if ratio_ge indice 2 then 2
    else 1 in
  {| expo := expo;
     expo_color := Srov.levelColor (pertinenceBucketForExpo expo);
     niveau := niveau;
     niveau_color := ssiColor (pertinenceBucketForExpo niveau);
     indice := indice;
     indLvl := indLvl;
     indice_color := Srov.levelColor indLvl |}.

(** A score below 2^26 in magnitude: the products of two such scores are
    safe integers, which the runtime multiplies and divides as the model
    does. *)
Definition small (n : JsNum) : Prop := Z.abs (num_or n 1) < 67108864.

Definition bounded (entry : Item) : Prop :=
  small (dependance entry) /\ small (penetration entry) /\
  small (maturite entry) /\ small (confiance entry).

(** The normalised entry read back as a stored one (it is the same
    object). *)
Definition stored_of (item : Item) : Stored :=
  {| s_id := id item;
     s_nom := nom item;
     s_categorie := categorie item;
     s_supportIds := Some (supportIds item);
     s_valueIds := Some (valueIds item);
     s_dependance := VNum (dependance item);
     s_penetration := VNum (penetration item);
     s_maturite := VNum (maturite item);
     s_confiance := VNum (confiance item) |}.

End Ppc.

(* ================================================================== *)
(** ** The typed view of the store: entities, handlers, view-models    *)
(* ================================================================== *)

Module Model.

(** A supporting asset, embedded in its mission.  The text inputs of the
    table store strings. *)
Record Support : Type := mkSupport {
  name : jsstring;
  sup_description : jsstring;
  sup_responsable : jsstring
}.

Record Mission : Type := mkMission {
  m_id : value;
  denom : value;
  nature : value;
  description : value;
  responsable : value;
  supports : list Support
}.

Record Event : Type := mkEvent {
  e_id : value;
  missionId : value;
  evenement : value;
  impactDescription : value;
  impact : value
}.

(** The impact normalisation of [renderEventsTable]: applied when the stored
    impact is falsy or is not a number. *)
Definition normalize_impact (v : value) : value :=
  if (negb (truthy v) || negb (is_number v))%bool then
    match parseInt v with
    | Int parsed =>
        if ((1 <=? parsed) && (parsed <=? 4))%bool
        then VNum (Int parsed) else VNum (Int 1)
    | NaN => VNum (Int 1)
    end
  else v.

(** The per-event normalisation at the head of the [forEach] of
    [renderEventsTable]. *)
Definition normalize_event (next_id : jsstring) (ev : Event) : Event :=
  {| e_id := if truthy (e_id ev) then e_id ev else VStr next_id;
     missionId := missionId ev;
     evenement := evenement ev;
     impactDescription := impactDescription ev;
     impact := normalize_impact (impact ev) |}.

(** A GAP requirement; the table writes strings into its text fields, and
    [None] is a missing [id]. *)
Record GapRequirement : Type := mkGap {
  g_id : option jsstring;
  domaine : jsstring;
  titre : jsstring;
  g_description : jsstring;
  application : jsstring;
  g_justification : jsstring
}.

(** A risk attached to an operational scenario. *)
Record Risk : Type := mkRisk {
  risk_name : jsstring;
  risk_vraisemblance : value;
  risk_gravite : value
}.

(** An operational scenario ([so]). *)
Record Scenario : Type := mkScenario {
  so_id : value;
  eventId : value;
  path : value;
  connaitre : list jsstring;
  rester : list jsstring;
  trouver : list jsstring;
  exploiter : list jsstring;
  risks : list Risk;
  vraisemblance : value;
  gravite : value
}.

(** [analysis.data].  [events] and [gap] are [None] until a view or a
    handler creates the array; [others] holds the collections no function
    modelled here reads (strategies, risks of Atelier 5, action plans). *)
Record AnalysisData : Type := mkData {
  missionDescription : value;
  missions : list Mission;
  events : option (list Event);
  gap : option (list GapRequirement);
  srov : list Srov.Stored;
  ppc : list Ppc.Stored;
  so : list Scenario;
  others : list (jsstring * json)
}.

Record Analysis : Type := mkAnalysis {
  a_id : value;
  title : value;
  data : AnalysisData
}.

(** The in-memory list [analyses]. *)
Definition Analyses := list Analysis.

Definition set_missions (ms : list Mission) (d : AnalysisData) : AnalysisData :=
  {| missionDescription := missionDescription d; missions := ms;
     events := events d; gap := gap d; srov := srov d; ppc := ppc d;
     so := so d; others := others d |}.

Definition set_events (evs : option (list Event)) (d : AnalysisData) : AnalysisData :=
  {| missionDescription := missionDescription d; missions := missions d;
     events := evs; gap := gap d; srov := srov d; ppc := ppc d;
     so := so d; others := others d |}.

Definition set_so (scs : list Scenario) (d : AnalysisData) : AnalysisData :=
  {| missionDescription := missionDescription d; missions := missions d;
     events := events d; gap := gap d; srov := srov d; ppc := ppc d;
     so := scs; others := others d |}.

Definition on_data (f : AnalysisData -> AnalysisData) (a : Analysis) : Analysis :=
  {| a_id := a_id a; title := title a; data := f (data a) |}.

(** ** Deleting a mission *)

(** The click handler of the delete button of a mission row.  The closure
    holds the analysis object (at position [cur] of [analyses]), the mission
    object and its row index [idx]. *)
Definition mission_delete_click (cur idx : nat) (mission : Mission)
  (analyses : Analyses) : Analyses * list (Effect Analyses) :=
  (* analysis.data.missions.splice(idx, 1); *)
  let analyses1 :=
    update_nth cur
      (on_data (fun d => set_missions (splice1 idx (missions d)) d)) analyses in
  (* if (analysis.data.events) analysis.data.events = ....filter(...) *)
  let analyses2 :=
    update_nth cur
      (on_data (fun d =>
         match events d with
         | Some evs =>
             set_events
               (Some (filter (fun ev => negb (strict_eq (missionId ev) (m_id mission))) evs))
               d
         | None => d
         end)) analyses1 in
  (analyses2,
   [Save analyses2; Redraw "renderMissionsTable"; Redraw "updateAtelier1Graph"]).

(** ** The network of missions and supports *)

(** A [Map], in insertion order; [eqb] compares keys. *)
Section AssocMap.
Context {K V : Type} (eqb : K -> K -> bool).

Fixpoint map_get (k : K) (m : list (K * V)) : option V :=
  match m with
  | [] => None
  | (k', v) :: r => if eqb k' k then Some v else map_get k r
  end.

Fixpoint map_set (k : K) (v : V) (m : list (K * V)) : list (K * V) :=
  match m with
  | [] => [(k, v)]
  | (k', v') :: r => if eqb k' k then (k', v) :: r else (k', v') :: map_set k v r
  end.

End AssocMap.

(** [parseInt(ev.impact, 10) || 0]. *)
Definition impact_of (ev : Event) : Z := num_or (parseInt (impact ev)) 0.

(** One turn of the loop that fills [impactByMission]. *)
Definition impact_step (m : list (value * Z)) (ev : Event) : list (value * Z) :=
  let mid := missionId ev in
  let imp := impact_of ev in
  match map_get same_value_zero mid m with
  | None => map_set same_value_zero mid imp m
  | Some current => if current <? imp then map_set same_value_zero mid imp m else m
  end.

Definition impactByMission (evs : list Event) : list (value * Z) :=
  fold_left impact_step evs [].

(** [impactByMission.get(id) || 0]. *)
Definition mission_impact (ibm : list (value * Z)) (mid : value) : Z :=
  match map_get same_value_zero mid ibm with
  | Some v => if v =? 0 then 0 else v
  | None => 0
  end.

Record Stat : Type := mkStat { degree : Z; maxImpact : Z }.

(** One turn of the inner loop over the supports of a mission whose impact
    is [mImp]. *)
Definition support_step (mImp : Z) (stats : list (jsstring * Stat)) (s : Support)
  : list (jsstring * Stat) :=
  let nm := trim (name s) in
  match nm with
  | [] => stats
  | _ :: _ =>
      let stat :=
        match map_get str_eqb nm stats with
        | Some st => st
        | None => {| degree := 0; maxImpact := 0 |}
        end in
      let stat' :=
        {| degree := degree stat + 1;
           maxImpact := if maxImpact stat <? mImp then mImp else maxImpact stat |} in
      map_set str_eqb nm stat' stats
  end.

Definition stats_step (ibm : list (value * Z)) (stats : list (jsstring * Stat))
  (m : Mission) : list (jsstring * Stat) :=
  fold_left (support_step (mission_impact ibm (m_id m))) (supports m) stats.

Definition supportStats (ms : list Mission) (evs : list Event)
  : list (jsstring * Stat) :=
  fold_left (stats_step (impactByMission evs)) ms [].

Record MissionNode : Type := mkMissionNode {
  mn_id : value; mn_name : value; mn_desc : value; mn_impact : Z
}.

Record SupportNode : Type := mkSupportNode {
  sn_id : jsstring; sn_name : jsstring; sn_degree : Z; sn_maxImpact : Z
}.

(** The node lists [updateAtelier1Graph] builds before it draws. *)
Definition missionNodes (d : AnalysisData) : list MissionNode :=
  let evs := match events d with Some l => l | None => [] end in
  let ibm := impactByMission evs in
  map (fun m =>
         {| mn_id := m_id m;
            mn_name := js_or (denom m) (VStr (lit "Valeur"));
            mn_desc := js_or (description m) (VStr []);
            mn_impact := mission_impact ibm (m_id m) |})
      (missions d).

Definition supportNodes (d : AnalysisData) : list SupportNode :=
  let evs := match events d with Some l => l | None => [] end in
  map (fun '(nm, stat) =>
         {| sn_id := nm; sn_name := nm;
            sn_degree := degree stat; sn_maxImpact := maxImpact stat |})
      (supportStats (missions d) evs).

(** *** The same quantities, as the design words them *)

(** Impacts of the events attached to the mission [mid]. *)
Definition impacts_of_mission (evs : list Event) (mid : value) : list Z :=
  map impact_of (filter (fun ev => same_value_zero (missionId ev) mid) evs).

(** Maximum of a list of integers, starting from [floor]. *)
Definition max_from (floor : Z) (l : list Z) : Z := fold_left Z.max l floor.

(** [missionImpact]: maximum impact over the events of the mission, 0 when
    it has none. *)
Definition missionImpact (evs : list Event) (mid : value) : Z :=
  match impacts_of_mission evs mid with
  | [] => 0
  | x :: l => max_from x l
  end.

(** The support entries of a mission that carry the name [nm]. *)
Definition links_to (nm : jsstring) (m : Mission) : list Support :=
  filter (fun s => str_eqb (trim (name s)) nm) (supports m).

(** Number of links (support entries) that reach [nm]. *)
Definition link_count (nm : jsstring) (ms : list Mission) : Z :=
  Z.of_nat (List.length (flat_map (links_to nm) ms)).

(** The missions that reference [nm], and their number. *)
Definition referencing (nm : jsstring) (ms : list Mission) : list Mission :=
  filter (fun m => negb (Nat.eqb (List.length (links_to nm m)) 0)) ms.

Definition mission_count (nm : jsstring) (ms : list Mission) : Z :=
  Z.of_nat (List.length (referencing nm ms)).

(** *** Running values of the two loops, key by key *)

(** What the loop over the events leaves under a key: the running maximum
    of the impacts met for that key. *)
Definition seen (o : option Z) (l : list Z) : option Z :=
  fold_left (fun o x => Some (match o with None => x | Some c => Z.max c x end)) l o.

(** What the loop over the supports leaves under a name, [l] being the
    impacts of the missions of the links met for that name. *)
Definition tally (o : option Stat) (l : list Z) : option Stat :=
  fold_left
    (fun o x =>
       let b := match o with
                | Some st => st
                | None => {| degree := 0; maxImpact := 0 |}
                end in
       Some {| degree := degree b + 1; maxImpact := Z.max (maxImpact b) x |})
    l o.

(** One impact per link that reaches [nm], in the order of the loops. *)
Definition link_impacts (ibm : list (value * Z)) (nm : jsstring) (ms : list Mission)
  : list Z :=
  flat_map (fun m => map (fun _ => mission_impact ibm (m_id m)) (links_to nm m)) ms.

(** [events || []]. *)
Definition events_or_empty (d : AnalysisData) : list Event :=
  match events d with Some l => l | None => [] end.

(** ** Candidates of the GAP action import *)

(** The test that leaves a requirement out of the list: its application,
    lower-cased, without diacritics and white space, starts with
    "applique". *)
Definition application_prefix (req : GapRequirement) : jsstring :=
  let app := Text.toLowerCase (application req) in
  let app := Text.strip_diacritics (Text.normalizeNFD app) in
  Text.strip_spaces app.

Definition is_applied (req : GapRequirement) : bool :=
  startsWith (lit "applique") (application_prefix req).

Record ImportItem : Type := mkImportItem {
  item_id : jsstring;
  label : jsstring;
  desc : jsstring;
  extra : jsstring
}.

(** State of the loop: number of [uid()] calls so far, the requirements
    already visited (an id may have been assigned), the items pushed. *)
Record GapLoop : Type := mkGapLoop {
  uid_calls : nat;
  visited : list GapRequirement;
  items : list ImportItem
}.

Definition nonempty (s : jsstring) : bool :=
  match s with [] => false | _ :: _ => true end.

(** " – ": a space, an en dash, a space. *)
Definition dash_sep : jsstring := [32; 8211; 32]%N.

(** One turn of the [forEach] over [analysis.data.gap] in the gap branch of
    [openImportModal]. *)
Definition gap_step (rnd : nat -> jsstring) (st : GapLoop) (req : GapRequirement)
  : GapLoop :=
  if is_applied req then
    {| uid_calls := uid_calls st; visited := visited st ++ [req]; items := items st |}
  else
    let '(id, req', n') :=
      match g_id req with
      | Some (c :: r) => (c :: r, req, uid_calls st)
      | _ =>
          let fresh := uid rnd (uid_calls st) in
          (fresh,
           {| g_id := Some fresh; domaine := domaine req; titre := titre req;
              g_description := g_description req; application := application req;
              g_justification := g_justification req |},
           S (uid_calls st))
      end in
    let labelParts := filter nonempty [domaine req; titre req] in
    {| uid_calls := n';
       visited := visited st ++ [req'];
       items := items st ++
                [{| item_id := id; label := Text.join dash_sep labelParts;
                    desc := g_description req; extra := application req |}] |}.

(** The items the modal lists for type 'gap', with the requirements as the
    loop leaves them. *)
Definition gap_candidates (rnd : nat -> jsstring) (n : nat)
  (g : option (list GapRequirement)) : GapLoop :=
  fold_left (gap_step rnd)
    (match g with Some l => l | None => [] end)
    {| uid_calls := n; visited := []; items := [] |}.

(** ** The risk selection modal *)

(** [riskModalTarget] refers to a scenario object of the store: the one at
    position [snd] of [so] in the analysis at position [fst]. *)
Record Ui : Type := mkUi {
  ui_analyses : Analyses;
  riskModalTarget : option (nat * nat);
  selectedRiskNames : list jsstring;
  modal_shown : bool
}.

(** [riskModalTarget.risks.push({ name, vraisemblance:
    riskModalTarget.vraisemblance, gravite: riskModalTarget.gravite })]. *)
Definition push_risk_on (nm : jsstring) (sc : Scenario) : Scenario :=
  {| so_id := so_id sc; eventId := eventId sc; path := path sc;
     connaitre := connaitre sc; rester := rester sc; trouver := trouver sc;
     exploiter := exploiter sc;
     risks := risks sc ++
              [{| risk_name := nm;
                  risk_vraisemblance := vraisemblance sc;
                  risk_gravite := gravite sc |}];
     vraisemblance := vraisemblance sc;
     gravite := gravite sc |}.

Definition push_risk (target : nat * nat) (nm : jsstring) (an : Analyses) : Analyses :=
  update_nth (fst target)
    (on_data (fun d => set_so (update_nth (snd target) (push_risk_on nm) (so d)) d))
    an.

(** [openRiskModal(targetItem)]. *)
Definition openRiskModal (target : nat * nat) (ui : Ui) : Ui :=
  {| ui_analyses := ui_analyses ui;
     riskModalTarget := Some target;
     selectedRiskNames := [];
     modal_shown := true |}.

(** [closeRiskModal()]. *)
Definition closeRiskModal (ui : Ui) : Ui :=
  {| ui_analyses := ui_analyses ui;
     riskModalTarget := None;
     selectedRiskNames := selectedRiskNames ui;
     modal_shown := false |}.

Definition with_analyses (an : Analyses) (ui : Ui) : Ui :=
  {| ui_analyses := an;
     riskModalTarget := riskModalTarget ui;
     selectedRiskNames := selectedRiskNames ui;
     modal_shown := modal_shown ui |}.

(** [addRiskToScenario(name)]. *)
Definition addRiskToScenario (nm : jsstring) (ui : Ui) : Ui * list (Effect Analyses) :=
  match riskModalTarget ui with
  | None => (ui, [])
  | Some target =>
      let an := push_risk target nm (ui_analyses ui) in
      (closeRiskModal (with_analyses an ui), [Save an; Redraw "renderSO"])
  end.

(** The click handler of the manual addition button; [input] is the value of
    the text field. *)
Definition manual_click (input : jsstring) (ui : Ui) : Ui * list (Effect Analyses) :=
  match trim input with
  | [] => (ui, [])
  | c :: r => addRiskToScenario (c :: r) ui
  end.

Fixpoint remove_first (nm : jsstring) (l : list jsstring) : list jsstring :=
  match l with
  | [] => []
  | x :: r => if str_eqb x nm then r else x :: remove_first nm r
  end.

(** The click handler of an entry of the library list: it toggles the
    selection of that entry. *)
Definition li_click (nm : jsstring) (ui : Ui) : Ui * list (Effect Analyses) :=
  let sel := selectedRiskNames ui in
  ({| ui_analyses := ui_analyses ui;
      riskModalTarget := riskModalTarget ui;
      selectedRiskNames :=
        if existsb (fun x => str_eqb x nm) sel
        then remove_first nm sel else sel ++ [nm];
      modal_shown := modal_shown ui |},
   [Redraw "renderRiskList"]).

(** The click handler of the button that applies the selection. *)
Definition apply_click (ui : Ui) : Ui * list (Effect Analyses) :=
  match riskModalTarget ui with
  | None => (ui, [])
  | Some target =>
      match selectedRiskNames ui with
      | [] => (closeRiskModal ui, [])
      | names =>
          let an := fold_left (fun a nm => push_risk target nm a) names (ui_analyses ui) in
          (closeRiskModal (with_analyses an ui), [Save an; Redraw "renderSO"])
      end
  end.

(** The scenario object at position [k] of [so] in the analysis at position
    [cur]. *)
Definition scenario_at (an : Analyses) (cur k : nat) : option Scenario :=
  match nth_error an cur with
  | Some a => nth_error (so (data a)) k
  | None => None
  end.

(** The risk entry the modal builds for the name [nm] on the scenario
    [sc]. *)
Definition risk_for (sc : Scenario) (nm : jsstring) : Risk :=
  {| risk_name := nm;
     risk_vraisemblance := vraisemblance sc;
     risk_gravite := gravite sc |}.

End Model.

(* ================================================================== *)
(** ** Atelier 1: the other handlers of the missions table            *)
(* ================================================================== *)

Module Atelier1.

Import Model.

(** [l.findIndex(f)]; [None] is -1. *)
Fixpoint findIndex {A : Type} (f : A -> bool) (l : list A) : option nat :=
  match l with
  | [] => None
  | x :: r => if f x then Some O
              else match findIndex f r with
                   | Some i => Some (S i)
                   | None => None
                   end
  end.

(** The click handler of the button that removes an event of a mission row.
    The closure holds the analysis object (at position [cur]) and the event
    object.  The button exists for an event of [analysis.data.events]; on a
    store without that array the handler throws and changes nothing. *)
Definition event_remove_click (cur : nat) (event : Event) (analyses : Analyses)
  : Analyses * list (Effect Analyses) :=
  match nth_error analyses cur with
  | Some a =>
      match events (data a) with
      | Some evs =>
          match findIndex (fun ev => strict_eq (e_id ev) (e_id event)) evs with
          | Some idxEv =>
              let an := update_nth cur
                          (on_data (set_events (Some (splice1 idxEv evs)))) analyses in
              (an, [Save an; Redraw "renderMissionsTable"; Redraw "updateAtelier1Graph"])
          | None => (analyses, [])
          end
      | None => (analyses, [])
      end
  | None => (analyses, [])
  end.

(** The event the button "+ Evenement" of a mission row creates. *)
Definition new_event (id : jsstring) (mission : Mission) : Event :=
  {| e_id := VStr id; missionId := m_id mission; evenement := VStr [];
     impactDescription := VStr []; impact := VNum (Int 1) |}.

(** The click handler of that button; [n] counts the calls of [uid()] so
    far. *)
Definition event_add_click (rnd : nat -> jsstring) (n : nat) (cur : nat)
  (mission : Mission) (analyses : Analyses)
  : Analyses * nat * list (Effect Analyses) :=
  let an :=
    update_nth cur
      (on_data (fun d =>
         set_events (Some (events_or_empty d ++ [new_event (uid rnd n) mission])) d))
      analyses in
  (an, S n, [Save an; Redraw "renderMissionsTable"; Redraw "updateAtelier1Graph"]).

(** [allSupports] of the handler of "+ Support existant": one entry per
    trimmed name, the first description and owner winning. *)
Definition collect_step (acc : list Support) (s : Support) : list Support :=
  match trim (name s) with
  | [] => acc
  | c :: r =>
      if existsb (fun ss => str_eqb (name ss) (c :: r)) acc then acc
      else acc ++ [{| name := c :: r;
                      sup_description := sup_description s;
                      sup_responsable := sup_responsable s |}]
  end.

Definition allSupports (ms : list Mission) : list Support :=
  fold_left (fun acc m2 => fold_left collect_step (supports m2) acc) ms [].

(** [available]: those the mission does not carry yet. *)
Definition available (ms : list Mission) (mission : Mission) : list Support :=
  let currentNames := map (fun s => trim (name s)) (supports mission) in
  filter (fun s => negb (existsb (fun nm => str_eqb nm (name s)) currentNames))
         (allSupports ms).

Definition push_support (s : Support) (m : Mission) : Mission :=
  {| m_id := m_id m; denom := denom m; nature := nature m;
     description := description m; responsable := responsable m;
     supports := supports m ++ [s] |}.

(** The click handler of "+ Support existant" of the mission at position
    [idx] of the analysis at position [cur]; [input] is what [prompt]
    returns, [None] when the user cancels. *)
Definition support_existing_click (cur idx : nat) (input : option jsstring)
  (analyses : Analyses) : Analyses * list (Effect Analyses) :=
  match nth_error analyses cur with
  | Some a =>
      match nth_error (missions (data a)) idx with
      | Some mission =>
          let avail := available (missions (data a)) mission in
          match avail with
          | [] => (analyses, [Alert (lit "Aucun bien support existant disponible.")])
          | _ :: _ =>
              match input with
              | None => (analyses, [])
              | Some text =>
                  match parseInt_str text with
                  | NaN => (analyses, [])
                  | Int z =>
                      let index := z - 1 in
                      if ((0 <=? index) && (index <? Z.of_nat (List.length avail)))%bool
                      then
                        match nth_error avail (Z.to_nat index) with
                        | Some selected =>
                            let an :=
                              update_nth cur
                                (on_data (fun d =>
                                   set_missions
                                     (update_nth idx (push_support selected) (missions d)) d))
                                analyses in
                            (an, [Save an; Redraw "renderMissionsTable";
                                  Redraw "updateAtelier1Graph"])
                        | None => (analyses, [])
                        end
                      else (analyses, [])
                  end
              end
          end
      | None => (analyses, [])
      end
  | None => (analyses, [])
  end.

(** The lines [updateAtelier1Graph] draws: one per support entry with a
    name, when both ends have a position.  [missionPos] is keyed by the ids
    of the mission nodes, [supportPos] by the names of the support nodes. *)
Definition lines (d : AnalysisData) : list (value * jsstring) :=
  let ms := missions d in
  let mission_ids := map mn_id (missionNodes d) in
  let support_ids := map sn_id (supportNodes d) in
  flat_map
    (fun m =>
       flat_map
         (fun s =>
            match trim (name s) with
            | [] => []
            | c :: r =>
                if (existsb (fun k => same_value_zero k (m_id m)) mission_ids
                    && existsb (fun k => str_eqb k (c :: r)) support_ids)%bool
                then [(m_id m, c :: r)] else []
            end)
         (supports m))
    ms.

(** The support entries that carry a name. *)
Definition named_entries (ms : list Mission) : list Support :=
  flat_map (fun m => filter (fun s => nonempty (trim (name s))) (supports m)) ms.

Definition degree_sum (stats : list (jsstring * Stat)) : Z :=
  fold_right (fun kv acc => degree (snd kv) + acc) 0 stats.

End Atelier1.

(* ================================================================== *)
(** ** Atelier 2: nodes and edges of the source/objective network     *)
(* ================================================================== *)

Module Chart2.

(** A couple as the chart reads it.  The text inputs of the table store
    strings in [source], [objectif] and [justification]. *)
Record Couple : Type := mkCouple {
  c_source : jsstring;
  c_objectif : jsstring;
  c_motivation : value;
  c_ressources : value;
  c_priorite : value;
  c_retenue : value;
  c_justification : jsstring
}.

Definition to_stored (c : Couple) : Srov.Stored :=
  {| Srov.s_id := VUndefined;
     Srov.s_source := VStr (c_source c);
     Srov.s_objectif := VStr (c_objectif c);
     Srov.s_motivation := c_motivation c;
     Srov.s_ressources := c_ressources c;
     Srov.s_priorite := c_priorite c;
     Srov.s_retenue := c_retenue c;
     Srov.s_justification := VStr (c_justification c) |}.

(** [(s || '').trim() || dflt]. *)
Definition name_or (s dflt : jsstring) : jsstring :=
  match trim s with
  | [] => dflt
  | c :: r => c :: r
  end.

Definition source_name (c : Couple) : jsstring := name_or (c_source c) (lit "Source").
Definition objective_name (c : Couple) : jsstring := name_or (c_objectif c) (lit "Objectif").

(** [srcOrder] with [srcMap] (or [objOrder] with [objMap]): the names in
    the order they were first met, and the [Map] from a name to its
    position. *)
Record Order : Type := mkOrder {
  order : list jsstring;
  index_of : list (jsstring * nat)
}.

Definition order_step (o : Order) (nm : jsstring) : Order :=
  match Model.map_get str_eqb nm (index_of o) with
  | Some _ => o
  | None =>
      {| order := order o ++ [nm];
         index_of := Model.map_set str_eqb nm (List.length (order o)) (index_of o) |}
  end.

Definition empty_order : Order := {| order := []; index_of := [] |}.

Definition sources (couples : list Couple) : Order :=
  fold_left (fun o c => order_step o (source_name c)) couples empty_order.

Definition objectives (couples : list Couple) : Order :=
  fold_left (fun o c => order_step o (objective_name c)) couples empty_order.

(** As the design words it, "in order of first appearance": the distinct
    names of a list, each at the place where it first occurs. *)
Fixpoint firsts (names : list jsstring) : list jsstring :=
  match names with
  | [] => []
  | nm :: rest => nm :: filter (fun k => negb (str_eqb k nm)) (firsts rest)
  end.

(** [positions]: an object keyed by "src:" or "obj:" followed by the name.
    The abscissa depends on the side only and the ordinate is the rank
    [idx + 1] times the spacing of the side; the rank is what is kept
    here. *)
Fixpoint place (prefix : jsstring) (names : list jsstring) (idx : nat)
  (positions : list (jsstring * nat)) : list (jsstring * nat) :=
  match names with
  | [] => positions
  | nm :: rest => place prefix rest (S idx) (assoc_set (prefix ++ nm) (S idx) positions)
  end.

Definition positions (couples : list Couple) : list (jsstring * nat) :=
  place (lit "obj:") (order (objectives couples)) 0
    (place (lit "src:") (order (sources couples)) 0 []).

Record DrawnEdge : Type := mkDrawn {
  from_rank : nat;
  to_rank : nat;
  drawn : Srov.Edge
}.

(** The edges the chart draws: a couple is skipped when one of its ends
    has no position. *)
Definition edges (couples : list Couple) : list DrawnEdge :=
  let pos := positions couples in
  flat_map
    (fun c =>
       match assoc_get (lit "src:" ++ source_name c) pos,
             assoc_get (lit "obj:" ++ objective_name c) pos with
       | Some sPos, Some oPos =>
           [{| from_rank := sPos; to_rank := oPos;
               drawn := Srov.chart_edge (to_stored c) |}]
       | _, _ => []
       end)
    couples.

(** The rank of a name on its side, counted from 1 (0 for a name that is
    not on the side). *)
Definition rank_in (o : Order) (nm : jsstring) : nat :=
  match Model.map_get str_eqb nm (index_of o) with
  | Some i => S i
  | None => O
  end.

Section ObjectKeys.

(** The names [Object.prototype] defines: looked up on a plain object,
    such a name gives the inherited function or object, which is truthy and
    compares as [NaN]. *)
Variable inherited : jsstring -> bool.

(** One turn of the loop that fills the plain object [objMaxPriority]. *)
Definition priority_step (obj : list (jsstring * Z)) (c : Couple) : list (jsstring * Z) :=
  let oName := objective_name c in
  let prio := num_or (parseInt (c_priorite c)) 1 in
  if inherited oName then obj
  else
    match assoc_get oName obj with
    | None => assoc_set oName prio obj
    | Some current =>
        if ((current =? 0) || (current <? prio))%bool
        then assoc_set oName prio obj else obj
    end.

Definition objMaxPriority (couples : list Couple) : list (jsstring * Z) :=
  fold_left priority_step couples [].

End ObjectKeys.

(** The priorities of the couples that aim at the objective [nm]. *)
Definition priorities_of (couples : list Couple) (nm : jsstring) : list Z :=
  map (fun c => num_or (parseInt (c_priorite c)) 1)
      (filter (fun c => str_eqb (objective_name c) nm) couples).

(** The names the engines in use define on [Object.prototype]. *)
Definition sample_inherited (nm : jsstring) : bool :=
  existsb (fun k => str_eqb (lit k) nm)
    ["constructor"; "toString"; "valueOf"; "hasOwnProperty"; "isPrototypeOf";
     "propertyIsEnumerable"; "toLocaleString"; "__proto__"; "__defineGetter__";
     "__defineSetter__"; "__lookupGetter__"; "__lookupSetter__"]%string.

End Chart2.

(* ================================================================== *)
(** ** The compliance chart of the GAP analysis                       *)
(* ================================================================== *)

Module GapChart.

Import Model.

Record Counts : Type := mkCounts {
  applique : Z;
  partiel : Z;
  non : Z;
  nonApp : Z
}.

Inductive Status : Type := Applique | Partiel | Non | NonApp.

(** 233 is the code unit of "e" with an acute accent. *)
Definition accented (base : string) : jsstring := lit base ++ [233%N].

(** The chain of comparisons on [(req.application || '').toLowerCase().trim()]. *)
Definition status_of (req : GapRequirement) : option Status :=
  let val := trim (Text.toLowerCase (application req)) in
  if (str_eqb val (accented "appliqu") || str_eqb val (lit "applique"))%bool
  then Some Applique
  else if (str_eqb val (accented "partiellement appliqu")
           || str_eqb val (lit "partiellement applique"))%bool
  then Some Partiel
  else if (str_eqb val (accented "non appliqu") || str_eqb val (lit "non applique"))%bool
  then Some Non
  else if (str_eqb val (lit "non applicable") || str_eqb val (lit "non applicable"))%bool
  then Some NonApp
  else None.

Definition count_step (counts : Counts) (req : GapRequirement) : Counts :=
  match status_of req with
  | Some Applique =>
      {| applique := applique counts + 1; partiel := partiel counts;
         non := non counts; nonApp := nonApp counts |}
  | Some Partiel =>
      {| applique := applique counts; partiel := partiel counts + 1;
         non := non counts; nonApp := nonApp counts |}
  | Some Non =>
      {| applique := applique counts; partiel := partiel counts;
         non := non counts + 1; nonApp := nonApp counts |}
  | Some NonApp =>
      {| applique := applique counts; partiel := partiel counts;
         non := non counts; nonApp := nonApp counts + 1 |}
  | None => counts
  end.

(** The counts [updateGapChart] draws from [analysis.data.gap || []]. *)
Definition counts_of (g : option (list GapRequirement)) : Counts :=
  fold_left count_step
    (match g with Some l => l | None => [] end)
    {| applique := 0; partiel := 0; non := 0; nonApp := 0 |}.

Definition total (c : Counts) : Z := applique c + partiel c + non c + nonApp c.

(** What the chart shows: the message "Aucune exigence" or the donut. *)
Inductive View : Type :=
| NoRequirement
| Donut (counts : Counts).

Definition updateGapChart (g : option (list GapRequirement)) : View :=
  let counts := counts_of g in
  if total counts =? 0 then NoRequirement else Donut counts.

End GapChart.

(* ================================================================== *)
(** ** The library of techniques read from a CSV text                 *)
(* ================================================================== *)

Module Mitre.

(** [text.split(/\r?\n/)]: a line feed ends a line, and takes with it the
    carriage return just before it.  [cur] holds the current line,
    reversed. *)
Fixpoint split_lines_from (cur : jsstring) (text : jsstring) : list jsstring :=
  match text with
  | [] => [rev cur]
  | c :: rest =>
      if N.eqb c 10 then
        rev (match cur with
             | p :: before => if N.eqb p 13 then before else cur
             | [] => cur
             end) :: split_lines_from [] rest
      else split_lines_from (c :: cur) rest
  end.

Definition split_lines (text : jsstring) : list jsstring := split_lines_from [] text.

(** [row.split(',')]. *)
Fixpoint split_commas_from (cur : jsstring) (row : jsstring) : list jsstring :=
  match row with
  | [] => [rev cur]
  | c :: rest =>
      if N.eqb c 44 then rev cur :: split_commas_from [] rest
      else split_commas_from (c :: cur) rest
  end.

Definition split_commas (row : jsstring) : list jsstring := split_commas_from [] row.

(** Comparison of two code units under the [i] flag, for a pattern of ASCII
    letters and spaces: only the ASCII letters have two cases. *)
Definition same_ci (p c : N) : bool :=
  let up x := if (N.leb 97 x && N.leb x 122)%bool then (x - 32)%N else x in
  N.eqb (up p) (up c).

Fixpoint starts_ci (p s : jsstring) : bool :=
  match p, s with
  | [], _ => true
  | x :: p', y :: s' => same_ci x y && starts_ci p' s'
  | _ :: _, [] => false
  end.

(** [/pattern/i.test(h)]. *)
Fixpoint test_ci (p h : jsstring) : bool :=
  starts_ci p h ||
  match h with
  | [] => false
  | _ :: h' => test_ci p h'
  end.

(** [cols[i] ? cols[i].trim() : ''], [None] being the index -1. *)
Definition column (cols : list jsstring) (i : option nat) : jsstring :=
  match i with
  | Some k => match nth_error cols k with
              | Some c => trim c
              | None => []
              end
  | None => []
  end.

Record Mitigation : Type := mkMitigation {
  mit_id : jsstring;
  mitigation : jsstring;
  mit_description : jsstring
}.

Record Technique : Type := mkTechnique {
  tech_id : jsstring;
  title : jsstring;
  tech_description : jsstring;
  mitigations : list Mitigation
}.

(** The six column indices read from the header. *)
Record Columns : Type := mkColumns {
  idIndex : option nat;
  nameIndex : option nat;
  descIndex : option nat;
  mitIdIndex : option nat;
  mitNameIndex : option nat;
  mitDescIndex : option nat
}.

Definition columns_of (header : list jsstring) : Columns :=
  let find (p : string) := Atelier1.findIndex (test_ci (lit p)) header in
  {| idIndex := find "technique id"%string;
     nameIndex := find "technique name"%string;
     descIndex := find "technique description"%string;
     mitIdIndex := find "mitigation id"%string;
     mitNameIndex := find "mitigation name"%string;
     mitDescIndex := find "mitigation description"%string |}.

Definition add_mitigation (m : Mitigation) (t : Technique) : Technique :=
  {| tech_id := tech_id t; title := title t; tech_description := tech_description t;
     mitigations := mitigations t ++ [m] |}.

(** One turn of the loop over the lines after the header. *)
Definition row_step (cs : Columns) (map : list (jsstring * Technique)) (row : jsstring)
  : list (jsstring * Technique) :=
  match trim row with
  | [] => map
  | _ :: _ =>
      let cols := split_commas row in
      let tid := column cols (idIndex cs) in
      let tname := column cols (nameIndex cs) in
      let tdesc := column cols (descIndex cs) in
      let mid := column cols (mitIdIndex cs) in
      let mname := column cols (mitNameIndex cs) in
      let mdesc := column cols (mitDescIndex cs) in
      match tid with
      | [] => map
      | _ :: _ =>
          let map1 :=
            match Model.map_get str_eqb tid map with
            | Some _ => map
            | None =>
                Model.map_set str_eqb tid
                  {| tech_id := tid; title := tname; tech_description := tdesc;
                     mitigations := [] |} map
            end in
          match mid, Model.map_get str_eqb tid map1 with
          | _ :: _, Some entry =>
              Model.map_set str_eqb tid
                (add_mitigation
                   {| mit_id := mid; mitigation := mname; mit_description := mdesc |}
                   entry) map1
          | _, _ => map1
          end
      end
  end.

(** [parseMitreCsv(text)]. *)
Definition parseMitreCsv (text : jsstring) : list Technique :=
  match split_lines text with
  | header_line :: (row1 :: more) as rest =>
      let cs := columns_of (split_commas header_line) in
      map snd (fold_left (row_step cs) (row1 :: more) [])
  | _ => []
  end.

(** What the loop reads in a row: the technique id, and the mitigation the
    row carries. *)
Definition row_tid (cs : Columns) (row : jsstring) : jsstring :=
  match trim row with
  | [] => []
  | _ :: _ => column (split_commas row) (idIndex cs)
  end.

Definition row_mitigation (cs : Columns) (row : jsstring) : option Mitigation :=
  let cols := split_commas row in
  match column cols (mitIdIndex cs) with
  | [] => None
  | c :: r =>
      Some {| mit_id := c :: r;
              mitigation := column cols (mitNameIndex cs);
              mit_description := column cols (mitDescIndex cs) |}
  end.

(** The rows of a technique, and the mitigations a list of rows carries. *)
Definition rows_of (cs : Columns) (tid : jsstring) (rows : list jsstring) : list jsstring :=
  filter (fun row => str_eqb (row_tid cs row) tid) rows.

Definition picks (cs : Columns) (rows : list jsstring) : list Mitigation :=
  flat_map (fun row => match row_mitigation cs row with
                       | Some m => [m]
                       | None => []
                       end) rows.

(** The entry a row opens for a technique not met before. *)
Definition opened (cs : Columns) (row : jsstring) : Technique :=
  let cols := split_commas row in
  {| tech_id := column cols (idIndex cs);
     title := column cols (nameIndex cs);
     tech_description := column cols (descIndex cs);
     mitigations := [] |}.

End Mitre.

(* ================================================================== *)
(** ** Atelier 5: action tables and the plan                          *)
(* ================================================================== *)

Module Actions.

Import Model.

(** An action of one of the four tables; the inputs of the tables store
    strings. *)
Record Action : Type := mkAction {
  act_name : jsstring;
  act_description : jsstring;
  act_responsable : jsstring;
  act_start : jsstring;
  act_end : jsstring
}.

(** The rows of the four tables.  [actions] is [None] when the property is
    missing. *)
Record GapRow : Type := mkGapRow {
  sourceId : value;
  gap_actions : option (list Action)
}.

Record SupportRow : Type := mkSupportRow {
  supportName : jsstring;
  support_actions : option (list Action)
}.

Record PartyRow : Type := mkPartyRow {
  ppId : value;
  party_actions : option (list Action)
}.

Record RiskRow : Type := mkRiskRow {
  riskName : jsstring;
  risk_actions : option (list Action)
}.

(** What the plan reads of a stakeholder: [id], [nom] and the older [name]
    (empty when absent). *)
Record Party : Type := mkParty {
  pp_id : value;
  pp_nom : jsstring;
  pp_name : jsstring
}.

(** The collections of [analysis.data] the plan reads; [None] is a missing
    collection. *)
Record PlanData : Type := mkPlanData {
  pd_gap : option (list GapRequirement);
  actionsGap : option (list GapRow);
  actionsSupports : option (list SupportRow);
  pd_ppc : option (list Party);
  actionsParties : option (list PartyRow);
  actionsRisques : option (list RiskRow)
}.

(** [x || []]. *)
Definition or_empty {A : Type} (x : option (list A)) : list A :=
  match x with Some l => l | None => [] end.

(** ** The gap branch of [applyImportSelection] *)

(** One turn of [importSelections.forEach]: a row is pushed unless some row
    already refers to the identifier. *)
Definition import_step (rows : list GapRow) (id : jsstring) : list GapRow :=
  if existsb (fun entry => strict_eq (sourceId entry) (VStr id)) rows then rows
  else rows ++ [{| sourceId := VStr id; gap_actions := Some [] |}].

(** [analysis.data.actionsGap] after the branch; [rows] is [None] when the
    property is not an array. *)
Definition apply_gap_selection (selection : list jsstring) (rows : option (list GapRow))
  : list GapRow :=
  fold_left import_step selection (or_empty rows).

(** ** [renderPlanActions] *)

(** A line of the plan table. *)
Record PlanLine : Type := mkPlanLine {
  pl_name : jsstring;
  pl_source : jsstring;
  pl_description : jsstring;
  pl_responsable : jsstring;
  pl_start : jsstring;
  pl_end : jsstring
}.

Definition plan_line (source : jsstring) (act : Action) : PlanLine :=
  {| pl_name := act_name act;
     pl_source := source;
     pl_description := act_description act;
     pl_responsable := act_responsable act;
     pl_start := act_start act;
     pl_end := act_end act |}.

(** [req.id === entry.sourceId]. *)
Definition same_requirement (entry : GapRow) (req : GapRequirement) : bool :=
  strict_eq (match g_id req with Some s => VStr s | None => VUndefined end)
            (sourceId entry).

Definition first_nonempty (a b dflt : jsstring) : jsstring :=
  match a with
  | _ :: _ => a
  | [] => match b with _ :: _ => b | [] => dflt end
  end.

Definition gap_source (d : PlanData) (entry : GapRow) : jsstring :=
  lit "GAP: " ++
  match find (same_requirement entry) (or_empty (pd_gap d)) with
  | Some source => first_nonempty (titre source) (domaine source) (lit "Exigence")
  | None => lit "Exigence"
  end.

Definition support_source (row : SupportRow) : jsstring :=
  lit "Support: " ++
  match supportName row with _ :: _ => supportName row | [] => lit "Support" end.

Definition party_source (d : PlanData) (row : PartyRow) : jsstring :=
  lit "Partie: " ++
  match find (fun p => strict_eq (pp_id p) (ppId row)) (or_empty (pd_ppc d)) with
  | Some pp => first_nonempty (pp_nom pp) (pp_name pp) (lit "Partie")
  | None => lit "Partie"
  end.

Definition risk_source (row : RiskRow) : jsstring := lit "Risque: " ++ riskName row.

(** The array [actions] the function builds, which the table and the Gantt
    chart then show. *)
Definition planActions (d : PlanData) : list PlanLine :=
  flat_map (fun entry => map (plan_line (gap_source d entry))
                             (or_empty (gap_actions entry)))
           (or_empty (actionsGap d))
  ++ flat_map (fun row => map (plan_line (support_source row))
                              (or_empty (support_actions row)))
              (or_empty (actionsSupports d))
  ++ flat_map (fun row => map (plan_line (party_source d row))
                              (or_empty (party_actions row)))
              (or_empty (actionsParties d))
  ++ flat_map (fun row => map (plan_line (risk_source row))
                              (or_empty (risk_actions row)))
              (or_empty (actionsRisques d)).

(** The actions of the four tables, in the order of the tables. *)
Definition all_actions (d : PlanData) : list Action :=
  flat_map (fun entry => or_empty (gap_actions entry)) (or_empty (actionsGap d))
  ++ flat_map (fun row => or_empty (support_actions row)) (or_empty (actionsSupports d))
  ++ flat_map (fun row => or_empty (party_actions row)) (or_empty (actionsParties d))
  ++ flat_map (fun row => or_empty (risk_actions row)) (or_empty (actionsRisques d)).

(** The action a line of the plan shows. *)
Definition action_of (l : PlanLine) : Action :=
  {| act_name := pl_name l; act_description := pl_description l;
     act_responsable := pl_responsable l; act_start := pl_start l;
     act_end := pl_end l |}.

Definition set_actionsGap (rows : list GapRow) (d : PlanData) : PlanData :=
  {| pd_gap := pd_gap d; actionsGap := Some rows;
     actionsSupports := actionsSupports d; pd_ppc := pd_ppc d;
     actionsParties := actionsParties d; actionsRisques := actionsRisques d |}.

End Actions.

(* ================================================================== *)
(** ** Atelier 4: the chart of the operational scenarios              *)
(* ================================================================== *)

Module Chart4.

Import Model.

(** The object [counts], with its keys 1 to 4. *)
Record Counts : Type := mkCounts {
  level1 : Z;
  level2 : Z;
  level3 : Z;
  level4 : Z
}.

(** One turn of [ops.forEach]: [counts[lvl] = (counts[lvl] || 0) + 1] when
    [lvl >= 1 && lvl <= 4]. *)
Definition count_step (counts : Counts) (item : Scenario) : Counts :=
  match parseInt (vraisemblance item) with
  | Int lvl =>
      if ((1 <=? lvl) && (lvl <=? 4))%bool then
        match lvl with
        | 1 => {| level1 := num_or (Int (level1 counts)) 0 + 1; level2 := level2 counts;
                  level3 := level3 counts; level4 := level4 counts |}
        | 2 => {| level1 := level1 counts; level2 := num_or (Int (level2 counts)) 0 + 1;
                  level3 := level3 counts; level4 := level4 counts |}
        | 3 => {| level1 := level1 counts; level2 := level2 counts;
                  level3 := num_or (Int (level3 counts)) 0 + 1; level4 := level4 counts |}
        | _ => {| level1 := level1 counts; level2 := level2 counts;
                  level3 := level3 counts; level4 := num_or (Int (level4 counts)) 0 + 1 |}
        end
      else counts
  | NaN => counts
  end.

(** The heights of the four bars the chart draws, for the labels '1' to
    '4'. *)
Definition updateAtelier4Chart (ops : list Scenario) : list Z :=
  let counts := fold_left count_step ops
                  {| level1 := 0; level2 := 0; level3 := 0; level4 := 0 |} in
  [level1 counts; level2 counts; level3 counts; level4 counts].

(** The scenarios whose likelihood reads as the level [k]. *)
Definition rated (k : Z) (ops : list Scenario) : list Scenario :=
  filter (fun item => match parseInt (vraisemblance item) with
                      | Int lvl => lvl =? k
                      | NaN => false
                      end) ops.

End Chart4.

(* ================================================================== *)
(** ** The selected analysis, across a reload of the page             *)
(* ================================================================== *)

Module Session.

Import Model.

(** Decimal digits, most significant first. *)
Fixpoint uint_cu (u : Decimal.uint) : jsstring :=
  match u with
  | Decimal.Nil => []
  | Decimal.D0 r => 48%N :: uint_cu r
  | Decimal.D1 r => 49%N :: uint_cu r
  | Decimal.D2 r => 50%N :: uint_cu r
  | Decimal.D3 r => 51%N :: uint_cu r
  | Decimal.D4 r => 52%N :: uint_cu r
  | Decimal.D5 r => 53%N :: uint_cu r
  | Decimal.D6 r => 54%N :: uint_cu r
  | Decimal.D7 r => 55%N :: uint_cu r
  | Decimal.D8 r => 56%N :: uint_cu r
  | Decimal.D9 r => 57%N :: uint_cu r
  end.

(** [ToString], which [localStorage.setItem] applies to the value it
    stores. *)
Definition to_string (v : value) : jsstring :=
  match v with
  | VUndefined => lit "undefined"
  | VNull => lit "null"
  | VBool true => lit "true"
  | VBool false => lit "false"
  | VNum NaN => lit "NaN"
  | VNum (Int 0) => lit "0"
  | VNum (Int (Zpos p)) => uint_cu (Pos.to_uint p)
  | VNum (Int (Zneg p)) => 45%N :: uint_cu (Pos.to_uint p)
  | VStr s => s
  end.

(** [analyses], [currentIndex] and the entry [ebiosCurrentAnalysisId] of
    [localStorage] ([None] when there is none). *)
Record State : Type := mkState {
  analyses : Analyses;
  currentIndex : Z;
  savedId : option jsstring
}.

(** [analyses[i]]; [None] is [undefined]. *)
Definition at_index (l : Analyses) (i : Z) : option Analysis :=
  if i <? 0 then None else nth_error l (Z.to_nat i).

(** [persistCurrentAnalysisId()]; [writable] tells whether
    [localStorage.setItem] succeeds (the exception it throws otherwise is
    swallowed). *)
Definition persistCurrentAnalysisId (writable : bool) (st : State) : State :=
  match at_index (analyses st) (currentIndex st) with
  | Some sel =>
      if (truthy (a_id sel) && writable)%bool
      then {| analyses := analyses st; currentIndex := currentIndex st;
              savedId := Some (to_string (a_id sel)) |}
      else st
  | None => st
  end.

(** What [selectAnalysis(index)] does to the selection (it then redraws the
    views). *)
Definition selectAnalysis (writable : bool) (index : Z) (st : State) : State :=
  persistCurrentAnalysisId writable
    {| analyses := analyses st; currentIndex := index; savedId := savedId st |}.

(** The selection [init()] makes on the analyses [loaded] from the store;
    [readable] tells whether [localStorage.getItem] succeeds. *)
Definition init (readable writable : bool) (loaded : Analyses)
  (stored : option jsstring) : State :=
  let savedIndex :=
    if readable then
      match stored with
      | Some (c :: r) =>
          match Atelier1.findIndex (fun a => strict_eq (a_id a) (VStr (c :: r))) loaded with
          | Some i => Z.of_nat i
          | None => -1
          end
      | _ => -1
      end
    else -1 in
  let st := {| analyses := loaded; currentIndex := -1; savedId := stored |} in
  match loaded with
  | [] => st
  | _ :: _ => selectAnalysis writable (if 0 <=? savedIndex then savedIndex else 0) st
  end.

End Session.

(* ================================================================== *)
(** ** Import and export of JSON documents                            *)
(* ================================================================== *)

Module ImportExport.

(** The store as the import handlers see it: [analyses] may hold whatever a
    document held.  [uid_calls] counts the calls of [uid()] so far. *)
Record Store : Type := mkStore {
  analyses : list json;
  currentIndex : Z;
  uid_calls : nat
}.

(** [analyses[i]]; [None] is [undefined]. *)
Definition at_index (l : list json) (i : Z) : option json :=
  if i <? 0 then None else nth_error l (Z.to_nat i).

Definition set_analyses (l : list json) (st : Store) : Store :=
  {| analyses := l; currentIndex := currentIndex st; uid_calls := uid_calls st |}.

Definition set_currentIndex (i : Z) (st : Store) : Store :=
  {| analyses := analyses st; currentIndex := i; uid_calls := uid_calls st |}.

Definition set_uid_calls (n : nat) (st : Store) : Store :=
  {| analyses := analyses st; currentIndex := currentIndex st; uid_calls := n |}.

(** [analyses[currentIndex]] replaced by [a] (the handler mutated that
    object). *)
Definition put_current (a : json) (st : Store) : Store :=
  if currentIndex st <? 0 then st
  else set_analyses (update_nth (Z.to_nat (currentIndex st)) (fun _ => a) (analyses st)) st.

Record Download : Type := mkDownload {
  filename : jsstring;
  content : jsstring
}.

Inductive ExportResult : Type :=
| NoExport                 (* currentIndex < 0: the handler returns *)
| ExportThrows             (* a TypeError escapes the handler *)
| Exported (d : Download).

(** [/[^a-z0-9]/gi]: with the [i] flag and without [u], only the ASCII
    letters and digits are outside the class. *)
Definition is_alnum (c : N) : bool :=
  ((N.leb 48 c && N.leb c 57) || (N.leb 65 c && N.leb c 90)
   || (N.leb 97 c && N.leb c 122))%bool.

(** [title.replace(/[^a-z0-9]/gi, '_').toLowerCase()]. *)
Definition safeTitle (title : jsstring) : jsstring :=
  Text.toLowerCase (map (fun c => if is_alnum c then c else 95%N) title).

(** [obj.k1 || obj.k2 || ''] on an element of the GAP document; [None] when
    reading a property of the element throws. *)
Definition alias2 (obj : json) (k1 k2 : jsstring) : option json :=
  match get_prop (Some obj) k1, get_prop (Some obj) k2 with
  | Some v1, Some v2 =>
      Some (match v1, v2 with
            | Some x, _ => if truthy_json v1 then x
                           else if truthy_json v2 then
                                  match v2 with Some y => y | None => JStr [] end
                                else JStr []
            | None, Some y => if truthy_json v2 then y else JStr []
            | None, None => JStr []
            end)
  | _, _ => None
  end.

(** [analysis.data.gap.push(req)]; [None] when the statement throws. *)
Definition push_gap (req : json) (analysis : json) : option json :=
  match get_prop (Some analysis) (lit "data") with
  | Some (Some d) =>
      match get_prop (Some d) (lit "gap") with
      | Some (Some (JArr items own)) =>
          Some (set_prop analysis (lit "data")
                  (set_prop d (lit "gap") (JArr (items ++ [req]) own)))
      | _ => None
      end
  | _ => None
  end.

(** The code unit a code unit of the title leaves in the file name, as the
    design words it: a capital ASCII letter gives its small letter, a small
    ASCII letter or a digit stays, and every other code unit gives an
    underscore. *)
Definition plain_of (c : N) : N :=
  if (N.leb 65 c && N.leb c 90)%bool then (c + 32)%N
  else if ((N.leb 97 c && N.leb c 122) || (N.leb 48 c && N.leb c 57))%bool then c
  else 95%N.

(** A digit, a small ASCII letter or the underscore. *)
Definition is_plain (c : N) : bool :=
  ((N.leb 48 c && N.leb c 57) || (N.leb 97 c && N.leb c 122) || N.eqb c 95)%bool.

(** [analysis.data.gap] when it is an array: its elements. *)
Definition gap_items (analysis : json) : option (list json) :=
  match get_prop (Some analysis) (lit "data") with
  | Some (Some d) =>
      match get_prop (Some d) (lit "gap") with
      | Some (Some (JArr items _)) => Some items
      | _ => None
      end
  | _ => None
  end.

Section Runtime.

(** [JSON.parse]: the value, or the message of the [SyntaxError]. *)
Variable JSON_parse : jsstring -> jsstring + json.
(** [JSON.stringify(v, null, indent)]. *)
Variable JSON_stringify : json -> Z -> jsstring.
(** The digits [uid()] draws. *)
Variable rnd : nat -> jsstring.
(** The message the runtime gives a [TypeError]. *)
Variable typeErrorMessage : jsstring.
(** [renderAnalysisList(); selectAnalysis(currentIndex)] and
    [renderGapTable(); updateGapChart()]: the store as the redrawn views
    leave it, and the message of the exception that escaped, if any. *)
Variable redrawAll : Store -> Store * option jsstring.
Variable redrawGap : Store -> Store * option jsstring.

(** The snapshot [saveAnalyses()] writes to [localStorage]. *)
Definition saved (st : Store) : jsstring :=
  JSON_stringify (JArr (analyses st) []) 0.

(** The click handler of the export button. *)
Definition export_click (st : Store) : ExportResult :=
  if currentIndex st <? 0 then NoExport
  else
    let analysis := at_index (analyses st) (currentIndex st) in
    match analysis, get_prop analysis (lit "title") with
    | Some a, Some t =>
        let title := if truthy_json t then t else Some (JStr (lit "analyse")) in
        match title with
        | Some (JStr s) =>
            Exported {| filename := safeTitle s ++ lit ".json";
                        content := JSON_stringify a 2 |}
        | _ => ExportThrows
        end
    | _, _ => ExportThrows
    end.

(** [reader.onload] of the import of analyses; [text] is what the file
    holds. *)
Definition import_onload (text : jsstring) (st : Store)
  : Store * list (Effect jsstring) :=
  match JSON_parse text with
  | inl _ => (st, [Alert (lit "Fichier JSON invalide")])
  | inr doc =>
      let st1 :=
        match doc with
        | JArr items _ => set_analyses items st
        | _ => if typeof_object doc
               then set_analyses (analyses st ++ [doc]) st
               else st
        end in
      let st2 := set_currentIndex (Z.of_nat (List.length (analyses st1)) - 1) st1 in
      match redrawAll st2 with
      | (st3, None) => (st3, [Save (saved st1)])
      | (st3, Some _) => (st3, [Save (saved st1); Alert (lit "Fichier JSON invalide")])
      end
  end.

(** The requirement built from one element of the GAP document, [id] being
    the fresh identifier; [None] when reading the element throws. *)
Definition gap_req (id : jsstring) (obj : json) : option json :=
  match alias2 obj (lit "domaine") (lit "domain"),
        alias2 obj (lit "titre") (lit "title"),
        alias2 obj (lit "description") (lit "desc"),
        alias2 obj (lit "application") (lit "status"),
        alias2 obj (lit "justification") (lit "justif") with
  | Some dom, Some tit, Some des, Some app, Some jus =>
      Some (JObj [(lit "id", JStr id); (lit "domaine", dom); (lit "titre", tit);
                  (lit "description", des); (lit "application", app);
                  (lit "justification", jus)])
  | _, _, _, _, _ => None
  end.

(** The [forEach] over the elements of the document: the analysis object and
    the number of [uid()] calls when the loop ends or throws, and whether it
    threw. *)
Fixpoint gap_loop (elems : list json) (analysis : json) (n : nat)
  : json * nat * bool :=
  match elems with
  | [] => (analysis, n, false)
  | obj :: rest =>
      match gap_req (uid rnd n) obj with
      | None => (analysis, S n, true)
      | Some req =>
          match push_gap req analysis with
          | None => (analysis, S n, true)
          | Some analysis' => gap_loop rest analysis' (S n)
          end
      end
  end.

(** The alert of the [catch]: the literal has a no-break space (code unit
    160) before the colon and a space after it. *)
Definition gap_error (msg : jsstring) : Effect jsstring :=
  Alert (lit "Erreur lors de la lecture du fichier" ++ [160%N] ++ lit ": " ++ msg).

(** [if (!analysis.data) analysis.data = {}]; [None] when it throws. *)
Definition ensure_data (analysis : option json) : option json :=
  match analysis, get_prop analysis (lit "data") with
  | Some a, Some d =>
      Some (if truthy_json d then a else set_prop a (lit "data") (JObj []))
  | _, _ => None
  end.

(** [if (!analysis.data.gap) analysis.data.gap = []]; [None] when it
    throws. *)
Definition ensure_gap (a : json) : option json :=
  match get_prop (Some a) (lit "data") with
  | Some (Some d) =>
      match get_prop (Some d) (lit "gap") with
      | Some g =>
          Some (if truthy_json g then a
                else set_prop a (lit "data") (set_prop d (lit "gap") (JArr [] [])))
      | None => None
      end
  | _ => None
  end.

(** [reader.onload] of the GAP requirements import. *)
Definition gap_import_onload (text : jsstring) (st : Store)
  : Store * list (Effect jsstring) :=
  match JSON_parse text with
  | inl msg => (st, [gap_error msg])
  | inr doc =>
      match doc with
      | JArr elems _ =>
          match ensure_data (at_index (analyses st) (currentIndex st)) with
          | None => (st, [gap_error typeErrorMessage])
          | Some a1 =>
              match ensure_gap a1 with
              | None => (put_current a1 st, [gap_error typeErrorMessage])
              | Some a2 =>
                  let '(a3, n, threw) := gap_loop elems a2 (uid_calls st) in
                  let st1 := set_uid_calls n (put_current a3 st) in
                  if threw then (st1, [gap_error typeErrorMessage])
                  else
                    match redrawGap st1 with
                    | (st2, None) => (st2, [Save (saved st1)])
                    | (st2, Some msg) => (st2, [Save (saved st1); gap_error msg])
                    end
              end
          end
      | _ => (st, [Alert (lit "Le fichier doit contenir un tableau d'exigences.")])
      end
  end.

End Runtime.

(** *** The redraw that ends an import *)

Definition is_null (v : json) : bool :=
  match v with JNull => true | _ => false end.

(** What [renderMissionDescription] does to the analysis object (l.197 and
    l.198): [analysis.data] and its [missionDescription] get their
    defaults.  [None] when a statement throws. *)
Definition renderMissionDescription (a : json) : option json :=
  match ensure_data (Some a) with
  | Some a1 =>
      match get_prop (Some a1) (lit "data") with
      | Some (Some d) =>
          match get_prop (Some d) (lit "missionDescription") with
          | Some (Some (JStr _)) => Some a1
          | Some _ =>
              Some (set_prop a1 (lit "data")
                      (set_prop d (lit "missionDescription") (JStr [])))
          | None => None
          end
      | _ => None
      end
  | None => None
  end.

(** [renderAnalysisList(); selectAnalysis(currentIndex)].  The list reads
    the title of every analysis, which throws on [null].  [selectAnalysis]
    then returns when the current analysis is missing or falsy, and draws
    its views otherwise; every view works on [analyses[currentIndex]], the
    one object of the store the redraw reaches.  [render a n] stands for the
    views of the page drawn for the analysis object [a] when [n]
    identifiers have been drawn: the object as they leave it, the number of
    identifiers drawn by then, and the message of the exception that
    escaped them, if any. *)
Definition redraw_views
  (render : json -> nat -> json * nat * option jsstring)
  (typeErrorMessage : jsstring) (st : Store) : Store * option jsstring :=
  if existsb is_null (analyses st) then (st, Some typeErrorMessage)
  else
    match at_index (analyses st) (currentIndex st) with
    | Some a =>
        if truthy_json (Some a) then
          let '(a', n, thrown) := render a (uid_calls st) in
          (set_uid_calls n (put_current a' st), thrown)
        else (st, None)
    | None => (st, None)
    end.

(** A fragment of a runtime, enough to run the handlers on the empty object
    document and on a text that is not JSON. *)
Definition sample_parse (text : jsstring) : jsstring + json :=
  if str_eqb text (lit "{}") then inr (JObj [])
  else if str_eqb text (lit "7") then inr (JNum 7)
  else inl (lit "Unexpected token").

Definition sample_stringify (v : json) (indent : Z) : jsstring :=
  match v with
  | JObj [] => lit "{}"
  | JArr [] _ => lit "[]"
  | _ => lit "[{}]"
  end.

Definition sample_rnd (n : nat) : jsstring := lit "k3x9".

Definition sample_redraw (st : Store) : Store * option jsstring := (st, None).

Definition sample_store : Store :=
  {| analyses := [JObj []]; currentIndex := 0; uid_calls := 0 |}.

End ImportExport.

(* ================================================================== *)
(** ** Sample data                                                    *)
(* ================================================================== *)

Module Samples.

(** A couple imported with a motivation of 7. *)
Definition srov_seven : Srov.Stored :=
  {| Srov.s_id := VStr (lit "id-a1");
     Srov.s_source := VStr (lit "Concurrent");
     Srov.s_objectif := VStr (lit "Vol de donnees");
     Srov.s_motivation := VNum (Int 7);
     Srov.s_ressources := VNum (Int 2);
     Srov.s_priorite := VNum (Int 1);
     Srov.s_retenue := VBool true;
     Srov.s_justification := VStr [] |}.

(** The stakeholder of the scenario of the design notes: dependance 4,
    penetration 4, maturite 1, confiance 1. *)
Definition ppc_exposed : Ppc.Stored :=
  {| Ppc.s_id := VStr (lit "id-p1");
     Ppc.s_nom := VStr (lit "Hebergeur");
     Ppc.s_categorie := VStr (lit "prestataire");
     Ppc.s_supportIds := Some [];
     Ppc.s_valueIds := Some [];
     Ppc.s_dependance := VNum (Int 4);
     Ppc.s_penetration := VNum (Int 4);
     Ppc.s_maturite := VNum (Int 1);
     Ppc.s_confiance := VNum (Int 1) |}.

(** A stakeholder scored 3, 3, 2 and 2: exposition 9, niveau SSI 4. *)
Definition ppc_balanced : Ppc.Stored :=
  {| Ppc.s_id := VStr (lit "id-p2");
     Ppc.s_nom := VStr (lit "Editeur");
     Ppc.s_categorie := VStr (lit "prestataire");
     Ppc.s_supportIds := Some [];
     Ppc.s_valueIds := Some [];
     Ppc.s_dependance := VNum (Int 3);
     Ppc.s_penetration := VNum (Int 3);
     Ppc.s_maturite := VNum (Int 2);
     Ppc.s_confiance := VNum (Int 2) |}.

(** A stakeholder whose document gives the maturite as "-2". *)
Definition ppc_negative : Ppc.Stored :=
  {| Ppc.s_id := VStr (lit "id-p3");
     Ppc.s_nom := VStr (lit "Client");
     Ppc.s_categorie := VStr (lit "client");
     Ppc.s_supportIds := Some [];
     Ppc.s_valueIds := Some [];
     Ppc.s_dependance := VNum (Int 2);
     Ppc.s_penetration := VNum (Int 2);
     Ppc.s_maturite := VStr (lit "-2");
     Ppc.s_confiance := VNum (Int 1) |}.

(** A store whose only analysis is titled "Etude 2024". *)
Definition titled_store : ImportExport.Store :=
  {| ImportExport.analyses :=
       [JObj [(lit "id", JStr (lit "id-k3x9")); (lit "title", JStr (lit "Etude 2024"))]];
     ImportExport.currentIndex := 0;
     ImportExport.uid_calls := 1 |}.

(** A runtime whose [JSON.parse] is the one modelled, with the message of
    one engine for what it does not read. *)
Definition runtime_parse (text : jsstring) : jsstring + json :=
  match JsonText.read text with
  | Some v => inr v
  | None => inl (lit "Unexpected token")
  end.

(** The views of a page that shows the mission description only. *)
Definition page_render (a : json) (n : nat) : json * nat * option jsstring :=
  match ImportExport.renderMissionDescription a with
  | Some a' => (a', n, None)
  | None => (a, n, Some (lit "Cannot read properties of undefined"))
  end.

(** An analysis that has been on display: a title, a mission description
    and one mission with a support. *)
Definition study : json :=
  JObj [(lit "id", JStr (lit "id-k3x9"));
        (lit "title", JStr (lit "Etude 2024"));
        (lit "data",
         JObj [(lit "missionDescription", JStr (lit "Paie des agents"));
               (lit "missions",
                JArr [JObj [(lit "id", JStr (lit "id-m1"));
                            (lit "name", JStr (lit "M1"));
                            (lit "supports",
                             JArr [JObj [(lit "name", JStr (lit "S1"))]] []);
                            (lit "impact", JNum 3)]] [])])].

Definition study_store : ImportExport.Store :=
  {| ImportExport.analyses := [study];
     ImportExport.currentIndex := 0;
     ImportExport.uid_calls := 2 |}.

(** Two missions; the first is "M1" with the support "S1" and the feared
    event E1 of impact 3. *)
Definition s1 : Model.Support :=
  {| Model.name := lit "S1"; Model.sup_description := [];
     Model.sup_responsable := [] |}.

Definition m1 : Model.Mission :=
  {| Model.m_id := VStr (lit "id-m1"); Model.denom := VStr (lit "M1");
     Model.nature := VStr (lit "information"); Model.description := VStr [];
     Model.responsable := VStr []; Model.supports := [s1] |}.

Definition m2 : Model.Mission :=
  {| Model.m_id := VStr (lit "id-m2"); Model.denom := VStr (lit "M2");
     Model.nature := VStr (lit "processus"); Model.description := VStr [];
     Model.responsable := VStr []; Model.supports := [] |}.

Definition e1 : Model.Event :=
  {| Model.e_id := VStr (lit "id-e1"); Model.missionId := VStr (lit "id-m1");
     Model.evenement := VStr (lit "E1"); Model.impactDescription := VStr [];
     Model.impact := VNum (Int 3) |}.

Definition e2 : Model.Event :=
  {| Model.e_id := VStr (lit "id-e2"); Model.missionId := VStr (lit "id-m2");
     Model.evenement := VStr (lit "E2"); Model.impactDescription := VStr [];
     Model.impact := VNum (Int 2) |}.

(** A scenario rated 3 in likelihood and 2 in severity, with no risk yet. *)
Definition scenario1 : Model.Scenario :=
  {| Model.so_id := VStr (lit "id-so1"); Model.eventId := VStr (lit "id-e1");
     Model.path := VStr []; Model.connaitre := []; Model.rester := [];
     Model.trouver := []; Model.exploiter := []; Model.risks := [];
     Model.vraisemblance := VNum (Int 3); Model.gravite := VNum (Int 2) |}.

Definition data1 : Model.AnalysisData :=
  {| Model.missionDescription := VStr [];
     Model.missions := [m1; m2];
     Model.events := Some [e1; e2];
     Model.gap := None;
     Model.srov := [srov_seven];
     Model.ppc := [ppc_exposed];
     Model.so := [scenario1];
     Model.others := [] |}.

Definition analysis1 : Model.Analysis :=
  {| Model.a_id := VStr (lit "id-an1"); Model.title := VStr (lit "Etude");
     Model.data := data1 |}.

(** A mission whose table lists the support "S1" twice. *)
Definition m_twice : Model.Mission :=
  {| Model.m_id := VStr (lit "id-m3"); Model.denom := VStr (lit "M3");
     Model.nature := VStr (lit "fonction"); Model.description := VStr [];
     Model.responsable := VStr []; Model.supports := [s1; s1] |}.

(** A requirement of the GAP table with the given application status. *)
Definition requirement (title status : jsstring) : Model.GapRequirement :=
  {| Model.g_id := None; Model.domaine := lit "Acces"; Model.titre := title;
     Model.g_description := []; Model.application := status;
     Model.g_justification := [] |}.

(** The four statuses the table offers; 233 is the code unit of "e" with an
    acute accent. *)
Definition applique : jsstring := lit "Appliqu" ++ [233%N].
Definition partiellement_applique : jsstring := lit "Partiellement appliqu" ++ [233%N].
Definition non_applique : jsstring := lit "Non appliqu" ++ [233%N].
Definition non_applicable : jsstring := lit "Non applicable".

(** Three other ways of writing the first status: with a grave accent on
    the capital (192), with a space inside the word, and in capitals (201 is
    the capital "E" with an acute accent). *)
Definition applique_accented : jsstring := [192%N] ++ lit "ppliqu" ++ [233%N].
Definition applique_spaced : jsstring := lit " App liqu" ++ [233%N].
Definition applique_capitals : jsstring := lit "APPLIQU" ++ [201%N].

Definition gap_table : list Model.GapRequirement :=
  [requirement (lit "MFA") applique;
   requirement (lit "Journalisation") partiellement_applique;
   requirement (lit "Sauvegardes") non_applique;
   requirement (lit "Badges") non_applicable].

(** The risk modal, opened on the scenario of [analysis1], with two entries
    of the library selected. *)
Definition ui_open : Model.Ui :=
  {| Model.ui_analyses := [analysis1];
     Model.riskModalTarget := Some (0%nat, 0%nat);
     Model.selectedRiskNames := [lit "T1566 Phishing"; lit "T1078 Valid Accounts"];
     Model.modal_shown := true |}.

(** A library text of three lines: the header and two rows of the
    technique T1, with the mitigations M1 and M2. *)
Definition csv_header : jsstring := lit "Technique ID,Technique Name,Mitigation ID".

Definition csv_rows : list jsstring := [lit "T1,Phishing,M1"; lit "T1,Other,M2"].

Definition csv : jsstring :=
  csv_header ++ [13%N; 10%N] ++ lit "T1,Phishing,M1" ++ [10%N] ++ lit "T1,Other,M2".

End Samples.

(* ================================================================== *)
(** ** Invariants of the loops                                        *)
(* ================================================================== *)

(** What the collection of [allSupports] keeps true: names are distinct,
    not empty, and each is the trimmed name of a support of [ms]. *)
Definition collected (ms : list Model.Mission) (acc : list Model.Support) : Prop :=
  NoDup (map Model.name acc) /\
  forall x, In x acc ->
    Model.name x <> [] /\
    exists m s, In m ms /\ In s (Model.supports m) /\ Model.name x = trim (Model.name s).

(** What the loops of [supportStats] keep true of the keys. *)
Definition stat_keys_ok (stats : list (jsstring * Model.Stat)) : Prop :=
  NoDup (map fst stats) /\ forall k, In k (map fst stats) -> k <> [].

(** What the loop over the couples keeps true of an order and its map. *)
Definition order_ok (o : Chart2.Order) : Prop :=
  map fst (Chart2.index_of o) = Chart2.order o /\
  NoDup (Chart2.order o) /\
  forall nm i, Model.map_get str_eqb nm (Chart2.index_of o) = Some i <->
               nth_error (Chart2.order o) i = Some nm.

(** What is left of a text for the prefix test of the import. *)
Definition stripped (s : jsstring) : jsstring :=
  Text.strip_spaces (Text.strip_diacritics (Text.normalizeNFD s)).

(** A requirement whose status the GAP chart counts. *)
Definition recognised (q : Model.GapRequirement) : bool :=
  match GapChart.status_of q with Some _ => true | None => false end.

(** The entry of a technique after one more of its rows. *)
Definition extended (cs : Mitre.Columns) (o : option Mitre.Technique) (row : jsstring)
  : Mitre.Technique :=
  let entry := match o with Some e => e | None => Mitre.opened cs row end in
  match Mitre.row_mitigation cs row with
  | Some m => Mitre.add_mitigation m entry
  | None => entry
  end.

(** What the loop over the rows keeps true of the map of techniques. *)
Definition techniques_ok (m : list (jsstring * Mitre.Technique)) : Prop :=
  NoDup (map fst m) /\
  forall k t, In (k, t) m -> Mitre.tech_id t = k /\ k <> [].

(* ================================================================== *)
(** * Properties                                                      *)
(* ================================================================== *)

Lemma num_or_nonzero (n : JsNum) (d : Z) : d <> 0 -> num_or n d <> 0.
Proof.
  intros Hd. destruct n as [|z]; simpl; [assumption|].
  destruct (Z.eqb_spec z 0); assumption.
Qed.

Lemma num_or_int_nonzero (z d : Z) : z <> 0 -> num_or (Int z) d = z.
Proof.
  intros Hz. simpl. destruct (Z.eqb_spec z 0); [contradiction|reflexivity].
Qed.

Lemma pertinenceBucket_thresholds (p : Z) :
  Srov.bucket_of_thresholds p (Srov.pertinenceBucket p).
Proof.
  unfold Srov.bucket_of_thresholds, Srov.pertinenceBucket.
  destruct (Z.leb_spec 13 p); [repeat split; lia|].
  destruct (Z.leb_spec 9 p); [repeat split; lia|].
  destruct (Z.leb_spec 5 p); repeat split; lia.
Qed.

Lemma parseInt_safe (z : Z) : safe z -> parseInt (VNum (Int z)) = Int z.
Proof.
  unfold safe. intros Hz. cbn [parseInt].
  destruct (Z.ltb_spec (Z.abs z) 1000000000000000000000); [reflexivity|lia].
Qed.


(** Beyond the safe integers the edge drawn after the table was rendered
    can differ: a motivation stored as the digits of 10^21 is kept as that
    number by [renderSROV], and the chart then reads it back as 1. *)
Example huge_score_is_read_back_as_its_first_digit :
  let s := {| Srov.s_id := VStr (lit "id-a1"); Srov.s_source := VStr [];
              Srov.s_objectif := VStr [];
              Srov.s_motivation := VStr (lit "1000000000000000000000");
              Srov.s_ressources := VNum (Int 2); Srov.s_priorite := VNum (Int 1);
              Srov.s_retenue := VBool true; Srov.s_justification := VStr [] |} in
  Srov.edge_p (Srov.chart_edge s) = 2000000000000000000000 /\
  Srov.edge_p (Srov.chart_edge (Srov.stored_of (Srov.normalize [] s))) = 2.
Proof. split; reflexivity. Qed.

Lemma pertinenceBucket_mono (p q : Z) :
  p <= q -> Srov.pertinenceBucket p <= Srov.pertinenceBucket q.
Proof.
  intros Hpq. unfold Srov.pertinenceBucket.
  destruct (Z.leb_spec 13 p), (Z.leb_spec 13 q),
           (Z.leb_spec 9 p), (Z.leb_spec 9 q),
           (Z.leb_spec 5 p), (Z.leb_spec 5 q); lia.
Qed.

(** C5. On scores between 1 and 4 the pertinence level does not decrease
    when the motivation grows, nor when the resources grow; the level of
    1 * 1 is 1 and the level of 4 * 4 is 4. *)
Theorem pertinenceBucket_monotone (m m' r r' : Z) :
  1 <= m <= 4 -> 1 <= m' <= 4 -> 1 <= r <= 4 -> 1 <= r' <= 4 ->
  (m <= m' -> Srov.pertinenceBucket (m * r) <= Srov.pertinenceBucket (m' * r)) /\
  (r <= r' -> Srov.pertinenceBucket (m * r) <= Srov.pertinenceBucket (m * r')) /\
  Srov.pertinenceBucket (1 * 1) = 1 /\
  Srov.pertinenceBucket (4 * 4) = 4.
Proof.
  intros Hm Hm' Hr Hr'. repeat split.
  - intros Hle. apply pertinenceBucket_mono. nia.
  - intros Hle. apply pertinenceBucket_mono. nia.
Qed.

Lemma pertinenceBucket_monotone_witness :
  (2 <= 3 -> Srov.pertinenceBucket (2 * 3) <= Srov.pertinenceBucket (3 * 3)) /\
  (3 <= 4 -> Srov.pertinenceBucket (2 * 3) <= Srov.pertinenceBucket (2 * 4)) /\
  Srov.pertinenceBucket (1 * 1) = 1 /\
  Srov.pertinenceBucket (4 * 4) = 4.
Proof.
  apply (pertinenceBucket_monotone 2 3 3 4); lia.
Defined.

(** The scenario of the design notes: motivation 3 and ressources 3 give a
    pertinence of 9, level 3. *)
Example pertinence_three_three :
  Srov.pertinenceBucket (3 * 3) = 3.
Proof. reflexivity. Qed.

(** *** Stakeholder indices *)

Lemma js_div_nonzero (a b : Z) :
  b <> 0 -> Ppc.js_div a b = Ppc.RFin (Ppc.fl_div a b).
Proof.
  intros Hb. unfold Ppc.js_div. destruct (Z.eqb_spec b 0); [contradiction|reflexivity].
Qed.

Lemma indice_expr_cases (expo niveau : Z) :
  Ppc.indice_expr expo niveau =
    if niveau =? 0 then Ppc.RFin (inject_Z 0)
    else Ppc.RFin (Ppc.fl_div expo niveau).
Proof.
  unfold Ppc.indice_expr. destruct (Z.eqb_spec niveau 0) as [->|Hn]; simpl.
  - reflexivity.
  - now apply js_div_nonzero.
Qed.

Lemma niveau_nonzero (entry : Ppc.Item) :
  Ppc.niveau (Ppc.updateDerivedCells entry) <> 0.
Proof.
  cbn [Ppc.updateDerivedCells Ppc.niveau].
  apply Z.neq_mul_0; split; apply num_or_nonzero; lia.
Qed.

(** **** The nearest double to a quotient of safe integers *)

Lemma round_half_even_spec (n d : Z) :
  0 <= n -> 0 < d ->
  let m := Ppc.round_half_even n d in
  n / d <= m <= n / d + 1 /\
  2 * Z.abs (m * d - n) <= d /\
  (n mod d = 0 -> m = n / d).
Proof.
  intros Hn Hd m. unfold m, Ppc.round_half_even.
  pose proof (Z.div_mod n d ltac:(lia)) as Hdm.
  pose proof (Z.mod_pos_bound n d Hd) as Hr.
  destruct (Z.ltb_spec (2 * (n mod d)) d).
  - split; [lia|]. split; [nia|reflexivity].
  - destruct (Z.ltb_spec d (2 * (n mod d))).
    + split; [lia|]. split; [nia|lia].
    + destruct (Z.even (n / d)); (split; [lia|]); (split; [nia|lia]).
Qed.

Lemma binade_le_log2 (A B : Z) : 0 < B -> Ppc.binade A B <= Z.log2 A.
Proof.
  intros HB. unfold Ppc.binade. pose proof (Z.log2_nonneg B).
  destruct (if 0 <=? Z.log2 A - Z.log2 B then _ else _); lia.
Qed.

Lemma binade_lower (A B : Z) :
  0 < A -> 0 < B -> 0 <= Ppc.binade A B -> B * 2 ^ Ppc.binade A B <= A.
Proof.
  intros HA HB. unfold Ppc.binade.
  set (c := Z.log2 A - Z.log2 B).
  destruct (Z.log2_spec A HA) as [LA UA]. destruct (Z.log2_spec B HB) as [LB UB].
  pose proof (Z.log2_nonneg A). pose proof (Z.log2_nonneg B).
  destruct (Z.leb_spec 0 c) as [Hc|Hc].
  - destruct (Z.leb_spec (B * 2 ^ c) A) as [Ht|Ht]; [intros _; exact Ht|].
    intros He.
    assert (Hpow : 2 ^ Z.succ (Z.log2 B) * 2 ^ (c - 1) = 2 ^ Z.log2 A).
    { rewrite <- Z.pow_add_r by lia. f_equal. unfold c. lia. }
    assert (0 < 2 ^ (c - 1)) by (apply Z.pow_pos_nonneg; lia).
    nia.
  - destruct (Z.leb_spec B (A * 2 ^ (- c))); lia.
Qed.

Lemma binade_lower_neg (A B : Z) :
  0 < A -> 0 < B -> Ppc.binade A B < 0 -> B <= A * 2 ^ (- Ppc.binade A B).
Proof.
  intros HA HB. unfold Ppc.binade.
  set (c := Z.log2 A - Z.log2 B).
  destruct (Z.log2_spec A HA) as [LA UA]. destruct (Z.log2_spec B HB) as [LB UB].
  pose proof (Z.log2_nonneg A). pose proof (Z.log2_nonneg B).
  destruct (Z.leb_spec 0 c) as [Hc|Hc].
  - destruct (Z.leb_spec (B * 2 ^ c) A) as [Ht|Ht]; [lia|].
    intros He. assert (c = 0) by lia.
    replace (- (c - 1)) with 1 by lia. change (2 ^ 1) with 2.
    assert (E : Z.log2 A = Z.log2 B) by (unfold c in *; lia).
    rewrite E in LA. rewrite Z.pow_succ_r in UB by lia. lia.
  - destruct (Z.leb_spec B (A * 2 ^ (- c))) as [Ht|Ht]; [intros _; exact Ht|].
    intros _.
    assert (Hpow : 2 ^ Z.log2 A * 2 ^ (- (c - 1)) = 2 ^ Z.succ (Z.log2 B)).
    { rewrite <- Z.pow_add_r by lia. f_equal. unfold c. lia. }
    assert (0 < 2 ^ (- (c - 1))) by (apply Z.pow_pos_nonneg; lia).
    nia.
Qed.

Lemma scale_nonneg (A B : Z) :
  0 < B -> 0 < A < 9007199254740992 -> 0 <= 52 - Ppc.binade A B.
Proof.
  intros HB HA. pose proof (binade_le_log2 A B HB).
  assert (Z.log2 A < 53) by (apply Z.log2_lt_pow2; [lia|apply HA]). lia.
Qed.

Lemma Qle_bool_scaled (k m t : Z) :
  0 <= t ->
  Qle_bool (inject_Z k) (Qmake m (Z.to_pos (2 ^ t))) = (k * 2 ^ t <=? m).
Proof.
  intros Ht. unfold Qle_bool. cbn [Qnum Qden inject_Z].
  rewrite Z2Pos.id by (apply Z.pow_pos_nonneg; lia). now rewrite Z.mul_1_r.
Qed.

Lemma fl_div_pos_ge (A B k : Z) :
  0 < A < 9007199254740992 -> 0 < B < 4503599627370496 -> 1 <= k <= 4 ->
  Qle_bool (inject_Z k) (Ppc.fl_div_pos A B) = (k * B <=? A).
Proof.
  intros HA HB Hk. unfold Ppc.fl_div_pos.
  pose proof (scale_nonneg A B ltac:(lia) HA) as Ht.
  set (t := 52 - Ppc.binade A B) in *.
  destruct (Z.leb_spec 0 t); [|lia].
  rewrite Qle_bool_scaled by exact Ht.
  assert (Hpt : 0 < 2 ^ t) by (apply Z.pow_pos_nonneg; lia).
  destruct (round_half_even_spec (A * 2 ^ t) B ltac:(nia) ltac:(lia)) as (Hq & Herr & _).
  set (m := Ppc.round_half_even (A * 2 ^ t) B) in *.
  pose proof (Z.div_mod (A * 2 ^ t) B ltac:(lia)) as Hdm.
  pose proof (Z.mod_pos_bound (A * 2 ^ t) B ltac:(lia)) as Hr.
  apply eq_true_iff_eq. rewrite !Z.leb_le. split.
  - intros Hm.
    destruct (Z.le_gt_cases (k * B) A) as [Hge|Hlt]; [exact Hge|exfalso].
    assert (He : Ppc.binade A B <= 1).
    { destruct (Z.le_gt_cases (Ppc.binade A B) 1) as [H1|H1]; [exact H1|exfalso].
      pose proof (binade_lower A B ltac:(lia) ltac:(lia) ltac:(lia)) as Hl.
      assert (2 ^ 2 <= 2 ^ Ppc.binade A B) by (apply Z.pow_le_mono_r; lia).
      change (2 ^ 2) with 4 in *. nia. }
    assert (H51 : 2 ^ 51 <= 2 ^ t) by (apply Z.pow_le_mono_r; unfold t; lia).
    change (2 ^ 51) with 2251799813685248 in H51.
    nia.
  - intros Hge.
    assert (k * 2 ^ t <= (A * 2 ^ t) / B).
    { apply Z.div_le_lower_bound; [lia|]. nia. }
    lia.
Qed.

Lemma fl_div_pos_nonneg (A B : Z) :
  0 < A < 9007199254740992 -> 0 < B -> (0 <= Ppc.fl_div_pos A B)%Q.
Proof.
  intros HA HB. unfold Ppc.fl_div_pos.
  pose proof (scale_nonneg A B HB HA) as Ht.
  set (t := 52 - Ppc.binade A B) in *.
  destruct (Z.leb_spec 0 t); [|lia].
  assert (Hpt : 0 < 2 ^ t) by (apply Z.pow_pos_nonneg; lia).
  destruct (round_half_even_spec (A * 2 ^ t) B ltac:(nia) ltac:(lia)) as (Hq & _ & _).
  pose proof (Z.div_pos (A * 2 ^ t) B ltac:(nia) ltac:(lia)).
  unfold Qle. cbn [Qnum Qden]. lia.
Qed.

(** Against an integer from 1 to 4 the rounded quotient compares as the
    quotient does, when the dividend is below 2^53 and the divisor below
    2^52 in magnitude. *)
Lemma fl_div_ge (a b k : Z) :
  b <> 0 -> Z.abs a < 9007199254740992 -> Z.abs b < 4503599627370496 ->
  1 <= k <= 4 ->
  Qle_bool (inject_Z k) (Ppc.fl_div a b) = (k <=? a / b).
Proof.
  intros Hb Ha Hb2 Hk. unfold Ppc.fl_div.
  destruct (Z.eqb_spec a 0) as [->|Ha0].
  { rewrite Z.div_0_l by exact Hb. unfold Qle_bool. cbn.
    destruct (Z.leb_spec (k * 1) 0), (Z.leb_spec k 0); try reflexivity; lia. }
  assert (HA : 0 < Z.abs a < 9007199254740992) by lia.
  assert (HB : 0 < Z.abs b < 4503599627370496) by lia.
  pose proof (fl_div_pos_ge (Z.abs a) (Z.abs b) k HA HB Hk) as Hpos.
  pose proof (fl_div_pos_nonneg (Z.abs a) (Z.abs b) HA ltac:(lia)) as Hnn.
  cbv zeta.
  destruct (Z.ltb_spec (Z.sgn a * Z.sgn b) 0) as [Hs|Hs].
  - assert (Hq : a / b < 0).
    { assert (Hsign : (0 < a /\ b < 0) \/ (a < 0 /\ 0 < b))
        by (destruct a, b; cbn in Hs; lia).
      destruct Hsign as [[Hap Hbn]|[Han Hbp]].
      - rewrite <- Z.div_opp_opp by exact Hb.
        apply Z.div_lt_upper_bound; lia.
      - apply Z.div_lt_upper_bound; lia. }
    destruct (Z.leb_spec k (a / b)); [lia|].
    apply not_true_is_false. intros Hle. apply Qle_bool_iff in Hle.
    assert (Hk0 : (0 < inject_Z k)%Q) by (unfold Qlt; cbn; lia).
    assert (Hv : (- Ppc.fl_div_pos (Z.abs a) (Z.abs b) <= 0)%Q).
    { apply (Qopp_le_compat 0) in Hnn. exact Hnn. }
    apply (Qlt_irrefl 0). eapply Qlt_le_trans; [exact Hk0|].
    eapply Qle_trans; [exact Hle|exact Hv].
  - rewrite Hpos.
    assert (Hsame : a / b = Z.abs a / Z.abs b).
    { destruct a as [|pa|pa], b as [|pb|pb]; cbn in Hs; try lia; try reflexivity.
      cbn [Z.abs]. now rewrite <- Z.div_opp_opp by discriminate. }
    rewrite Hsame. apply eq_true_iff_eq. rewrite !Z.leb_le. split.
    + intros H. apply Z.div_le_lower_bound; lia.
    + intros H. pose proof (Z.mul_div_le (Z.abs a) (Z.abs b) ltac:(lia)). nia.
Qed.

Lemma fl_div_pos_exact (C B : Z) :
  0 < C -> 0 < B -> C * B < 9007199254740992 ->
  (Ppc.fl_div_pos (C * B) B == inject_Z C)%Q.
Proof.
  intros HC HB Hlt. unfold Ppc.fl_div_pos.
  pose proof (scale_nonneg (C * B) B HB ltac:(nia)) as Ht.
  set (t := 52 - Ppc.binade (C * B) B) in *.
  destruct (Z.leb_spec 0 t); [|lia].
  assert (Hpt : 0 < 2 ^ t) by (apply Z.pow_pos_nonneg; lia).
  destruct (round_half_even_spec (C * B * 2 ^ t) B ltac:(nia) ltac:(lia))
    as (_ & _ & Hex).
  replace (C * B * 2 ^ t) with (C * 2 ^ t * B) in * by ring.
  rewrite Hex by (apply Z.mod_mul; lia).
  rewrite Z.div_mul by lia.
  unfold Qeq. cbn [Qnum Qden inject_Z].
  rewrite Z2Pos.id by exact Hpt. ring.
Qed.

(** A division that falls right is exact. *)
Lemma fl_div_exact (a b : Z) :
  b <> 0 -> Z.abs a < 9007199254740992 -> a mod b = 0 ->
  (Ppc.fl_div a b == inject_Z (a / b))%Q.
Proof.
  intros Hb Ha Hmod. unfold Ppc.fl_div.
  destruct (Z.eqb_spec a 0) as [->|Ha0].
  { now rewrite Z.div_0_l by exact Hb. }
  apply Z.mod_divide in Hmod; [|exact Hb]. destruct Hmod as [c ->].
  rewrite Z.div_mul by exact Hb.
  assert (Hc : c <> 0) by (intros ->; apply Ha0; reflexivity).
  rewrite Z.abs_mul in *.
  pose proof (fl_div_pos_exact (Z.abs c) (Z.abs b) ltac:(lia) ltac:(lia) Ha) as Hpos.
  rewrite Z.sgn_mul.
  assert (Hs : Z.sgn c * Z.sgn b * Z.sgn b = Z.sgn c).
  { destruct b; try contradiction; cbn; lia. }
  rewrite Hs. cbv zeta.
  destruct (Z.ltb_spec (Z.sgn c) 0) as [Hn|Hp]; rewrite Hpos;
    unfold Qeq; cbn [Qnum Qden inject_Z Qopp];
    destruct c; cbn in *; try lia; reflexivity.
Qed.

Lemma rounding_error_pos (A B : Z) :
  0 < A < 9007199254740992 -> 0 < B ->
  let t := 52 - Ppc.binade A B in
  let m := Ppc.round_half_even (A * 2 ^ t) B in
  0 <= t /\ Z.abs (m * B - A * 2 ^ t) * 9007199254740992 <= A * 2 ^ t.
Proof.
  intros HA HB t m.
  pose proof (scale_nonneg A B HB HA) as Ht. fold t in Ht.
  split; [exact Ht|].
  assert (Hpt : 0 < 2 ^ t) by (apply Z.pow_pos_nonneg; lia).
  destruct (round_half_even_spec (A * 2 ^ t) B ltac:(nia) ltac:(lia)) as (_ & Herr & _).
  fold m in Herr.
  assert (Hscale : B * 4503599627370496 <= A * 2 ^ t).
  { destruct (Z.le_gt_cases 0 (Ppc.binade A B)) as [He|He].
    - pose proof (binade_lower A B ltac:(lia) HB He) as Hl.
      assert (E : 4503599627370496 = 2 ^ Ppc.binade A B * 2 ^ t).
      { rewrite <- Z.pow_add_r by lia.
        change 4503599627370496 with (2 ^ 52). f_equal; unfold t; lia. }
      rewrite E. nia.
    - pose proof (binade_lower_neg A B ltac:(lia) HB He) as Hl.
      assert (E : 2 ^ t = 4503599627370496 * 2 ^ (- Ppc.binade A B)).
      { change 4503599627370496 with (2 ^ 52).
        rewrite <- Z.pow_add_r by lia. f_equal; unfold t; lia. }
      rewrite E. nia. }
  lia.
Qed.

(** The rounded quotient is within a relative error of 2^-53 of the
    quotient. *)
Lemma fl_div_error (a b : Z) :
  b <> 0 -> Z.abs a < 9007199254740992 ->
  (Qabs (Ppc.fl_div a b * inject_Z b - inject_Z a) * inject_Z 9007199254740992
   <= Qabs (inject_Z a))%Q.
Proof.
  intros Hb Ha. unfold Ppc.fl_div.
  destruct (Z.eqb_spec a 0) as [->|Ha0].
  { unfold Qle. cbn. lia. }
  destruct (rounding_error_pos (Z.abs a) (Z.abs b) ltac:(lia) ltac:(lia)) as [Ht Herr].
  unfold Ppc.fl_div_pos. cbv zeta in *.
  set (t := 52 - Ppc.binade (Z.abs a) (Z.abs b)) in *.
  set (m := Ppc.round_half_even (Z.abs a * 2 ^ t) (Z.abs b)) in *.
  destruct (Z.leb_spec 0 t); [|lia].
  assert (Hpt : 0 < 2 ^ t) by (apply Z.pow_pos_nonneg; lia).
  destruct (Z.ltb_spec (Z.sgn a * Z.sgn b) 0) as [Hs|Hs];
    unfold Qle, Qabs, Qminus, Qplus, Qmult, Qopp, inject_Z;
    cbn [Qnum Qden]; rewrite ?Pos.mul_1_r, ?Z.mul_1_r;
    rewrite Z2Pos.id by exact Hpt.
  - assert (Hsign : (0 < a /\ b < 0) \/ (a < 0 /\ 0 < b))
      by (destruct a, b; cbn in Hs; lia).
    destruct Hsign as [[Hap Hbn]|[Han Hbp]].
    + replace (- m * b + - a * 2 ^ t) with (m * Z.abs b - Z.abs a * 2 ^ t) by lia.
      rewrite (Z.abs_eq a) in * by lia. exact Herr.
    + replace (- m * b + - a * 2 ^ t) with (- (m * Z.abs b - Z.abs a * 2 ^ t)) by lia.
      rewrite Z.abs_opp. exact Herr.
  - assert (Hsign : (0 < a /\ 0 < b) \/ (a < 0 /\ b < 0))
      by (destruct a, b; cbn in Hs; try contradiction; lia).
    destruct Hsign as [[Hap Hbn]|[Han Hbp]].
    + replace (m * b + - a * 2 ^ t) with (m * Z.abs b - Z.abs a * 2 ^ t) by lia.
      exact Herr.
    + replace (m * b + - a * 2 ^ t) with (- (m * Z.abs b - Z.abs a * 2 ^ t)) by lia.
      rewrite Z.abs_opp. exact Herr.
Qed.

Lemma bounded_products (entry : Ppc.Item) :
  Ppc.bounded entry ->
  let d := Ppc.updateDerivedCells entry in
  Z.abs (Ppc.expo d) < 4503599627370496 /\ Z.abs (Ppc.niveau d) < 4503599627370496.
Proof.
  unfold Ppc.bounded, Ppc.small. intros (Hd & Hp & Hm & Hc).
  cbn [Ppc.updateDerivedCells Ppc.expo Ppc.niveau]. rewrite !Z.abs_mul.
  pose proof (Z.abs_nonneg (num_or (Ppc.dependance entry) 1)).
  pose proof (Z.abs_nonneg (num_or (Ppc.penetration entry) 1)).
  pose proof (Z.abs_nonneg (num_or (Ppc.maturite entry) 1)).
  pose proof (Z.abs_nonneg (num_or (Ppc.confiance entry) 1)).
  split; nia.
Qed.




(** The scenario of the design notes: exposition 16, niveau SSI 1,
    indice 16. *)
Example indice_of_exposed_stakeholder :
  let d := Ppc.updateDerivedCells (Ppc.normalize [] Samples.ppc_exposed) in
  Ppc.expo d = 16 /\ Ppc.niveau d = 1 /\
  (exists q, Ppc.indice d = Ppc.RFin q /\ (q == inject_Z 16)%Q) /\
  Ppc.indLvl d = 4.
Proof.
  split; [reflexivity|]. split; [reflexivity|]. split; [|reflexivity].
  eexists. split; [reflexivity|]. vm_compute. reflexivity.
Qed.

(** The row of the stakeholder with the maturite of -2: exposition 4,
    niveau SSI -2, indice -2. *)
Example indice_of_negative_maturite :
  let d := Ppc.updateDerivedCells (Ppc.normalize [] Samples.ppc_negative) in
  Ppc.expo d = 4 /\ Ppc.niveau d = -2 /\
  (exists q, Ppc.indice d = Ppc.RFin q /\ (q == inject_Z (-2))%Q) /\
  Ppc.indLvl d = 1.
Proof.
  split; [reflexivity|]. split; [reflexivity|]. split; [|reflexivity].
  eexists. split; [reflexivity|]. vm_compute. reflexivity.
Qed.

(** *** Normalisation of the scored fields *)

(** [parseInt] on some stored strings. *)
Example parseInt_samples :
  parseInt (VStr (lit "3")) = Int 3 /\
  parseInt (VStr (lit "  42px")) = Int 42 /\
  parseInt (VStr (lit "-3")) = Int (-3) /\
  parseInt (VStr (lit "+2.5")) = Int 2 /\
  parseInt (VStr (lit "fort")) = NaN /\
  parseInt (VStr []) = NaN /\
  parseInt (VStr (lit "-")) = NaN.
Proof. repeat split. Qed.

Lemma level_default (v : value) :
  num_or (parseInt v) 1 <> 0 /\
  (parseInt v = NaN -> num_or (parseInt v) 1 = 1) /\
  (parseInt v = Int 0 -> num_or (parseInt v) 1 = 1) /\
  (forall k, parseInt v = Int k -> k <> 0 -> num_or (parseInt v) 1 = k).
Proof.
  split; [apply num_or_nonzero; lia|].
  split; [intros ->; reflexivity|].
  split; [intros ->; reflexivity|].
  intros k -> Hk. now apply num_or_int_nonzero.
Qed.

Lemma normalize_impact_range (v : value) :
  (truthy v = false \/ is_number v = false) ->
  exists z, Model.normalize_impact v = VNum (Int z) /\ 1 <= z <= 4 /\
            (forall k, parseInt v = Int k -> 1 <= k <= 4 -> z = k) /\
            (parseInt v = NaN -> z = 1) /\
            (forall k, parseInt v = Int k -> ~ 1 <= k <= 4 -> z = 1).
Proof.
  intros Hv. unfold Model.normalize_impact.
  assert (Hc : (negb (truthy v) || negb (is_number v))%bool = true).
  { destruct Hv as [-> | ->]; [reflexivity|]. now rewrite orb_true_r. }
  rewrite Hc. destruct (parseInt v) as [|parsed].
  - exists 1. split; [reflexivity|]. split; [lia|].
    split; [discriminate|]. split; [reflexivity|]. discriminate.
  - destruct (Z.leb_spec 1 parsed), (Z.leb_spec parsed 4); simpl.
    + exists parsed. split; [reflexivity|]. split; [lia|].
      split; [intros k [= <-] _; reflexivity|].
      split; [discriminate|]. intros k [= <-] Hk; lia.
    + exists 1. split; [reflexivity|]. split; [lia|].
      split; [intros k [= <-] Hk; lia|]. split; reflexivity.
    + exists 1. split; [reflexivity|]. split; [lia|].
      split; [intros k [= <-] Hk; lia|]. split; reflexivity.
    + exists 1. split; [reflexivity|]. split; [lia|].
      split; [intros k [= <-] Hk; lia|]. split; reflexivity.
Qed.

(** C4, as the code has it.  For the scores of a couple (motivation,
    ressources, priorite) and of a cartography entry (dependance,
    penetration, maturite, confiance), the normalisation run at render time
    leaves [parseInt(stored) || 1]: a non-zero integer, which is the parsed
    value when that is a non-zero integer (inside [1,4] or not) and 1 when the
    stored value is missing, not numeric or zero.  For the impact of an
    event that is falsy or not a number, it leaves an integer of [1,4]: the
    parsed value when that lies in [1,4], and 1 otherwise; an impact stored
    as a number of [1,4] stays as it is. *)
Theorem render_normalization_defaults (next_id : jsstring) :
  (forall s : Srov.Stored,
      let it := Srov.normalize next_id s in
      Srov.motivation it = Int (num_or (parseInt (Srov.s_motivation s)) 1) /\
      Srov.ressources it = Int (num_or (parseInt (Srov.s_ressources s)) 1) /\
      Srov.priorite it = Int (num_or (parseInt (Srov.s_priorite s)) 1)) /\
  (forall p : Ppc.Stored,
      let it := Ppc.normalize next_id p in
      Ppc.dependance it = Int (num_or (parseInt (Ppc.s_dependance p)) 1) /\
      Ppc.penetration it = Int (num_or (parseInt (Ppc.s_penetration p)) 1) /\
      Ppc.maturite it = Int (num_or (parseInt (Ppc.s_maturite p)) 1) /\
      Ppc.confiance it = Int (num_or (parseInt (Ppc.s_confiance p)) 1)) /\
  (forall v : value,
      num_or (parseInt v) 1 <> 0 /\
      (parseInt v = NaN -> num_or (parseInt v) 1 = 1) /\
      (parseInt v = Int 0 -> num_or (parseInt v) 1 = 1) /\
      (forall k, parseInt v = Int k -> k <> 0 -> num_or (parseInt v) 1 = k)) /\
  (parseInt VUndefined = NaN /\ parseInt VNull = NaN /\
   parseInt (VStr []) = NaN /\ parseInt (VNum NaN) = NaN) /\
  (forall ev : Model.Event,
      Model.impact (Model.normalize_event next_id ev)
      = Model.normalize_impact (Model.impact ev)) /\
  (forall v : value,
      truthy v = false \/ is_number v = false ->
      exists z, Model.normalize_impact v = VNum (Int z) /\ 1 <= z <= 4 /\
                (forall k, parseInt v = Int k -> 1 <= k <= 4 -> z = k) /\
                (parseInt v = NaN -> z = 1) /\
                (forall k, parseInt v = Int k -> ~ 1 <= k <= 4 -> z = 1)) /\
  (forall z : Z, 1 <= z <= 4 ->
      Model.normalize_impact (VNum (Int z)) = VNum (Int z)).
Proof.
  split; [intros s it; repeat split|].
  split; [intros p it; repeat split|].
  split; [exact level_default|].
  split; [repeat split|].
  split; [reflexivity|].
  split; [exact normalize_impact_range|].
  intros z Hz. unfold Model.normalize_impact. simpl.
  destruct (Z.eqb_spec z 0); [lia|reflexivity].
Qed.

Lemma render_normalization_defaults_witness :
  parseInt (VStr (lit "3")) = Int 3 /\
  num_or (parseInt (VStr (lit "3"))) 1 = 3 /\
  Model.normalize_impact (VNum (Int 2)) = VNum (Int 2) /\
  exists z, Model.normalize_impact (VStr (lit "9")) = VNum (Int z) /\ z = 1.
Proof.
  destruct (render_normalization_defaults []) as (_ & _ & Hlevel & _ & _ & Himp & Hkeep).
  split; [reflexivity|]. split.
  - destruct (Hlevel (VStr (lit "3"))) as (_ & _ & _ & Hk).
    apply Hk; [reflexivity|lia].
  - split; [apply Hkeep; lia|].
    destruct (Himp (VStr (lit "9"))) as (z & Hz & _ & _ & _ & Hout);
      [right; reflexivity|].
    exists z. split; [exact Hz|]. apply (Hout 9); [reflexivity|lia].
Defined.

(** An impact stored as the number 7 passes the test of [renderEventsTable]
    (it is truthy and of type number) and stays 7. *)
Example impact_seven_is_kept :
  Model.normalize_impact (VNum (Int 7)) = VNum (Int 7).
Proof. reflexivity. Qed.

(** C4 as stated fails: a couple stored with a motivation of 7 keeps 7 when
    [renderSROV] normalises it, so the field does not end in [1,4]. *)
Lemma motivation_seven_is_not_clamped :
  ~ (exists z : Z,
        Srov.motivation (Srov.normalize [] Samples.srov_seven) = Int z /\
        1 <= z <= 4).
Proof.
  intros [z [Hz Hrange]]. cbn in Hz. injection Hz as <-. lia.
Qed.

(** *** Equality of values *)

Lemma str_eqb_eq (a b : jsstring) : str_eqb a b = true <-> a = b.
Proof.
  revert b. induction a as [|x a IH]; intros [|y b]; simpl; split;
    try discriminate; try reflexivity.
  - intros H. apply andb_true_iff in H as [Hxy Hab].
    apply N.eqb_eq in Hxy. apply IH in Hab. congruence.
  - intros [= -> ->]. apply andb_true_iff. split.
    + apply N.eqb_refl.
    + now apply IH.
Qed.

Lemma strict_eq_eq (a b : value) : strict_eq a b = true -> a = b.
Proof.
  destruct a as [| |x|[|x]|x], b as [| |y|[|y]|y]; simpl; try discriminate;
    try reflexivity.
  - intros H. apply Bool.eqb_prop in H. congruence.
  - intros H. apply Z.eqb_eq in H. congruence.
  - intros H. apply str_eqb_eq in H. congruence.
Qed.

Lemma strict_eq_truthy (a b : value) :
  truthy b = true -> (strict_eq a b = true <-> a = b).
Proof.
  intros Hb. split; [apply strict_eq_eq|]. intros ->.
  destruct b as [| |x|[|x]|x]; simpl in *; try discriminate; try reflexivity.
  - apply Bool.eqb_reflx.
  - apply Z.eqb_refl.
  - now apply str_eqb_eq.
Qed.

(** *** Deleting a mission *)

Lemma nth_error_update_nth_same {A : Type} (f : A -> A) (l : list A) (k : nat) :
  nth_error (update_nth k f l) k = option_map f (nth_error l k).
Proof.
  revert k. induction l as [|x l IH]; intros [|k]; simpl; auto.
Qed.

Lemma nth_error_update_nth_other {A : Type} (f : A -> A) (l : list A) (k j : nat) :
  j <> k -> nth_error (update_nth k f l) j = nth_error l j.
Proof.
  revert k j. induction l as [|x l IH]; intros [|k] [|j] Hjk; simpl;
    try reflexivity; try congruence.
  apply IH. congruence.
Qed.

Lemma filter_split_length {A : Type} (f : A -> bool) (l : list A) :
  List.length l
  = (List.length (filter (fun x => negb (f x)) l) + List.length (filter f l))%nat.
Proof.
  induction l as [|x l IH]; simpl; [reflexivity|].
  destruct (f x); simpl; lia.
Qed.

Lemma filter_none_removed {A : Type} (f : A -> bool) (l : list A) :
  filter f l = [] -> filter (fun x => negb (f x)) l = l.
Proof.
  induction l as [|x l IH]; simpl; [reflexivity|].
  destruct (f x); simpl; [discriminate|]. intros H. f_equal. auto.
Qed.

(** C2. Deleting a mission removes it from [missions] and, in the same
    handler and before the single [saveAnalyses()], removes from [events]
    exactly the events whose [missionId] is strictly equal to the id of the
    mission: the others stay, in their order, and their number drops by the
    number of events removed.  Every other collection of the analysis, and
    every other analysis, is left as it was; a mission without events leaves
    [events] as it was. *)
Theorem mission_delete_cascade
  (cur idx : nat) (mission : Model.Mission)
  (analyses : Model.Analyses) (a : Model.Analysis) :
  nth_error analyses cur = Some a ->
  let r := Model.mission_delete_click cur idx mission analyses in
  let attached := fun ev => strict_eq (Model.missionId ev) (Model.m_id mission) in
  exists a' : Model.Analysis,
    nth_error (fst r) cur = Some a' /\
    Model.missions (Model.data a') = splice1 idx (Model.missions (Model.data a)) /\
    Model.events (Model.data a')
    = option_map (filter (fun ev => negb (attached ev))) (Model.events (Model.data a)) /\
    (forall evs, Model.events (Model.data a) = Some evs ->
       exists evs',
         Model.events (Model.data a') = Some evs' /\
         (forall ev, In ev evs' <-> In ev evs /\ attached ev = false) /\
         List.length evs = (List.length evs' + List.length (filter attached evs))%nat /\
         (filter attached evs = [] -> evs' = evs)) /\
    (truthy (Model.m_id mission) = true ->
     forall ev, attached ev = true <-> Model.missionId ev = Model.m_id mission) /\
    Model.missionDescription (Model.data a') = Model.missionDescription (Model.data a) /\
    Model.gap (Model.data a') = Model.gap (Model.data a) /\
    Model.srov (Model.data a') = Model.srov (Model.data a) /\
    Model.ppc (Model.data a') = Model.ppc (Model.data a) /\
    Model.so (Model.data a') = Model.so (Model.data a) /\
    Model.others (Model.data a') = Model.others (Model.data a) /\
    Model.a_id a' = Model.a_id a /\ Model.title a' = Model.title a /\
    (forall j, j <> cur -> nth_error (fst r) j = nth_error analyses j) /\
    snd r = [Save (fst r); Redraw "renderMissionsTable"; Redraw "updateAtelier1Graph"].
Proof.
  intros Ha r attached.
  unfold r, Model.mission_delete_click. cbn [fst snd].
  rewrite !nth_error_update_nth_same, Ha. cbn [option_map].
  eexists. split; [reflexivity|].
  assert (Heq : truthy (Model.m_id mission) = true ->
                forall ev, attached ev = true <-> Model.missionId ev = Model.m_id mission).
  { intros Hid ev. now apply strict_eq_truthy. }
  assert (Hrest : forall j, j <> cur ->
                  nth_error
                    (update_nth cur
                       (Model.on_data
                          (fun d =>
                             match Model.events d with
                             | Some evs =>
                                 Model.set_events
                                   (Some (filter (fun ev => negb (attached ev)) evs)) d
                             | None => d
                             end))
                       (update_nth cur
                          (Model.on_data
                             (fun d => Model.set_missions
                                         (splice1 idx (Model.missions d)) d))
                          analyses)) j
                  = nth_error analyses j).
  { intros j Hj. now rewrite !nth_error_update_nth_other. }
  destruct a as [aid atitle [md ms evs g sr pp sc ot]]; cbn.
  destruct evs as [evs|]; cbn.
  - split; [reflexivity|]. split; [reflexivity|]. split.
    + intros evs0 [= <-]. eexists. split; [reflexivity|].
      split; [|split].
      * intros ev. rewrite filter_In. rewrite negb_true_iff. reflexivity.
      * apply filter_split_length.
      * apply filter_none_removed.
    + split; [exact Heq|]. repeat split; try reflexivity. exact Hrest.
  - split; [reflexivity|]. split; [reflexivity|]. split.
    + intros evs0 [=].
    + split; [exact Heq|]. repeat split; try reflexivity. exact Hrest.
Qed.

Lemma mission_delete_cascade_witness :
  nth_error [Samples.analysis1] 0 = Some Samples.analysis1 /\
  exists a' : Model.Analysis,
    nth_error (fst (Model.mission_delete_click 0 0 Samples.m1 [Samples.analysis1])) 0
    = Some a' /\
    Model.missions (Model.data a') = [Samples.m2] /\
    Model.events (Model.data a') = Some [Samples.e2].
Proof.
  split; [reflexivity|].
  destruct (mission_delete_cascade 0 0 Samples.m1 [Samples.analysis1]
              Samples.analysis1 eq_refl)
    as (a' & Hnth & Hm & He & _).
  exists a'. split; [exact Hnth|]. split.
  - rewrite Hm. reflexivity.
  - rewrite He. reflexivity.
Defined.

(** *** The network of missions and supports *)

Lemma same_value_zero_eq (a b : value) : same_value_zero a b = true <-> a = b.
Proof.
  split.
  - destruct a as [| |x|[|x]|x], b as [| |y|[|y]|y]; simpl; try discriminate;
      try reflexivity.
    + intros H. apply Bool.eqb_prop in H. congruence.
    + intros H. apply Z.eqb_eq in H. congruence.
    + intros H. apply str_eqb_eq in H. congruence.
  - intros <-. destruct a as [| |x|[|x]|x]; simpl; try reflexivity.
    + apply Bool.eqb_reflx.
    + apply Z.eqb_refl.
    + now apply str_eqb_eq.
Qed.

Section MapFacts.
Context {K V : Type} (eqb : K -> K -> bool).
Hypothesis eqb_eq : forall a b, eqb a b = true <-> a = b.

Lemma eqb_neq (a b : K) : a <> b -> eqb a b = false.
Proof.
  intros Hab. destruct (eqb a b) eqn:E; [|reflexivity].
  apply eqb_eq in E. contradiction.
Qed.

Lemma eqb_refl_true (a : K) : eqb a a = true.
Proof. now apply eqb_eq. Qed.

Lemma map_get_set_same (k : K) (v : V) (m : list (K * V)) :
  Model.map_get eqb k (Model.map_set eqb k v m) = Some v.
Proof.
  induction m as [|[k' v'] m IH]; simpl.
  - now rewrite eqb_refl_true.
  - destruct (eqb k' k) eqn:E; simpl; rewrite E; [reflexivity|exact IH].
Qed.

Lemma map_get_set_other (k k' : K) (v : V) (m : list (K * V)) :
  k <> k' ->
  Model.map_get eqb k' (Model.map_set eqb k v m) = Model.map_get eqb k' m.
Proof.
  intros Hk. induction m as [|[k0 v0] m IH]; simpl.
  - now rewrite eqb_neq.
  - destruct (eqb k0 k) eqn:E; simpl.
    + apply eqb_eq in E. subst k0. now rewrite eqb_neq.
    + destruct (eqb k0 k'); [reflexivity|exact IH].
Qed.

End MapFacts.

Lemma max_from_app (c : Z) (l1 l2 : list Z) :
  Model.max_from c (l1 ++ l2) = Model.max_from (Model.max_from c l1) l2.
Proof. unfold Model.max_from. apply fold_left_app. Qed.

Lemma max_from_spec (l : list Z) (c : Z) :
  c <= Model.max_from c l /\
  (forall x, In x l -> x <= Model.max_from c l) /\
  (Model.max_from c l = c \/ In (Model.max_from c l) l).
Proof.
  revert c. induction l as [|y l IH]; intros c; cbn.
  - repeat split; [lia|contradiction|now left].
  - destruct (IH (Z.max c y)) as (H1 & H2 & H3).
    change (fold_left Z.max l (Z.max c y)) with (Model.max_from (Z.max c y) l).
    repeat split.
    + lia.
    + intros x [<-|Hx]; [lia|auto].
    + destruct H3 as [H3|H3]; [|now right; right].
      rewrite H3. destruct (Z.max_spec c y) as [[_ ->]|[_ ->]]; [right; now left|now left].
Qed.

Lemma seen_some (c : Z) (l : list Z) :
  Model.seen (Some c) l = Some (Model.max_from c l).
Proof.
  revert c. induction l as [|x l IH]; intros c; cbn; [reflexivity|]. apply IH.
Qed.

Lemma impact_step_get (m : list (value * Z)) (ev : Model.Event) (k : value) :
  Model.map_get same_value_zero k (Model.impact_step m ev)
  = if same_value_zero (Model.missionId ev) k
    then Some (match Model.map_get same_value_zero k m with
               | None => Model.impact_of ev
               | Some c => Z.max c (Model.impact_of ev)
               end)
    else Model.map_get same_value_zero k m.
Proof.
  unfold Model.impact_step.
  destruct (same_value_zero (Model.missionId ev) k) eqn:E.
  - apply same_value_zero_eq in E. rewrite E.
    destruct (Model.map_get same_value_zero k m) as [c|] eqn:G.
    + destruct (Z.ltb_spec c (Model.impact_of ev)).
      * rewrite (map_get_set_same _ same_value_zero_eq). f_equal. lia.
      * rewrite G. f_equal. lia.
    + now rewrite (map_get_set_same _ same_value_zero_eq).
  - assert (Hne : Model.missionId ev <> k).
    { intros Heq. apply same_value_zero_eq in Heq. congruence. }
    destruct (Model.map_get same_value_zero (Model.missionId ev) m) as [c|].
    + destruct (c <? Model.impact_of ev); [|reflexivity].
      now apply (map_get_set_other _ same_value_zero_eq).
    + now apply (map_get_set_other _ same_value_zero_eq).
Qed.

Lemma impact_fold_get (evs : list Model.Event) (m : list (value * Z)) (k : value) :
  Model.map_get same_value_zero k (fold_left Model.impact_step evs m)
  = Model.seen (Model.map_get same_value_zero k m) (Model.impacts_of_mission evs k).
Proof.
  revert m. induction evs as [|ev evs IH]; intros m; [reflexivity|].
  cbn [fold_left]. rewrite IH, impact_step_get.
  unfold Model.impacts_of_mission. cbn [filter].
  destruct (same_value_zero (Model.missionId ev) k); reflexivity.
Qed.

Lemma mission_impact_correct (evs : list Model.Event) (mid : value) :
  Model.mission_impact (Model.impactByMission evs) mid = Model.missionImpact evs mid.
Proof.
  unfold Model.mission_impact, Model.impactByMission, Model.missionImpact.
  rewrite impact_fold_get. cbn [Model.map_get].
  destruct (Model.impacts_of_mission evs mid) as [|x l]; [reflexivity|].
  cbn [Model.seen fold_left]. change (fold_left _ l (Some x)) with (Model.seen (Some x) l).
  rewrite seen_some. destruct (Z.eqb_spec (Model.max_from x l) 0); congruence.
Qed.

Lemma tally_some (st : Model.Stat) (l : list Z) :
  Model.tally (Some st) l
  = Some {| Model.degree := Model.degree st + Z.of_nat (List.length l);
            Model.maxImpact := Model.max_from (Model.maxImpact st) l |}.
Proof.
  revert st. induction l as [|x l IH]; intros [d mx]; cbn [Model.tally fold_left].
  - cbn. f_equal. f_equal. lia.
  - change (fold_left _ l ?o) with (Model.tally o l). rewrite IH.
    cbn [Model.degree Model.maxImpact List.length Model.max_from fold_left].
    f_equal. f_equal. lia.
Qed.

Lemma tally_none (l : list Z) :
  Model.tally None l
  = match l with
    | [] => None
    | _ :: _ => Some {| Model.degree := Z.of_nat (List.length l);
                        Model.maxImpact := Model.max_from 0 l |}
    end.
Proof.
  destruct l as [|x l]; [reflexivity|].
  cbn [Model.tally fold_left]. change (fold_left _ l ?o) with (Model.tally o l).
  rewrite tally_some.
  cbn [Model.degree Model.maxImpact List.length Model.max_from fold_left].
  f_equal. f_equal. lia.
Qed.

Lemma tally_app (o : option Model.Stat) (l1 l2 : list Z) :
  Model.tally o (l1 ++ l2) = Model.tally (Model.tally o l1) l2.
Proof. unfold Model.tally. apply fold_left_app. Qed.

Lemma support_step_get (mImp : Z) (stats : list (jsstring * Model.Stat))
  (s : Model.Support) (nm : jsstring) :
  nm <> [] ->
  Model.map_get str_eqb nm (Model.support_step mImp stats s)
  = if str_eqb (trim (Model.name s)) nm
    then Model.tally (Model.map_get str_eqb nm stats) [mImp]
    else Model.map_get str_eqb nm stats.
Proof.
  intros Hnm. unfold Model.support_step.
  destruct (trim (Model.name s)) as [|c r] eqn:T.
  - destruct nm; [contradiction|reflexivity].
  - destruct (str_eqb (c :: r) nm) eqn:E.
    + apply str_eqb_eq in E. rewrite <- E.
      rewrite (map_get_set_same _ str_eqb_eq). cbn [Model.tally fold_left].
      f_equal. f_equal.
      destruct (Z.ltb_spec (Model.maxImpact
        match Model.map_get str_eqb (c :: r) stats with
        | Some st => st
        | None => {| Model.degree := 0; Model.maxImpact := 0 |}
        end) mImp); lia.
    + apply (map_get_set_other _ str_eqb_eq).
      intros Heq. apply str_eqb_eq in Heq. congruence.
Qed.

Lemma support_fold_get (mImp : Z) (sups : list Model.Support)
  (stats : list (jsstring * Model.Stat)) (nm : jsstring) :
  nm <> [] ->
  Model.map_get str_eqb nm (fold_left (Model.support_step mImp) sups stats)
  = Model.tally (Model.map_get str_eqb nm stats)
      (map (fun _ => mImp)
           (filter (fun s => str_eqb (trim (Model.name s)) nm) sups)).
Proof.
  intros Hnm. revert stats. induction sups as [|s sups IH]; intros stats;
    [reflexivity|].
  cbn [fold_left filter]. rewrite IH, support_step_get by assumption.
  destruct (str_eqb (trim (Model.name s)) nm); reflexivity.
Qed.

Lemma stats_fold_get (ibm : list (value * Z)) (ms : list Model.Mission)
  (stats : list (jsstring * Model.Stat)) (nm : jsstring) :
  nm <> [] ->
  Model.map_get str_eqb nm (fold_left (Model.stats_step ibm) ms stats)
  = Model.tally (Model.map_get str_eqb nm stats) (Model.link_impacts ibm nm ms).
Proof.
  intros Hnm. revert stats. induction ms as [|m ms IH]; intros stats;
    [reflexivity|].
  cbn [fold_left]. rewrite IH. unfold Model.stats_step at 1.
  rewrite support_fold_get by assumption.
  unfold Model.link_impacts. cbn [flat_map]. now rewrite tally_app.
Qed.

Lemma link_impacts_length (ibm : list (value * Z)) (nm : jsstring)
  (ms : list Model.Mission) :
  Z.of_nat (List.length (Model.link_impacts ibm nm ms)) = Model.link_count nm ms.
Proof.
  unfold Model.link_count, Model.link_impacts. f_equal.
  induction ms as [|m ms IH]; [reflexivity|].
  cbn [flat_map]. rewrite !length_app, length_map. now rewrite IH.
Qed.

Lemma max_from_const {A : Type} (c x : Z) (l : list A) :
  l <> [] -> Model.max_from c (map (fun _ => x) l) = Z.max c x.
Proof.
  intros Hl. destruct l as [|a l]; [contradiction|clear Hl].
  revert c. induction l as [|b l IH]; intros c; [reflexivity|].
  change (Model.max_from c (map (fun _ => x) (a :: b :: l)))
    with (Model.max_from (Z.max c x) (map (fun _ => x) (a :: l))).
  rewrite IH. lia.
Qed.

Lemma link_impacts_max (ibm : list (value * Z)) (nm : jsstring)
  (ms : list Model.Mission) (c : Z) :
  Model.max_from c (Model.link_impacts ibm nm ms)
  = Model.max_from c
      (map (fun m => Model.mission_impact ibm (Model.m_id m)) (Model.referencing nm ms)).
Proof.
  revert c. induction ms as [|m ms IH]; intros c; [reflexivity|].
  unfold Model.link_impacts, Model.referencing. cbn [flat_map filter].
  rewrite max_from_app.
  fold (Model.link_impacts ibm nm ms). fold (Model.referencing nm ms).
  destruct (Model.links_to nm m) as [|s l] eqn:L.
  - cbn [List.length Nat.eqb negb map]. apply IH.
  - cbn [List.length Nat.eqb negb]. rewrite max_from_const by discriminate.
    rewrite IH. reflexivity.
Qed.

Lemma single_links_count (nm : jsstring) (ms : list Model.Mission) :
  (forall m, In m ms -> (List.length (Model.links_to nm m) <= 1)%nat) ->
  Model.link_count nm ms = Model.mission_count nm ms.
Proof.
  unfold Model.link_count, Model.mission_count. intros H. f_equal.
  induction ms as [|m ms IH]; [reflexivity|].
  unfold Model.referencing. cbn [flat_map filter]. fold (Model.referencing nm ms).
  rewrite length_app, IH by (intros m' Hm'; apply H; now right).
  specialize (H m (or_introl eq_refl)).
  destruct (Model.links_to nm m) as [|s [|s' l]]; cbn in *; [reflexivity|reflexivity|lia].
Qed.

Lemma missionImpact_is_max (evs : list Model.Event) (mid : value) :
  let imps := Model.impacts_of_mission evs mid in
  (imps = [] -> Model.missionImpact evs mid = 0) /\
  (imps <> [] ->
   In (Model.missionImpact evs mid) imps /\
   forall x, In x imps -> x <= Model.missionImpact evs mid).
Proof.
  intros imps. unfold Model.missionImpact. fold imps.
  destruct imps as [|x l]; split; try reflexivity; try discriminate;
    try contradiction.
  intros _. destruct (max_from_spec l x) as (H1 & H2 & H3). split.
  - destruct H3 as [-> | H3]; [now left|now right].
  - intros y [<-|Hy]; [assumption|auto].
Qed.

(** C9, as the code has it.  The impact of a mission node is the maximum
    impact over the events whose [missionId] is the id of the mission, and 0
    when it has none.  For a support name, [supportStats] has an entry
    exactly when a link reaches the name; its degree is the number of links
    (support entries of the missions that carry the name), which is the
    number of missions referencing the support when no mission lists it
    twice; its maxImpact is the maximum of 0 and of the impacts of the
    missions referencing it.  With the mission M1, its event E1 of impact 3
    and its support S1, the impact of M1 is 3 and the maxImpact of S1
    is 3. *)
Theorem support_stats_of_network
  (ms : list Model.Mission) (evs : list Model.Event) (nm : jsstring) :
  nm <> [] ->
  let stats := Model.supportStats ms evs in
  (forall mid : value,
      Model.mission_impact (Model.impactByMission evs) mid = Model.missionImpact evs mid /\
      (Model.impacts_of_mission evs mid = [] -> Model.missionImpact evs mid = 0) /\
      (Model.impacts_of_mission evs mid <> [] ->
       In (Model.missionImpact evs mid) (Model.impacts_of_mission evs mid) /\
       forall x, In x (Model.impacts_of_mission evs mid) ->
                 x <= Model.missionImpact evs mid)) /\
  (Model.link_count nm ms = 0 -> Model.map_get str_eqb nm stats = None) /\
  (Model.link_count nm ms <> 0 ->
   exists st : Model.Stat,
     Model.map_get str_eqb nm stats = Some st /\
     Model.degree st = Model.link_count nm ms /\
     Model.maxImpact st
     = Model.max_from 0
         (map (fun m => Model.missionImpact evs (Model.m_id m))
              (Model.referencing nm ms)) /\
     0 <= Model.maxImpact st /\
     (forall m, In m (Model.referencing nm ms) ->
                Model.missionImpact evs (Model.m_id m) <= Model.maxImpact st) /\
     (Model.maxImpact st = 0 \/
      exists m, In m (Model.referencing nm ms) /\
                Model.maxImpact st = Model.missionImpact evs (Model.m_id m))) /\
  ((forall m, In m ms -> (List.length (Model.links_to nm m) <= 1)%nat) ->
   Model.link_count nm ms = Model.mission_count nm ms) /\
  (Model.missionImpact [Samples.e1] (Model.m_id Samples.m1) = 3 /\
   Model.map_get str_eqb (lit "S1") (Model.supportStats [Samples.m1] [Samples.e1])
   = Some {| Model.degree := 1; Model.maxImpact := 3 |}).
Proof.
  intros Hnm stats.
  assert (Hget : Model.map_get str_eqb nm stats
                 = Model.tally None (Model.link_impacts (Model.impactByMission evs) nm ms)).
  { unfold stats, Model.supportStats. now rewrite stats_fold_get. }
  pose proof (link_impacts_length (Model.impactByMission evs) nm ms) as Hlen.
  split.
  { intros mid. split; [apply mission_impact_correct|apply missionImpact_is_max]. }
  split.
  { intros H0. rewrite Hget, tally_none.
    destruct (Model.link_impacts (Model.impactByMission evs) nm ms); [reflexivity|].
    rewrite <- Hlen in H0. cbn [List.length] in H0. lia. }
  split.
  { intros Hn0. rewrite Hget, tally_none.
    destruct (Model.link_impacts (Model.impactByMission evs) nm ms) as [|x l] eqn:L.
    { rewrite <- Hlen in Hn0. cbn in Hn0. lia. }
    rewrite <- L in *. eexists. split; [reflexivity|].
    cbn [Model.degree Model.maxImpact].
    assert (Hmax : Model.max_from 0 (Model.link_impacts (Model.impactByMission evs) nm ms)
                   = Model.max_from 0
                       (map (fun m => Model.missionImpact evs (Model.m_id m))
                            (Model.referencing nm ms))).
    { rewrite link_impacts_max. f_equal. apply map_ext. intros m.
      apply mission_impact_correct. }
    rewrite Hmax.
    destruct (max_from_spec
                (map (fun m => Model.missionImpact evs (Model.m_id m))
                     (Model.referencing nm ms)) 0) as (H1 & H2 & H3).
    split; [assumption|]. split; [reflexivity|]. split; [assumption|]. split.
    - intros m Hm. apply H2. apply in_map_iff. now exists m.
    - destruct H3 as [H3|H3]; [now left|right].
      apply in_map_iff in H3 as (m & Heq & Hm). exists m. split; congruence. }
  split; [apply single_links_count|].
  split; reflexivity.
Qed.

Lemma support_stats_of_network_witness :
  lit "S1" <> [] /\
  exists st : Model.Stat,
    Model.map_get str_eqb (lit "S1")
      (Model.supportStats [Samples.m1; Samples.m2] [Samples.e1; Samples.e2]) = Some st /\
    Model.degree st = 1 /\ Model.maxImpact st = 3.
Proof.
  split; [discriminate|].
  destruct (support_stats_of_network [Samples.m1; Samples.m2]
              [Samples.e1; Samples.e2] (lit "S1"))
    as (_ & _ & Hst & _); [discriminate|].
  destruct Hst as (st & Hget & Hdeg & Hmax & _); [discriminate|].
  exists st. split; [exact Hget|]. split.
  - rewrite Hdeg. reflexivity.
  - rewrite Hmax. reflexivity.
Defined.

(** C9 as stated fails on the degree: a mission that lists the support "S1"
    twice gives it the degree 2, while one mission references it. *)
Lemma degree_counts_links_not_missions :
  exists st : Model.Stat,
    Model.map_get str_eqb (lit "S1") (Model.supportStats [Samples.m_twice] []) = Some st /\
    Model.degree st = 2 /\
    Model.mission_count (lit "S1") [Samples.m_twice] = 1 /\
    Model.degree st <> Model.mission_count (lit "S1") [Samples.m_twice].
Proof.
  eexists. split; [reflexivity|]. repeat split. discriminate.
Qed.

(** The node lists of the drawing carry these values. *)
Lemma graph_nodes_carry_stats (d : Model.AnalysisData) :
  map Model.mn_impact (Model.missionNodes d)
  = map (fun m => Model.missionImpact (Model.events_or_empty d) (Model.m_id m))
        (Model.missions d) /\
  map (fun n => (Model.sn_id n,
                 {| Model.degree := Model.sn_degree n;
                    Model.maxImpact := Model.sn_maxImpact n |}))
      (Model.supportNodes d)
  = Model.supportStats (Model.missions d) (Model.events_or_empty d).
Proof.
  split.
  - unfold Model.missionNodes. rewrite map_map. apply map_ext. intros m.
    apply mission_impact_correct.
  - unfold Model.supportNodes. rewrite map_map.
    fold (Model.events_or_empty d).
    induction (Model.supportStats (Model.missions d) (Model.events_or_empty d))
      as [|[nm [dg mx]] l IH]; [reflexivity|].
    cbn. f_equal. exact IH.
Qed.

(** *** Candidates of the GAP action import *)

Lemma gap_fold_items (rnd : nat -> jsstring) (l : list Model.GapRequirement)
  (st : Model.GapLoop) :
  let r := fold_left (Model.gap_step rnd) l st in
  let kept := filter (fun q => negb (Model.is_applied q)) l in
  map Model.extra (Model.items r)
  = map Model.extra (Model.items st) ++ map Model.application kept /\
  map Model.desc (Model.items r)
  = map Model.desc (Model.items st) ++ map Model.g_description kept /\
  map Model.application (Model.visited r)
  = map Model.application (Model.visited st) ++ map Model.application l.
Proof.
  revert st. induction l as [|q l IH]; intros st.
  - cbn. now rewrite !app_nil_r.
  - cbn [fold_left filter]. specialize (IH (Model.gap_step rnd st q)).
    cbn zeta in IH. destruct IH as (IH1 & IH2 & IH3).
    rewrite IH1, IH2, IH3. unfold Model.gap_step.
    destruct (Model.is_applied q); cbn [negb].
    + cbn [Model.items Model.visited]. rewrite map_app, <- app_assoc. auto.
    + destruct (Model.g_id q) as [[|c i]|];
        cbn [Model.items Model.visited Model.application];
        rewrite !map_app, <- !app_assoc; auto.
Qed.

Lemma startsWith_prefix (p s : jsstring) :
  startsWith p s = true <-> exists rest, s = p ++ rest.
Proof.
  revert s. induction p as [|x p IH]; intros s; simpl.
  - split; [intros _; now exists s|reflexivity].
  - destruct s as [|y s].
    + split; [discriminate|]. intros [rest H]. discriminate.
    + rewrite andb_true_iff, N.eqb_eq, IH. split.
      * intros [-> [rest ->]]. now exists rest.
      * intros [rest [= -> ->]]. split; [reflexivity|now exists rest].
Qed.

Lemma in_repertoire_cases (c : N) :
  Text.in_repertoire c = true ->
  In c (map N.of_nat (seq 0 256)) \/ In c (map N.of_nat (seq 688 192)).
Proof.
  unfold Text.in_repertoire.
  rewrite !orb_true_iff, !andb_true_iff, N.ltb_lt, !N.leb_le.
  intros H.
  assert (Hc : c = N.of_nat (N.to_nat c)) by now rewrite N2Nat.id.
  destruct H as [[[H|[H1 H2]]|[H1 H2]]|[H1 H2]]; [left|right|right|right];
    rewrite Hc; apply in_map, in_seq; lia.
Qed.

(** On a code unit of the repertoire, the four steps of the code leave what
    the design names. *)
Lemma bare_code_unit (c : N) :
  Text.in_repertoire c = true ->
  Text.strip_spaces (Text.strip_diacritics (Text.decompose (Text.lower_cu c)))
  = Text.bare c.
Proof.
  intros H.
  assert (Hall : forallb
            (fun c => str_eqb
               (Text.strip_spaces (Text.strip_diacritics (Text.decompose (Text.lower_cu c))))
               (Text.bare c))
            (map N.of_nat (seq 0 256) ++ map N.of_nat (seq 688 192)) = true)
    by (vm_compute; reflexivity).
  rewrite forallb_forall in Hall.
  apply str_eqb_eq, Hall, in_or_app, in_repertoire_cases, H.
Qed.

Lemma skeleton_of_modelled (s : jsstring) :
  Text.modelled s = true ->
  Text.strip_spaces (Text.strip_diacritics (Text.normalizeNFD (Text.toLowerCase s)))
  = Text.skeleton s.
Proof.
  unfold Text.modelled, Text.normalizeNFD, Text.toLowerCase, Text.skeleton.
  induction s as [|c s IH]; [reflexivity|].
  cbn [forallb map flat_map]. rewrite andb_true_iff. intros [Hc Hs].
  unfold Text.strip_spaces, Text.strip_diacritics in *.
  rewrite !filter_app, IH by exact Hs. f_equal.
  now apply bare_code_unit.
Qed.

(** C6. For requirements whose application is written in Basic Latin, the
    Latin-1 Supplement and the combining marks, the candidates of the GAP
    action import are, in the order of the table, the requirements whose
    application, lower-cased, stripped of its diacritics and of its white
    space, does not begin with "applique".  What the code computes for the
    test is that normalised text: the small letters without their accents,
    white space and accents left out.  A requirement marked "Appliqué" is
    left out, also when it is written with another accent, a space or in
    capitals, and requirements marked "Partiellement appliqué",
    "Non appliqué" and "Non applicable" are listed. *)
Theorem gap_candidates_exclude_applied
  (rnd : nat -> jsstring) (n : nat) (g : option (list Model.GapRequirement)) :
  let reqs := match g with Some l => l | None => [] end in
  (forall q, In q reqs -> Text.modelled (Model.application q) = true) ->
  let r := Model.gap_candidates rnd n g in
  let kept := filter (fun q => negb (Model.is_applied q)) reqs in
  map Model.extra (Model.items r) = map Model.application kept /\
  map Model.desc (Model.items r) = map Model.g_description kept /\
  List.length (Model.items r) = List.length kept /\
  map Model.application (Model.visited r) = map Model.application reqs /\
  (forall q, In q kept <->
     In q reqs /\
     startsWith (lit "applique")
       (Text.strip_spaces
          (Text.strip_diacritics
             (Text.normalizeNFD (Text.toLowerCase (Model.application q))))) = false) /\
  (forall q, In q reqs ->
     Model.application_prefix q = Text.skeleton (Model.application q)) /\
  (forall q, In q kept <->
     In q reqs /\
     ~ exists rest, Text.skeleton (Model.application q) = lit "applique" ++ rest) /\
  (forall q, Model.is_applied q = true <->
             exists rest, Model.application_prefix q = lit "applique" ++ rest) /\
  Model.is_applied (Samples.requirement (lit "MFA") Samples.applique) = true /\
  Model.is_applied (Samples.requirement (lit "MFA") Samples.applique_accented) = true /\
  Model.is_applied (Samples.requirement (lit "MFA") Samples.applique_spaced) = true /\
  Model.is_applied (Samples.requirement (lit "MFA") Samples.applique_capitals) = true /\
  Model.is_applied (Samples.requirement (lit "MFA") Samples.partiellement_applique) = false /\
  Model.is_applied (Samples.requirement (lit "MFA") Samples.non_applique) = false /\
  Model.is_applied (Samples.requirement (lit "MFA") Samples.non_applicable) = false /\
  map Model.extra (Model.items (Model.gap_candidates rnd n (Some Samples.gap_table)))
  = [Samples.partiellement_applique; Samples.non_applique; Samples.non_applicable].
Proof.
  intros reqs Hrep r kept.
  destruct (gap_fold_items rnd reqs
              {| Model.uid_calls := n; Model.visited := []; Model.items := [] |})
    as (H1 & H2 & H3).
  cbn zeta in H1, H2, H3. cbn [Model.items Model.visited map app] in H1, H2, H3.
  fold kept in H1, H2.
  change (fold_left (Model.gap_step rnd) reqs
            {| Model.uid_calls := n; Model.visited := []; Model.items := [] |})
    with r in H1, H2, H3.
  assert (Hskel : forall q, In q reqs ->
            Model.application_prefix q = Text.skeleton (Model.application q)).
  { intros q Hq. unfold Model.application_prefix. cbv zeta.
    apply skeleton_of_modelled, Hrep, Hq. }
  split; [exact H1|]. split; [exact H2|].
  split.
  { rewrite <- (length_map Model.extra), H1. apply length_map. }
  split; [exact H3|].
  split.
  { intros q. unfold kept. rewrite filter_In, negb_true_iff. reflexivity. }
  split; [exact Hskel|].
  split.
  { intros q. unfold kept. rewrite filter_In, negb_true_iff. split.
    - intros [Hq Hna]. split; [exact Hq|]. intros Hex.
      rewrite <- (Hskel q Hq) in Hex. apply startsWith_prefix in Hex.
      unfold Model.is_applied in Hna. congruence.
    - intros [Hq Hne]. split; [exact Hq|].
      apply not_true_is_false. intros Ha. apply Hne.
      rewrite <- (Hskel q Hq). apply startsWith_prefix. exact Ha. }
  split; [intros q; apply startsWith_prefix|].
  repeat split.
Qed.

Lemma gap_candidates_exclude_applied_witness :
  map Model.extra
    (Model.items (Model.gap_candidates (fun _ => lit "a") 0 (Some Samples.gap_table)))
  = [Samples.partiellement_applique; Samples.non_applique; Samples.non_applicable] /\
  Model.application_prefix (Samples.requirement (lit "MFA") Samples.applique)
  = lit "applique".
Proof.
  destruct (gap_candidates_exclude_applied (fun _ => lit "a") 0 (Some Samples.gap_table))
    as (H1 & _ & _ & _ & _ & Hskel & _).
  { intros q Hq. cbn in Hq.
    destruct Hq as [<- | [<- | [<- | [<- | []]]]]; reflexivity. }
  split.
  - rewrite H1. reflexivity.
  - rewrite Hskel by (left; reflexivity). reflexivity.
Defined.

(** *** Risks added through the selection modal *)

Lemma scenario_at_push_risk (an : Model.Analyses) (cur k : nat) (nm : jsstring) :
  Model.scenario_at (Model.push_risk (cur, k) nm an) cur k
  = option_map (Model.push_risk_on nm) (Model.scenario_at an cur k).
Proof.
  unfold Model.scenario_at, Model.push_risk. cbn [fst snd].
  rewrite nth_error_update_nth_same.
  destruct (nth_error an cur) as [a|]; [|reflexivity].
  cbn [option_map Model.on_data Model.data Model.set_so Model.so].
  apply nth_error_update_nth_same.
Qed.

Lemma scenario_at_push_risks (names : list jsstring) (an : Model.Analyses)
  (cur k : nat) :
  Model.scenario_at (fold_left (fun a nm => Model.push_risk (cur, k) nm a) names an) cur k
  = option_map (fun sc => fold_left (fun sc nm => Model.push_risk_on nm sc) names sc)
      (Model.scenario_at an cur k).
Proof.
  revert an. induction names as [|nm names IH]; intros an; cbn [fold_left].
  - destruct (Model.scenario_at an cur k); reflexivity.
  - rewrite IH, scenario_at_push_risk.
    destruct (Model.scenario_at an cur k); reflexivity.
Qed.

Lemma push_risks_on (names : list jsstring) (sc : Model.Scenario) :
  let sc' := fold_left (fun sc nm => Model.push_risk_on nm sc) names sc in
  Model.risks sc' = Model.risks sc ++ map (Model.risk_for sc) names /\
  Model.vraisemblance sc' = Model.vraisemblance sc /\
  Model.gravite sc' = Model.gravite sc.
Proof.
  revert sc. induction names as [|nm names IH]; intros sc; cbn [fold_left map].
  - now rewrite app_nil_r.
  - specialize (IH (Model.push_risk_on nm sc)). cbn zeta in IH.
    destruct IH as (H1 & H2 & H3). rewrite H1, H2, H3.
    cbn [Model.push_risk_on Model.risks Model.vraisemblance Model.gravite].
    rewrite <- app_assoc. repeat split.
Qed.

(** C10. While the modal is open on a scenario, a risk entered by hand and
    the risks of the selection that is applied are appended to the risks of
    that scenario with the vraisemblance and the gravite the scenario has at
    that moment; the scenario keeps its own levels and its earlier risks.
    Picking an entry of the library list only changes the selection: the
    store is left as it was until the selection is applied. *)
Theorem risks_take_scenario_levels
  (ui : Model.Ui) (cur k : nat) (sc : Model.Scenario) :
  Model.riskModalTarget ui = Some (cur, k) ->
  Model.scenario_at (Model.ui_analyses ui) cur k = Some sc ->
  (forall nm : jsstring,
      let r := Model.addRiskToScenario nm ui in
      exists sc',
        Model.scenario_at (Model.ui_analyses (fst r)) cur k = Some sc' /\
        Model.risks sc' = Model.risks sc ++ [Model.risk_for sc nm] /\
        Model.vraisemblance sc' = Model.vraisemblance sc /\
        Model.gravite sc' = Model.gravite sc /\
        snd r = [Save (Model.ui_analyses (fst r)); Redraw "renderSO"]) /\
  (forall input : jsstring,
      trim input <> [] ->
      Model.manual_click input ui = Model.addRiskToScenario (trim input) ui) /\
  (forall input : jsstring,
      trim input = [] -> Model.manual_click input ui = (ui, [])) /\
  (Model.selectedRiskNames ui <> [] ->
   let r := Model.apply_click ui in
   exists sc',
     Model.scenario_at (Model.ui_analyses (fst r)) cur k = Some sc' /\
     Model.risks sc'
     = Model.risks sc ++ map (Model.risk_for sc) (Model.selectedRiskNames ui) /\
     Model.vraisemblance sc' = Model.vraisemblance sc /\
     Model.gravite sc' = Model.gravite sc /\
     snd r = [Save (Model.ui_analyses (fst r)); Redraw "renderSO"]) /\
  (forall nm : jsstring,
      let r := Model.li_click nm ui in
      Model.ui_analyses (fst r) = Model.ui_analyses ui /\
      Model.riskModalTarget (fst r) = Model.riskModalTarget ui /\
      (existsb (fun x => str_eqb x nm) (Model.selectedRiskNames ui) = false ->
       Model.selectedRiskNames (fst r) = Model.selectedRiskNames ui ++ [nm])) /\
  (forall nm : jsstring,
      Model.risk_vraisemblance (Model.risk_for sc nm) = Model.vraisemblance sc /\
      Model.risk_gravite (Model.risk_for sc nm) = Model.gravite sc /\
      Model.risk_name (Model.risk_for sc nm) = nm).
Proof.
  intros Ht Hsc. split.
  { intros nm r. unfold r, Model.addRiskToScenario. rewrite Ht. cbn [fst snd].
    cbn [Model.closeRiskModal Model.with_analyses Model.ui_analyses].
    rewrite scenario_at_push_risk, Hsc. cbn [option_map].
    eexists. split; [reflexivity|]. repeat split. }
  split.
  { intros input Hin. unfold Model.manual_click.
    destruct (trim input); [contradiction|reflexivity]. }
  split.
  { intros input Hin. unfold Model.manual_click. now rewrite Hin. }
  split.
  { intros Hsel r. unfold r, Model.apply_click. rewrite Ht.
    destruct (Model.selectedRiskNames ui) as [|n0 names] eqn:S; [contradiction|].
    cbn [fst snd Model.closeRiskModal Model.with_analyses Model.ui_analyses].
    rewrite scenario_at_push_risks, Hsc. cbn [option_map].
    eexists. split; [reflexivity|].
    destruct (push_risks_on (n0 :: names) sc) as (H1 & H2 & H3).
    cbn zeta in H1, H2, H3. rewrite H1, H2, H3. repeat split. }
  split.
  { intros nm r. unfold r, Model.li_click. cbn [fst Model.ui_analyses
      Model.riskModalTarget Model.selectedRiskNames].
    repeat split. intros ->. reflexivity. }
  intros nm. repeat split.
Qed.

Lemma risks_take_scenario_levels_witness :
  Model.riskModalTarget Samples.ui_open = Some (0%nat, 0%nat) /\
  Model.scenario_at (Model.ui_analyses Samples.ui_open) 0 0 = Some Samples.scenario1 /\
  exists sc',
    Model.scenario_at
      (Model.ui_analyses (fst (Model.apply_click Samples.ui_open))) 0 0 = Some sc' /\
    Model.risks sc'
    = [ {| Model.risk_name := lit "T1566 Phishing";
           Model.risk_vraisemblance := VNum (Int 3);
           Model.risk_gravite := VNum (Int 2) |};
        {| Model.risk_name := lit "T1078 Valid Accounts";
           Model.risk_vraisemblance := VNum (Int 3);
           Model.risk_gravite := VNum (Int 2) |} ].
Proof.
  split; [reflexivity|]. split; [reflexivity|].
  destruct (risks_take_scenario_levels Samples.ui_open 0 0 Samples.scenario1
              eq_refl eq_refl) as (_ & _ & _ & Happly & _).
  destruct Happly as (sc' & Hat & Hrisks & _); [discriminate|].
  exists sc'. split; [exact Hat|]. rewrite Hrisks. reflexivity.
Defined.

(** *** Import and export *)

(** C7. When the text of the file is not JSON, both importers alert the
    user (the import of analyses with "Fichier JSON invalide", the GAP import
    with "Erreur lors de la lecture du fichier", a no-break space, a colon,
    a space and the message of the parser) and leave the store as it was,
    without saving.  When the text parses to something that is not an array, the GAP
    import alerts that the file must hold an array of requirements and
    leaves the store as it was, without saving.  No part of such a document
    reaches the store. *)
Theorem malformed_import_leaves_store
  (JSON_parse : jsstring -> jsstring + json)
  (JSON_stringify : json -> Z -> jsstring)
  (rnd : nat -> jsstring) (typeErrorMessage : jsstring)
  (redrawAll redrawGap : ImportExport.Store -> ImportExport.Store * option jsstring)
  (text : jsstring) (st : ImportExport.Store) :
  (forall msg : jsstring,
      JSON_parse text = inl msg ->
      ImportExport.import_onload JSON_parse JSON_stringify redrawAll text st
      = (st, [Alert (lit "Fichier JSON invalide")]) /\
      ImportExport.gap_import_onload JSON_parse JSON_stringify rnd typeErrorMessage
        redrawGap text st
      = (st, [Alert (lit "Erreur lors de la lecture du fichier" ++ [160%N]
                     ++ lit ": " ++ msg)])) /\
  (forall doc : json,
      JSON_parse text = inr doc ->
      is_array doc = false ->
      ImportExport.gap_import_onload JSON_parse JSON_stringify rnd typeErrorMessage
        redrawGap text st
      = (st, [Alert (lit "Le fichier doit contenir un tableau d'exigences.")])).
Proof.
  split.
  - intros msg Hparse.
    unfold ImportExport.import_onload, ImportExport.gap_import_onload.
    rewrite Hparse. split; reflexivity.
  - intros doc Hparse Harr. unfold ImportExport.gap_import_onload.
    rewrite Hparse. destruct doc; try reflexivity. discriminate.
Qed.

Lemma malformed_import_leaves_store_witness :
  ImportExport.import_onload ImportExport.sample_parse ImportExport.sample_stringify
    ImportExport.sample_redraw (lit "{title:") ImportExport.sample_store
  = (ImportExport.sample_store, [Alert (lit "Fichier JSON invalide")]) /\
  ImportExport.gap_import_onload ImportExport.sample_parse
    ImportExport.sample_stringify ImportExport.sample_rnd (lit "Cannot read properties")
    ImportExport.sample_redraw (lit "{title:") ImportExport.sample_store
  = (ImportExport.sample_store,
     [Alert (lit "Erreur lors de la lecture du fichier" ++ [160%N]
             ++ lit ": Unexpected token")]) /\
  ImportExport.gap_import_onload ImportExport.sample_parse
    ImportExport.sample_stringify ImportExport.sample_rnd (lit "Cannot read properties")
    ImportExport.sample_redraw (lit "{}") ImportExport.sample_store
  = (ImportExport.sample_store,
     [Alert (lit "Le fichier doit contenir un tableau d'exigences.")]).
Proof.
  destruct (malformed_import_leaves_store ImportExport.sample_parse
              ImportExport.sample_stringify ImportExport.sample_rnd
              (lit "Cannot read properties")
              ImportExport.sample_redraw ImportExport.sample_redraw
              (lit "{title:") ImportExport.sample_store) as [Hbad _].
  destruct (Hbad (lit "Unexpected token") eq_refl) as [H1 H2].
  destruct (malformed_import_leaves_store ImportExport.sample_parse
              ImportExport.sample_stringify ImportExport.sample_rnd
              (lit "Cannot read properties")
              ImportExport.sample_redraw ImportExport.sample_redraw
              (lit "{}") ImportExport.sample_store) as [_ Hshape].
  split; [exact H1|]. split; [exact H2|].
  exact (Hshape (JObj []) eq_refl eq_refl).
Defined.

(** Outside C7: an array document whose second element is [null] throws in
    the middle of the loop; the first requirement is already in the
    in-memory store, the error is alerted and nothing is saved. *)
Example gap_import_stops_at_null_element :
  let parse := fun _ : jsstring => inr (JArr [JObj []; JNull] []) in
  let r := ImportExport.gap_import_onload parse ImportExport.sample_stringify
             ImportExport.sample_rnd (lit "Cannot read properties")
             ImportExport.sample_redraw [] ImportExport.sample_store in
  ImportExport.uid_calls (fst r) = 2%nat /\
  snd r = [Alert (lit "Erreur lors de la lecture du fichier" ++ [160%N]
                  ++ lit ": Cannot read properties")] /\
  ImportExport.analyses (fst r)
  = [JObj [(lit "data",
            JObj [(lit "gap",
                   JArr [JObj [(lit "id", JStr (lit "id-k3x9"));
                               (lit "domaine", JStr []); (lit "titre", JStr []);
                               (lit "description", JStr []);
                               (lit "application", JStr []);
                               (lit "justification", JStr [])]] [])])]].
Proof. repeat split. Qed.

Lemma at_index_app_last (l : list json) (x : json) :
  ImportExport.at_index (l ++ [x]) (Z.of_nat (List.length l)) = Some x.
Proof.
  unfold ImportExport.at_index.
  destruct (Z.ltb_spec (Z.of_nat (List.length l)) 0); [lia|].
  rewrite Nat2Z.id, nth_error_app2 by lia. now rewrite Nat.sub_diag.
Qed.

Section JsonRoundTrip.

Import JsonText.

(** **** Reading back what [stringify] wrote *)

Lemma hex_value_digit (n : N) : (n < 16)%N -> hex_value (hex_digit n) = Some n.
Proof.
  intros H.
  assert (Hall : forallb (fun n => match hex_value (hex_digit n) with
                                   | Some m => N.eqb m n | None => false end)
                   (map N.of_nat (seq 0 16)) = true) by (vm_compute; reflexivity).
  rewrite forallb_forall in Hall.
  specialize (Hall n).
  assert (Hin : In n (map N.of_nat (seq 0 16))).
  { replace n with (N.of_nat (N.to_nat n)) by apply N2Nat.id.
    apply in_map, in_seq. lia. }
  specialize (Hall Hin). destruct (hex_value (hex_digit n)); [|discriminate].
  apply N.eqb_eq in Hall. now subst.
Qed.

Lemma hex4_escape (c : N) :
  (c < 65536)%N ->
  hex4 (hex_digit (c / 4096)) (hex_digit ((c / 256) mod 16))
       (hex_digit ((c / 16) mod 16)) (hex_digit (c mod 16)) = Some c.
Proof.
  intros Hc. unfold hex4.
  rewrite !hex_value_digit;
    try (apply N.mod_lt; discriminate);
    try (apply N.Div0.div_lt_upper_bound; exact Hc).
  f_equal.
  pose proof (N.div_mod c 16 ltac:(discriminate)) as D1.
  pose proof (N.div_mod (c / 16) 16 ltac:(discriminate)) as D2.
  pose proof (N.div_mod (c / 256) 16 ltac:(discriminate)) as D3.
  assert (E1 : (c / 16 / 16 = c / 256)%N) by (rewrite N.Div0.div_div; reflexivity).
  assert (E2 : (c / 256 / 16 = c / 4096)%N) by (rewrite N.Div0.div_div; reflexivity).
  rewrite E1 in D2. rewrite E2 in D3. lia.
Qed.

Lemma read_string_escape (c : N) (s : jsstring) :
  (c < 65536)%N ->
  read_string (unicode_escape c ++ s) = cons_to c (read_string s).
Proof.
  intros Hc. unfold unicode_escape. cbn [app read_string N.eqb Pos.eqb orb].
  now rewrite hex4_escape.
Qed.

Lemma read_string_plain (c : N) (s : jsstring) :
  c <> 34%N -> c <> 92%N -> (32 <= c)%N ->
  read_string (c :: s) = cons_to c (read_string s).
Proof.
  intros H1 H2 H3. cbn [read_string].
  destruct (N.eqb_spec c 34); [contradiction|].
  destruct (N.eqb_spec c 92); [contradiction|].
  destruct (N.ltb_spec c 32); [lia|reflexivity].
Qed.

Lemma read_quote_body_bounded (n : nat) :
  forall (s rest : jsstring),
    (List.length s <= n)%nat ->
    read_string (quote_body s ++ 34%N :: rest) = Some (s, rest).
Proof.
  induction n as [|n IH]; intros s rest Hlen.
  - destruct s; [|cbn in Hlen; lia]. cbn. reflexivity.
  - destruct s as [|c r]; [cbn; reflexivity|].
    cbn [List.length] in Hlen.
    assert (Hr : read_string (quote_body r ++ 34%N :: rest) = Some (r, rest))
      by (apply IH; lia).
    cbn [quote_body].
    destruct (N.eqb_spec c 8) as [->|N8];
      [cbn [app read_string N.eqb Pos.eqb orb]; now rewrite Hr|].
    destruct (N.eqb_spec c 9) as [->|N9];
      [cbn [app read_string N.eqb Pos.eqb orb]; now rewrite Hr|].
    destruct (N.eqb_spec c 10) as [->|N10];
      [cbn [app read_string N.eqb Pos.eqb orb]; now rewrite Hr|].
    destruct (N.eqb_spec c 12) as [->|N12];
      [cbn [app read_string N.eqb Pos.eqb orb]; now rewrite Hr|].
    destruct (N.eqb_spec c 13) as [->|N13];
      [cbn [app read_string N.eqb Pos.eqb orb]; now rewrite Hr|].
    destruct (N.eqb_spec c 34) as [->|N34];
      [cbn [app read_string N.eqb Pos.eqb orb]; now rewrite Hr|].
    destruct (N.eqb_spec c 92) as [->|N92];
      [cbn [app read_string N.eqb Pos.eqb orb]; now rewrite Hr|].
    destruct (N.ltb_spec c 32) as [Lt|Ge].
    { rewrite <- app_assoc, read_string_escape by lia. now rewrite Hr. }
    unfold is_high, is_low.
    destruct (N.leb_spec 55296 c) as [Hh|Hh]; cbn [andb].
    + destruct (N.leb_spec c 56319) as [Hh2|Hh2]; cbn [andb].
      * destruct r as [|c2 r2].
        -- rewrite read_string_escape by lia. cbn. reflexivity.
        -- destruct (N.leb_spec 56320 c2) as [Hl|Hl]; cbn [andb].
           ++ destruct (N.leb_spec c2 57343) as [Hl2|Hl2]; cbn [andb].
              ** cbn [app]. rewrite !read_string_plain by lia.
                 cbn [List.length] in Hlen.
                 rewrite (IH r2 rest) by lia. reflexivity.
              ** rewrite <- app_assoc, read_string_escape by lia. now rewrite Hr.
           ++ rewrite <- app_assoc, read_string_escape by lia. now rewrite Hr.
      * destruct (N.leb_spec 56320 c) as [Hl|Hl]; cbn [andb]; [|lia].
        destruct (N.leb_spec c 57343) as [Hl2|Hl2]; cbn [andb].
        -- rewrite <- app_assoc, read_string_escape by lia. now rewrite Hr.
        -- cbn [app]. rewrite read_string_plain by lia. now rewrite Hr.
    + destruct (N.leb_spec 56320 c) as [Hl|Hl]; cbn [andb]; [lia|].
      cbn [app]. rewrite read_string_plain by lia. now rewrite Hr.
Qed.

Lemma read_quote_body (s rest : jsstring) :
  read_string (quote_body s ++ 34%N :: rest) = Some (s, rest).
Proof. now apply (read_quote_body_bounded (List.length s)). Qed.

Lemma json_induction (P : json -> Prop) :
  P JNull -> (forall b, P (JBool b)) -> (forall z, P (JNum z)) ->
  (forall s, P (JStr s)) ->
  (forall items own, Forall P items -> P (JArr items own)) ->
  (forall fields, Forall (fun kv => P (snd kv)) fields -> P (JObj fields)) ->
  forall v, P v.
Proof.
  intros Hnull Hbool Hnum Hstr Harr Hobj. fix IH 1.
  intros [ | b | z | s | items own | fields ].
  - exact Hnull.
  - apply Hbool.
  - apply Hnum.
  - apply Hstr.
  - apply Harr. induction items as [|x l IHl]; constructor; [apply IH|exact IHl].
  - apply Hobj. induction fields as [|[k x] l IHl]; constructor; [apply IH|exact IHl].
Qed.


Lemma read_digits_acc (u : Decimal.uint) :
  forall (a : positive) (rest : jsstring),
    stops rest = true ->
    read_digits (Zpos a) (digits_of u ++ rest) = (Zpos (Pos.of_uint_acc u a), rest).
Proof.
  induction u as [|u IH|u IH|u IH|u IH|u IH|u IH|u IH|u IH|u IH|u IH];
    intros a rest Hrest;
    try (cbn [digits_of app read_digits Pos.of_uint_acc Z.of_N];
         match goal with
         | |- context [isDigit ?c] => change (isDigit c) with true
         end; cbv iota;
         match goal with
         | |- read_digits ?acc _ = (Zpos (Pos.of_uint_acc _ ?q), _) =>
             replace acc with (Zpos q) by lia
         end; now apply IH).
  cbn [digits_of app Pos.of_uint_acc].
  destruct rest as [|c r]; [reflexivity|].
  cbn [read_digits]. unfold stops in Hrest.
  destruct (isDigit c); [discriminate|reflexivity].
Qed.

Lemma to_uint_head (p : positive) :
  match Pos.to_uint p with
  | Decimal.Nil | Decimal.D0 _ => False
  | _ => True
  end.
Proof.
  pose proof (DecimalPos.Unsigned.to_uint_nonnil p) as Hnil.
  pose proof (DecimalPos.Unsigned.to_uint_nonzero p) as Hzero.
  pose proof (DecimalPos.Unsigned.to_of (Pos.to_uint p)) as Hnorm.
  rewrite DecimalPos.Unsigned.of_to in Hnorm. cbn [N.to_uint] in Hnorm.
  destruct (Pos.to_uint p) as [|l| | | | | | | | | ] eqn:E; try exact I.
  - now apply Hnil.
  - rewrite DecimalFacts.unorm_D0 in Hnorm.
    destruct (Decimal.nzhead l) as [|d|d|d|d|d|d|d|d|d|d] eqn:Hl.
    1:{ apply DecimalFacts.unorm_0 in Hl. rewrite Hl in Hnorm.
        injection Hnorm as ->. now apply Hzero. }
    1:{ now apply (DecimalFacts.nzhead_nonzero l d). }
    all: rewrite DecimalFacts.unorm_nzhead in Hnorm by (rewrite Hl; discriminate);
      apply (DecimalFacts.nzhead_nonzero l l); now rewrite <- Hnorm.
Qed.

Lemma read_natural_pos (p : positive) (rest : jsstring) :
  stops rest = true ->
  read_natural (digits_of (Pos.to_uint p) ++ rest) = Some (Zpos p, rest) /\
  exists c r, digits_of (Pos.to_uint p) = c :: r /\ (49 <= c <= 57)%N.
Proof.
  intros Hrest.
  pose proof (to_uint_head p) as Hhead.
  pose proof (DecimalPos.Unsigned.of_to p) as Hval.
  destruct (Pos.to_uint p) as [|l|l|l|l|l|l|l|l|l|l]; try contradiction;
    cbn [Pos.of_uint] in Hval; injection Hval as Hval;
    (split;
     [ cbn [digits_of app read_natural read_digits]; cbn [N.eqb Pos.eqb];
       match goal with
       | |- context [isDigit ?c] => change (isDigit c) with true
       end; cbv iota;
       cbn [Z.of_N];
       match goal with
       | |- Some (read_digits ?acc _) = _ =>
           match type of Hval with
           | Pos.of_uint_acc _ ?q = _ => replace acc with (Zpos q) by lia
           end
       end; rewrite (read_digits_acc l _ rest Hrest), Hval; reflexivity
     | eexists; eexists; split; [reflexivity|lia] ]).
Qed.

Lemma read_number_text (z : Z) (rest : jsstring) :
  Z.abs z < 9007199254740992 -> stops rest = true ->
  read_number (number_text z ++ rest) = Some (JNum z, rest).
Proof.
  intros Hz Hrest.
  assert (Hcont : continues rest = false).
  { destruct rest as [|c r]; [reflexivity|]. cbn in Hrest |- *.
    apply negb_true_iff in Hrest.
    destruct (isDigit c); [discriminate|]. exact Hrest. }
  assert (Hzero : read_natural (48%N :: rest) = Some (0, rest)).
  { cbn [read_natural N.eqb Pos.eqb].
    destruct rest as [|c r]; [reflexivity|]. cbn in Hrest.
    destruct (isDigit c); [discriminate|reflexivity]. }
  destruct z as [|p|p]; unfold read_number.
  - cbn [number_text app N.eqb Pos.eqb]. rewrite Hzero, Hcont. reflexivity.
  - destruct (read_natural_pos p rest Hrest) as (Hread & c & r & Hd & Hc).
    cbn [number_text]. rewrite Hd in *. cbn [app] in *.
    destruct (N.eqb_spec c 45) as [->|Hne]; [lia|].
    rewrite Hread, Hcont.
    cbn [orb andb]. destruct (Z.leb_spec 9007199254740992 (Z.pos p)); [lia|reflexivity].
  - destruct (read_natural_pos p rest Hrest) as (Hread & _).
    cbn [number_text app N.eqb Pos.eqb]. rewrite Hread, Hcont.
    cbn [orb andb]. destruct (Z.leb_spec 9007199254740992 (Z.pos p)); [lia|].
    cbn. reflexivity.
Qed.

Lemma skip_ws_app (w s : jsstring) :
  forallb is_ws w = true -> skip_ws (w ++ s) = skip_ws s.
Proof.
  induction w as [|c w IH]; [reflexivity|]. cbn [forallb app skip_ws].
  rewrite andb_true_iff. intros [Hc Hw]. rewrite Hc. now apply IH.
Qed.

Lemma skip_ws_head (c : N) (r : jsstring) :
  is_ws c = false -> skip_ws (c :: r) = c :: r.
Proof. intros H. cbn [skip_ws]. now rewrite H. Qed.

Lemma number_text_head (z : Z) :
  exists c r, number_text z = c :: r /\ (c = 45 \/ 48 <= c <= 57)%N.
Proof.
  destruct z as [|p|p]; cbn [number_text].
  - exists 48%N, []. split; [reflexivity|lia].
  - destruct (read_natural_pos p [] eq_refl) as (_ & c & r & Hd & Hc).
    exists c, r. split; [exact Hd|lia].
  - eexists; eexists. split; [reflexivity|lia].
Qed.

(** A serialized value starts with a character that is neither white space
    nor a closing bracket. *)
Lemma serialize_head (gap indent : jsstring) (v : json) :
  exists c r, serialize gap indent v = c :: r /\ is_ws c = false /\ c <> 93%N.
Proof.
  destruct v as [ | [|] | z | s | [|x items] own | [|[k x] fields] ];
    try (eexists; eexists; split; [reflexivity|split; [reflexivity|discriminate]]).
  destruct (number_text_head z) as (c & r & Hd & Hc).
  exists c, r. cbn [serialize]. split; [exact Hd|]. split.
  - unfold is_ws. destruct Hc as [->|Hc]; [reflexivity|].
    destruct (N.eqb_spec c 32); [lia|]. destruct (N.eqb_spec c 9); [lia|].
    destruct (N.eqb_spec c 10); [lia|]. destruct (N.eqb_spec c 13); [lia|reflexivity].
  - lia.
Qed.

Lemma skip_ws_serialize (w gap indent : jsstring) (v : json) (rest : jsstring) :
  forallb is_ws w = true ->
  skip_ws (w ++ serialize gap indent v ++ rest) = serialize gap indent v ++ rest.
Proof.
  intros Hw. rewrite skip_ws_app by exact Hw.
  destruct (serialize_head gap indent v) as (c & r & -> & Hc & _).
  cbn [app]. now apply skip_ws_head.
Qed.




Lemma stops_elements_tail (f : json -> jsstring) (line back : jsstring)
  (l : list json) (rest : jsstring) :
  forallb is_ws back = true ->
  stops (elements_tail f line back l ++ rest) = true.
Proof.
  intros Hb. destruct l as [|y l]; cbn [elements_tail].
  - destruct back as [|c b]; [reflexivity|]. cbn [forallb] in Hb.
    apply andb_true_iff in Hb as [Hc _]. cbn [app stops].
    unfold is_ws in Hc. unfold isDigit.
    destruct (N.eqb_spec c 32) as [->|]; [reflexivity|].
    destruct (N.eqb_spec c 9) as [->|]; [reflexivity|].
    destruct (N.eqb_spec c 10) as [->|]; [reflexivity|].
    destruct (N.eqb_spec c 13) as [->|]; [reflexivity|discriminate].
  - reflexivity.
Qed.

Lemma stops_members_tail (f : json -> jsstring) (colon line back : jsstring)
  (l : list (jsstring * json)) (rest : jsstring) :
  forallb is_ws back = true ->
  stops (members_tail f colon line back l ++ rest) = true.
Proof.
  intros Hb. destruct l as [|[k y] l]; cbn [members_tail].
  - destruct back as [|c b]; [reflexivity|]. cbn [forallb] in Hb.
    apply andb_true_iff in Hb as [Hc _]. cbn [app stops].
    unfold is_ws in Hc. unfold isDigit.
    destruct (N.eqb_spec c 32) as [->|]; [reflexivity|].
    destruct (N.eqb_spec c 9) as [->|]; [reflexivity|].
    destruct (N.eqb_spec c 10) as [->|]; [reflexivity|].
    destruct (N.eqb_spec c 13) as [->|]; [reflexivity|discriminate].
  - reflexivity.
Qed.

Lemma read_elements_tail (gap inner line back : jsstring) :
  forallb is_ws gap = true -> forallb is_ws inner = true ->
  forallb is_ws line = true -> forallb is_ws back = true ->
  forall l : list json,
    Forall reads_back l ->
    forall (x : json) (acc : list json) (fuel : nat) (rest : jsstring),
      reads_back x ->
      (S (weight x + elems_weight l) <= fuel)%nat ->
      read_elements fuel acc
        (serialize gap inner x
         ++ elements_tail (serialize gap inner) line back l ++ rest)
      = Some (JArr (acc ++ x :: l) [], rest).
Proof.
  intros Hgap Hinner Hline Hback l Hl.
  induction Hl as [|y l Hy Hl IH]; intros x acc fuel rest Hx Hfuel.
  - destruct fuel as [|f]; [lia|]. cbn [read_elements elements_tail].
    rewrite (Hx gap inner f (( back ++ [93%N]) ++ rest) Hgap Hinner); [|cbn in Hfuel; lia|].
    + rewrite <- app_assoc, skip_ws_app by exact Hback. cbn [app skip_ws].
      change (is_ws 93) with false. cbv iota.
      change (N.eqb 93 44) with false. change (N.eqb 93 93) with true. reflexivity.
    + apply (stops_elements_tail (serialize gap inner) line back [] rest Hback).
  - destruct fuel as [|f]; [lia|]. cbn [read_elements].
    cbn [elems_weight fold_right] in Hfuel. fold (elems_weight l) in Hfuel.
    rewrite (Hx gap inner f _ Hgap Hinner);
      [|lia|apply (stops_elements_tail (serialize gap inner) line back (y :: l) rest Hback)].
    cbn [elements_tail app skip_ws]. change (is_ws 44) with false. cbv iota.
    change (N.eqb 44 44) with true. cbv iota.
    rewrite <- !app_assoc.
    rewrite (skip_ws_serialize line gap inner y _ Hline).
    rewrite (IH y (acc ++ [x]) f rest Hy) by lia.
    now rewrite <- app_assoc.
Qed.

Lemma distinct_app_notin (A B : list jsstring) (k : jsstring) :
  distinct (A ++ k :: B) = true -> forall a, In a A -> str_eqb a k = false.
Proof.
  induction A as [|a0 A IH]; intros Hd a Ha; [destruct Ha|].
  cbn [app distinct] in Hd. apply andb_true_iff in Hd as [Hn Hd].
  destruct Ha as [<-|Ha]; [|now apply IH].
  apply negb_true_iff in Hn. rewrite existsb_app in Hn. cbn [existsb] in Hn.
  apply orb_false_iff in Hn as [_ Hn]. now apply orb_false_iff in Hn as [Hn _].
Qed.

Lemma assoc_set_fresh {V : Type} (k : jsstring) (v : V) (acc : list (jsstring * V)) :
  (forall a, In a (map fst acc) -> str_eqb a k = false) ->
  assoc_set k v acc = acc ++ [(k, v)].
Proof.
  induction acc as [|[k' v'] acc IH]; intros H; [reflexivity|].
  cbn [assoc_set app]. rewrite (H k') by (left; reflexivity).
  f_equal. apply IH. intros a Ha. apply H. now right.
Qed.

Lemma read_members_tail (gap inner colon line back : jsstring) :
  forallb is_ws gap = true -> forallb is_ws inner = true ->
  forallb is_ws line = true -> forallb is_ws back = true ->
  (colon = [58%N] \/ colon = [58; 32]%N) ->
  forall l : list (jsstring * json),
    Forall (fun kv => reads_back (snd kv)) l ->
    forall (k : jsstring) (x : json) (acc : list (jsstring * json)) (fuel : nat)
           (rest : jsstring),
      reads_back x ->
      distinct (map fst acc ++ k :: map fst l) = true ->
      is_index k = false ->
      forallb (fun kv => negb (is_index (fst kv))) l = true ->
      (S (weight x + members_weight l) <= fuel)%nat ->
      read_members fuel acc
        (quote k ++ colon ++ serialize gap inner x
         ++ members_tail (serialize gap inner) colon line back l ++ rest)
      = Some (JObj (acc ++ (k, x) :: l), rest).
Proof.
  intros Hgap Hinner Hline Hback Hcolon l Hl.
  assert (Hcolon2 : forall v tail,
             exists r2, skip_ws (colon ++ serialize gap inner v ++ tail) = 58%N :: r2 /\
                        skip_ws r2 = serialize gap inner v ++ tail).
  { intros v tail.
    destruct Hcolon as [-> | ->]; cbn [app skip_ws]; change (is_ws 58) with false;
      cbv iota; eexists; (split; [reflexivity|]).
    - apply (skip_ws_serialize [] gap inner v tail eq_refl).
    - apply (skip_ws_serialize [32%N] gap inner v tail eq_refl). }
  induction Hl as [|[k' y] l Hy Hl IH]; intros k x acc fuel rest Hx Hd Hk Hks Hfuel.
  - destruct fuel as [|f]; [lia|]. cbn [read_members members_tail].
    unfold quote. cbn [app]. change (N.eqb 34 34) with true. cbv iota.
    rewrite <- app_assoc. cbn [app]. rewrite read_quote_body.
    destruct (Hcolon2 x ((back ++ [125%N]) ++ rest)) as (r2 & -> & Hr2).
    change (N.eqb 58 58) with true. cbv iota. rewrite Hr2.
    rewrite (Hx gap inner f _ Hgap Hinner);
      [|cbn in Hfuel; lia
       |apply (stops_members_tail (serialize gap inner) colon line back [] rest Hback)].
    rewrite Hk. rewrite <- app_assoc, skip_ws_app by exact Hback. cbn [app skip_ws].
    change (is_ws 125) with false. cbv iota.
    change (N.eqb 125 44) with false. change (N.eqb 125 125) with true. cbv iota.
    rewrite assoc_set_fresh; [reflexivity|].
    intros a Ha. now apply (distinct_app_notin _ _ _ Hd).
  - destruct fuel as [|f]; [lia|]. cbn [read_members].
    cbn [members_weight fold_right snd] in Hfuel. fold (members_weight l) in Hfuel.
    unfold quote at 1. cbn [app]. change (N.eqb 34 34) with true. cbv iota.
    rewrite <- app_assoc. cbn [app]. rewrite read_quote_body.
    destruct (Hcolon2 x (members_tail (serialize gap inner) colon line back ((k', y) :: l)
                           ++ rest)) as (r2 & -> & Hr2).
    change (N.eqb 58 58) with true. cbv iota. rewrite Hr2.
    rewrite (Hx gap inner f _ Hgap Hinner);
      [|lia
       |apply (stops_members_tail (serialize gap inner) colon line back ((k', y) :: l)
                 rest Hback)].
    rewrite Hk. cbn [members_tail app skip_ws]. change (is_ws 44) with false. cbv iota.
    change (N.eqb 44 44) with true. cbv iota.
    rewrite <- !app_assoc.
    assert (Hq : skip_ws (line ++ quote k' ++ colon ++ serialize gap inner y
                          ++ members_tail (serialize gap inner) colon line back l ++ rest)
                 = quote k' ++ colon ++ serialize gap inner y
                   ++ members_tail (serialize gap inner) colon line back l ++ rest).
    { rewrite skip_ws_app by exact Hline. unfold quote. cbn [app].
      now apply skip_ws_head. }
    rewrite Hq.
    cbn [forallb fst] in Hks. apply andb_true_iff in Hks as [Hk' Hks].
    apply negb_true_iff in Hk'.
    assert (Hfresh : assoc_set k x acc = acc ++ [(k, x)]).
    { apply assoc_set_fresh. intros a Ha. now apply (distinct_app_notin _ _ _ Hd). }
    rewrite Hfresh.
    rewrite (IH k' y (acc ++ [(k, x)]) f rest Hy); [now rewrite <- app_assoc| |exact Hk'|exact Hks|lia].
    rewrite map_app, <- app_assoc. exact Hd.
Qed.

Lemma ws_line (gap inner : jsstring) :
  forallb is_ws inner = true ->
  forallb is_ws (match gap with [] => [] | _ :: _ => 10%N :: inner end) = true.
Proof. intros H. destruct gap; [reflexivity|exact H]. Qed.

Lemma plain_reads_back (v : json) : plain v = true -> reads_back v.
Proof.
  induction v as [ | b | z | s | items own IH | fields IH ] using json_induction;
    intros Hplain gap indent fuel rest Hgap Hindent Hfuel Hrest;
    (destruct fuel as [|f]; [cbn [weight] in Hfuel; lia|]).
  - reflexivity.
  - destruct b; reflexivity.
  - cbn [plain] in Hplain. apply Z.ltb_lt in Hplain. cbn [serialize].
    destruct (number_text_head z) as (c & r & Hd & Hc).
    pose proof (read_number_text z rest Hplain Hrest) as Hread.
    rewrite Hd in *. cbn [app read_value] in *.
    destruct (N.eqb_spec c 123); [lia|]. destruct (N.eqb_spec c 91); [lia|].
    destruct (N.eqb_spec c 34); [lia|]. destruct (N.eqb_spec c 116); [lia|].
    destruct (N.eqb_spec c 102); [lia|]. destruct (N.eqb_spec c 110); [lia|].
    exact Hread.
  - cbn [serialize]. unfold quote. cbn [app read_value].
    change (N.eqb 34 123) with false. change (N.eqb 34 91) with false.
    change (N.eqb 34 34) with true. cbv iota.
    rewrite <- app_assoc. cbn [app]. now rewrite read_quote_body.
  - cbn [plain] in Hplain. destruct own as [|o own]; [|discriminate].
    assert (Hall : Forall reads_back items).
    { rewrite forallb_forall in Hplain. rewrite Forall_forall in IH |- *.
      intros x Hx. apply IH; [exact Hx|]. now apply Hplain. }
    destruct items as [|x items]; [reflexivity|].
    inversion Hall as [|? ? Hx Hitems]; subst.
    assert (Hinner : forallb is_ws (indent ++ gap) = true).
    { rewrite forallb_app, Hindent, Hgap. reflexivity. }
    cbn [serialize weight fold_right] in Hfuel |- *. fold (elems_weight items) in Hfuel.
    cbn [app read_value]. change (N.eqb 91 123) with false.
    change (N.eqb 91 91) with true. cbv iota.
    rewrite <- !app_assoc.
    rewrite (skip_ws_serialize _ gap (indent ++ gap) x _ (ws_line gap _ Hinner)).
    destruct (serialize_head gap (indent ++ gap) x) as (c & r & Hs & Hc & H93).
    rewrite Hs. cbn [app]. destruct (N.eqb_spec c 93); [contradiction|].
    change (c :: r ++ ?t) with ((c :: r) ++ t). rewrite <- Hs.
    apply (read_elements_tail gap (indent ++ gap) _ _ Hgap Hinner
             (ws_line gap _ Hinner) (ws_line gap _ Hindent) items Hitems x [] f rest Hx).
    lia.
  - cbn [plain] in Hplain. apply andb_true_iff in Hplain as [Hdist Hplain].
    assert (Hall : Forall (fun kv => reads_back (snd kv)) fields).
    { rewrite forallb_forall in Hplain. rewrite Forall_forall in IH |- *.
      intros kv Hkv. apply IH; [exact Hkv|].
      specialize (Hplain kv Hkv). now apply andb_true_iff in Hplain as [_ Hp]. }
    assert (Hidx : forallb (fun kv => negb (is_index (fst kv))) fields = true).
    { rewrite forallb_forall in Hplain |- *. intros kv Hkv.
      specialize (Hplain kv Hkv). now apply andb_true_iff in Hplain as [Hi _]. }
    destruct fields as [|[k x] fields]; [reflexivity|].
    inversion Hall as [|? ? Hx Hfields]; subst. cbn [snd] in Hx.
    cbn [forallb fst] in Hidx. apply andb_true_iff in Hidx as [Hk Hidx].
    apply negb_true_iff in Hk.
    assert (Hinner : forallb is_ws (indent ++ gap) = true).
    { rewrite forallb_app, Hindent, Hgap. reflexivity. }
    cbn [serialize weight fold_right snd] in Hfuel |- *.
    fold (members_weight fields) in Hfuel.
    cbn [app read_value]. change (N.eqb 123 123) with true. cbv iota.
    rewrite <- !app_assoc.
    rewrite skip_ws_app by (apply ws_line; exact Hinner).
    unfold quote at 1. cbn [app skip_ws]. change (is_ws 34) with false. cbv iota.
    change (N.eqb 34 125) with false. cbv iota.
    change (34%N :: quote_body k ++ 34%N :: ?t) with (quote k ++ t).
    apply (read_members_tail gap (indent ++ gap) _ _ _ Hgap Hinner
             (ws_line gap _ Hinner) (ws_line gap _ Hindent)); try assumption.
    + destruct gap; [now left|now right].
    + lia.
Qed.

Lemma serialize_array (gap indent : jsstring) (x : json) (items : list json)
  (own : list (jsstring * json)) :
  serialize gap indent (JArr (x :: items) own)
  = [91%N] ++ match gap with [] => [] | _ :: _ => 10%N :: indent ++ gap end
    ++ serialize gap (indent ++ gap) x
    ++ elements_tail (serialize gap (indent ++ gap))
         (match gap with [] => [] | _ :: _ => 10%N :: indent ++ gap end)
         (match gap with [] => [] | _ :: _ => 10%N :: indent end) items.
Proof. reflexivity. Qed.

Lemma serialize_object (gap indent k : jsstring) (x : json)
  (fields : list (jsstring * json)) :
  serialize gap indent (JObj ((k, x) :: fields))
  = [123%N] ++ match gap with [] => [] | _ :: _ => 10%N :: indent ++ gap end
    ++ quote k ++ match gap with [] => [58%N] | _ :: _ => [58; 32]%N end
    ++ serialize gap (indent ++ gap) x
    ++ members_tail (serialize gap (indent ++ gap))
         (match gap with [] => [58%N] | _ :: _ => [58; 32]%N end)
         (match gap with [] => [] | _ :: _ => 10%N :: indent ++ gap end)
         (match gap with [] => [] | _ :: _ => 10%N :: indent end) fields.
Proof. reflexivity. Qed.

Lemma weight_le_length (v : json) :
  forall gap indent : jsstring,
    (weight v <= List.length (serialize gap indent v))%nat.
Proof.
  induction v as [ | b | z | s | items own IH | fields IH ] using json_induction;
    intros gap indent.
  - cbn. lia.
  - destruct b; cbn; lia.
  - cbn [weight serialize]. destruct (number_text_head z) as (c & r & -> & _).
    cbn [List.length]. lia.
  - cbn [weight serialize]. unfold quote. rewrite !length_app. cbn [List.length]. lia.
  - destruct items as [|x items]; [cbn; lia|].
    inversion IH as [|? ? Hx Hitems]; subst.
    rewrite serialize_array. cbn [weight fold_right]. fold (elems_weight items).
    rewrite !length_app. cbn [List.length].
    specialize (Hx gap (indent ++ gap)).
    assert (Htail : forall line back,
               (S (elems_weight items)
                <= List.length (elements_tail (serialize gap (indent ++ gap)) line back
                                  items))%nat).
    { intros line back. clear Hx. induction Hitems as [|y l Hy Hl IHl].
      - cbn [elements_tail elems_weight fold_right]. rewrite length_app. cbn. lia.
      - cbn [elements_tail elems_weight fold_right]. fold (elems_weight l).
        rewrite !length_app. cbn [List.length].
        specialize (Hy gap (indent ++ gap)).
        assert (Hl' : Forall (fun v => forall gap indent,
                                 (weight v <= List.length (serialize gap indent v))%nat)
                        (x :: l)).
        { constructor; [inversion IH; assumption|exact Hl]. }
        specialize (IHl Hl'). lia. }
    specialize (Htail (match gap with [] => [] | _ :: _ => 10%N :: indent ++ gap end)
                      (match gap with [] => [] | _ :: _ => 10%N :: indent end)).
    lia.
  - destruct fields as [|[k x] fields]; [cbn; lia|].
    inversion IH as [|? ? Hx Hfields]; subst. cbn [snd] in Hx.
    rewrite serialize_object. cbn [weight fold_right snd]. fold (members_weight fields).
    rewrite !length_app. cbn [List.length].
    specialize (Hx gap (indent ++ gap)).
    assert (Htail : forall colon line back,
               (S (members_weight fields)
                <= List.length (members_tail (serialize gap (indent ++ gap)) colon line
                                  back fields))%nat).
    { intros colon line back. clear Hx. induction Hfields as [|[k' y] l Hy Hl IHl].
      - cbn [members_tail members_weight fold_right]. rewrite length_app. cbn. lia.
      - cbn [members_tail members_weight fold_right snd]. fold (members_weight l).
        rewrite !length_app. cbn [List.length]. cbn [snd] in Hy.
        specialize (Hy gap (indent ++ gap)).
        assert (Hl' : Forall (fun kv => forall gap indent,
                                 (weight (snd kv)
                                  <= List.length (serialize gap indent (snd kv)))%nat)
                        ((k, x) :: l)).
        { constructor; [inversion IH; assumption|exact Hl]. }
        specialize (IHl Hl'). lia. }
    specialize (Htail (match gap with [] => [58%N] | _ :: _ => [58; 32]%N end)
                      (match gap with [] => [] | _ :: _ => 10%N :: indent ++ gap end)
                      (match gap with [] => [] | _ :: _ => 10%N :: indent end)).
    lia.
Qed.

(** [JSON.parse] reads back what [JSON.stringify] writes of a plain value,
    whatever the indentation. *)
Lemma read_stringify (v : json) (indent : Z) :
  plain v = true -> read (stringify v indent) = Some v.
Proof.
  intros Hplain. unfold read, stringify.
  set (gap := repeat 32%N (Z.to_nat (Z.min indent 10))).
  assert (Hgap : forallb is_ws gap = true).
  { unfold gap. induction (Z.to_nat (Z.min indent 10)) as [|n IH]; [reflexivity|exact IH]. }
  pose proof (skip_ws_serialize [] gap [] v [] eq_refl) as Hskip.
  cbn [app] in Hskip. rewrite app_nil_r in Hskip. rewrite Hskip.
  pose proof (plain_reads_back v Hplain gap [] (S (List.length (serialize gap [] v))) []
                Hgap eq_refl) as Hread.
  rewrite app_nil_r in Hread. rewrite Hread; [reflexivity| |reflexivity].
  pose proof (weight_le_length v gap []). lia.
Qed.

End JsonRoundTrip.

Lemma update_nth_last {A : Type} (l : list A) (x y : A) :
  update_nth (List.length l) (fun _ => y) (l ++ [x]) = l ++ [y].
Proof. induction l as [|z l IH]; [reflexivity|]. cbn. now rewrite IH. Qed.

Lemma update_nth_at {A : Type} (l : list A) (k : nat) (x y : A) :
  nth_error l k = Some x -> nth_error (update_nth k (fun _ => y) l) k = Some y.
Proof.
  revert k. induction l as [|z l IH]; intros [|k] H; try discriminate; cbn in *.
  - reflexivity.
  - now apply IH.
Qed.

Lemma put_current_index (st : ImportExport.Store) (a : json) :
  ImportExport.currentIndex (ImportExport.put_current a st)
  = ImportExport.currentIndex st.
Proof.
  unfold ImportExport.put_current.
  destruct (ImportExport.currentIndex st <? 0); reflexivity.
Qed.

Lemma at_index_put_current (st : ImportExport.Store) (a a' : json) :
  ImportExport.at_index (ImportExport.analyses st) (ImportExport.currentIndex st)
  = Some a ->
  ImportExport.at_index (ImportExport.analyses (ImportExport.put_current a' st))
    (ImportExport.currentIndex st) = Some a'.
Proof.
  unfold ImportExport.at_index, ImportExport.put_current.
  destruct (ImportExport.currentIndex st <? 0); [discriminate|].
  cbn [ImportExport.set_analyses ImportExport.analyses]. apply update_nth_at.
Qed.



(** An analysis that has not been on display, with an identifier and a
    title only: its copy is left with the defaults the view of the mission
    description gives it, as the original would be by a redraw. *)
Example import_of_an_analysis_not_yet_drawn :
  let copy :=
    JObj [(lit "id", JStr (lit "id-k3x9")); (lit "title", JStr (lit "Etude 2024"));
          (lit "data", JObj [(lit "missionDescription", JStr [])])] in
  forall d,
    ImportExport.export_click JsonText.stringify Samples.titled_store
    = ImportExport.Exported d ->
    ImportExport.analyses
      (fst (ImportExport.import_onload Samples.runtime_parse JsonText.stringify
              (ImportExport.redraw_views Samples.page_render [])
              (ImportExport.content d) Samples.titled_store))
    = ImportExport.analyses Samples.titled_store ++ [copy] /\
    Samples.page_render
      (JObj [(lit "id", JStr (lit "id-k3x9")); (lit "title", JStr (lit "Etude 2024"))]) 1
    = (copy, 1%nat, None).
Proof.
  intros copy d Hd. vm_compute in Hd. injection Hd as <-. vm_compute. split; reflexivity.
Qed.

(* ================================================================== *)
(** * Further properties of the code                                  *)
(* ================================================================== *)

(** *** Rendering twice *)

Lemma js_or_idempotent (a b : value) : js_or (js_or a b) b = js_or a b.
Proof.
  unfold js_or. destruct (truthy a) eqn:Ha; [now rewrite Ha|].
  destruct (truthy b); reflexivity.
Qed.

Lemma num_or_reparse (n : JsNum) :
  safe (num_or n 1) ->
  num_or (parseInt (VNum (Int (num_or n 1)))) 1 = num_or n 1.
Proof.
  intros Hs. rewrite parseInt_safe by exact Hs.
  apply num_or_int_nonzero. apply num_or_nonzero. lia.
Qed.

Lemma ensured_id_truthy (v : value) (rnd : nat -> jsstring) (n : nat) :
  truthy (if truthy v then v else VStr (uid rnd n)) = true.
Proof. destruct (truthy v) eqn:E; [exact E|reflexivity]. Qed.

(** X1. Drawing the table of couples again changes nothing: on a couple
    that [renderSROV] has normalised and whose three scores are safe
    integers, the normalisation keeps the identifier (no second call of
    [uid()] is used), the three scores and [retenue]. *)
Theorem renderSROV_normalisation_idempotent
  (rnd : nat -> jsstring) (n n' : nat) (s : Srov.Stored) :
  safe (num_or (parseInt (Srov.s_motivation s)) 1) ->
  safe (num_or (parseInt (Srov.s_ressources s)) 1) ->
  safe (num_or (parseInt (Srov.s_priorite s)) 1) ->
  Srov.normalize (uid rnd n') (Srov.stored_of (Srov.normalize (uid rnd n) s))
  = Srov.normalize (uid rnd n) s.
Proof.
  intros Hm Hr Hp.
  unfold Srov.normalize at 1. unfold Srov.stored_of.
  cbn [Srov.s_id Srov.s_source Srov.s_objectif Srov.s_motivation
       Srov.s_ressources Srov.s_priorite Srov.s_retenue Srov.s_justification].
  unfold Srov.normalize.
  cbn [Srov.id Srov.source Srov.objectif Srov.motivation Srov.ressources
       Srov.priorite Srov.retenue Srov.justification].
  rewrite ensured_id_truthy, !num_or_reparse by assumption. reflexivity.
Qed.

Lemma renderSROV_normalisation_idempotent_witness :
  Srov.normalize (uid (fun _ => lit "b") 1)
    (Srov.stored_of (Srov.normalize (uid (fun _ => lit "b") 0) Samples.srov_seven))
  = Srov.normalize (uid (fun _ => lit "b") 0) Samples.srov_seven.
Proof.
  apply (renderSROV_normalisation_idempotent (fun _ => lit "b") 0 1
           Samples.srov_seven); reflexivity.
Defined.

(** X2. Drawing the cartography again changes nothing: on an entry that
    [renderPPCarto] has normalised and whose four scores are safe integers,
    the normalisation keeps the identifier, the name, the category, the two
    association arrays and the four scores. *)
Theorem renderPPCarto_normalisation_idempotent
  (rnd : nat -> jsstring) (n n' : nat) (p : Ppc.Stored) :
  safe (num_or (parseInt (Ppc.s_dependance p)) 1) ->
  safe (num_or (parseInt (Ppc.s_penetration p)) 1) ->
  safe (num_or (parseInt (Ppc.s_maturite p)) 1) ->
  safe (num_or (parseInt (Ppc.s_confiance p)) 1) ->
  Ppc.normalize (uid rnd n') (Ppc.stored_of (Ppc.normalize (uid rnd n) p))
  = Ppc.normalize (uid rnd n) p.
Proof.
  intros Hd Hp Hm Hc.
  unfold Ppc.normalize at 1. unfold Ppc.stored_of.
  cbn [Ppc.s_id Ppc.s_nom Ppc.s_categorie Ppc.s_supportIds Ppc.s_valueIds
       Ppc.s_dependance Ppc.s_penetration Ppc.s_maturite Ppc.s_confiance].
  unfold Ppc.normalize.
  cbn [Ppc.id Ppc.nom Ppc.categorie Ppc.supportIds Ppc.valueIds
       Ppc.dependance Ppc.penetration Ppc.maturite Ppc.confiance].
  rewrite ensured_id_truthy, !num_or_reparse, !js_or_idempotent by assumption.
  reflexivity.
Qed.

Lemma renderPPCarto_normalisation_idempotent_witness :
  Ppc.normalize (uid (fun _ => lit "b") 1)
    (Ppc.stored_of (Ppc.normalize (uid (fun _ => lit "b") 0) Samples.ppc_exposed))
  = Ppc.normalize (uid (fun _ => lit "b") 0) Samples.ppc_exposed.
Proof.
  apply (renderPPCarto_normalisation_idempotent (fun _ => lit "b") 0 1
           Samples.ppc_exposed); reflexivity.
Defined.

Lemma normalize_impact_cases (v : value) :
  (Model.normalize_impact v = v /\
   (negb (truthy v) || negb (is_number v))%bool = false) \/
  (exists z, Model.normalize_impact v = VNum (Int z) /\ 1 <= z <= 4).
Proof.
  unfold Model.normalize_impact.
  destruct (negb (truthy v) || negb (is_number v))%bool; [right|now left].
  destruct (parseInt v) as [|parsed]; [exists 1; split; [reflexivity|lia]|].
  destruct (Z.leb_spec 1 parsed), (Z.leb_spec parsed 4); cbn [andb];
    [exists parsed|exists 1|exists 1|exists 1]; split; try reflexivity; lia.
Qed.

Lemma normalize_impact_idempotent (v : value) :
  Model.normalize_impact (Model.normalize_impact v) = Model.normalize_impact v.
Proof.
  destruct (normalize_impact_cases v) as [[Hv C]|[z [Hz Hr]]].
  - rewrite Hv. unfold Model.normalize_impact. now rewrite C.
  - rewrite Hz. unfold Model.normalize_impact. cbn [truthy is_number].
    destruct (Z.eqb_spec z 0); [lia|reflexivity].
Qed.

(** X3. Drawing the events table again changes nothing: whatever the stored
    event holds, normalising it a second time keeps its identifier and its
    impact. *)
Theorem renderEventsTable_normalisation_idempotent
  (rnd : nat -> jsstring) (n n' : nat) (ev : Model.Event) :
  Model.normalize_event (uid rnd n') (Model.normalize_event (uid rnd n) ev)
  = Model.normalize_event (uid rnd n) ev.
Proof.
  unfold Model.normalize_event at 1.
  cbn [Model.normalize_event Model.e_id Model.missionId Model.evenement
       Model.impactDescription Model.impact].
  rewrite ensured_id_truthy, normalize_impact_idempotent. reflexivity.
Qed.

(** *** Events of a mission *)

Lemma findIndex_None {A : Type} (f : A -> bool) (l : list A) :
  Atelier1.findIndex f l = None <-> forall x, In x l -> f x = false.
Proof.
  induction l as [|x l IH]; cbn.
  - split; [contradiction|reflexivity].
  - destruct (f x) eqn:E.
    + split; [discriminate|]. intros H. specialize (H x (or_introl eq_refl)). congruence.
    + destruct (Atelier1.findIndex f l) as [i|].
      * split; [discriminate|]. intros H.
        assert (Hl : Some i = None); [|discriminate].
        apply IH. intros y Hy. apply H. now right.
      * split; [|reflexivity]. intros _ y [<-|Hy]; [exact E|]. now apply IH.
Qed.

Lemma findIndex_Some {A : Type} (f : A -> bool) (l : list A) (i : nat) :
  Atelier1.findIndex f l = Some i ->
  exists l1 x l2,
    l = l1 ++ x :: l2 /\ List.length l1 = i /\ f x = true /\
    (forall y, In y l1 -> f y = false).
Proof.
  revert i. induction l as [|x l IH]; cbn; intros i; [discriminate|].
  destruct (f x) eqn:E.
  - intros [= <-]. exists [], x, l. repeat split; try assumption. contradiction.
  - destruct (Atelier1.findIndex f l) as [j|]; [|discriminate].
    intros [= <-]. destruct (IH j eq_refl) as (l1 & y & l2 & -> & Hlen & Hy & Hl1).
    exists (x :: l1), y, l2. repeat split; try assumption.
    + cbn. now rewrite Hlen.
    + intros z [<-|Hz]; [exact E|auto].
Qed.

Lemma splice1_middle {A : Type} (l1 l2 : list A) (x : A) :
  splice1 (List.length l1) (l1 ++ x :: l2) = l1 ++ l2.
Proof.
  unfold splice1. rewrite firstn_app, Nat.sub_diag, firstn_all. cbn [firstn].
  rewrite app_nil_r. f_equal.
  induction l1 as [|y l1 IH]; [reflexivity|exact IH].
Qed.

(** X4. Removing an event of a mission row removes the first event of the
    analysis whose id is strictly equal to the id of that event, keeps the
    others in order, keeps the missions, and saves once; when no event has
    that id the store is left as it was and nothing is saved. *)
Theorem event_remove_first_match
  (cur : nat) (event : Model.Event) (analyses : Model.Analyses)
  (a : Model.Analysis) (evs : list Model.Event) :
  nth_error analyses cur = Some a ->
  Model.events (Model.data a) = Some evs ->
  let hit := fun ev => strict_eq (Model.e_id ev) (Model.e_id event) in
  let r := Atelier1.event_remove_click cur event analyses in
  ((forall ev, In ev evs -> hit ev = false) -> r = (analyses, [])) /\
  ((exists ev, In ev evs /\ hit ev = true) ->
   exists l1 x l2 a',
     evs = l1 ++ x :: l2 /\ hit x = true /\
     (forall y, In y l1 -> hit y = false) /\
     nth_error (fst r) cur = Some a' /\
     Model.events (Model.data a') = Some (l1 ++ l2) /\
     Model.missions (Model.data a') = Model.missions (Model.data a) /\
     (forall j, j <> cur -> nth_error (fst r) j = nth_error analyses j) /\
     snd r = [Save (fst r); Redraw "renderMissionsTable"; Redraw "updateAtelier1Graph"]).
Proof.
  intros Ha Hev hit r. unfold r, Atelier1.event_remove_click.
  rewrite Ha, Hev. fold hit. split.
  - intros Hnone. apply findIndex_None in Hnone. now rewrite Hnone.
  - intros [ev [Hin Hhit]].
    destruct (Atelier1.findIndex hit evs) as [i|] eqn:F.
    + destruct (findIndex_Some _ _ _ F) as (l1 & x & l2 & -> & Hlen & Hx & Hl1).
      exists l1, x, l2. eexists. split; [reflexivity|]. split; [exact Hx|].
      split; [exact Hl1|]. cbn [fst snd].
      rewrite nth_error_update_nth_same, Ha. cbn [option_map].
      split; [reflexivity|]. subst i. rewrite splice1_middle.
      repeat split. intros j Hj. now apply nth_error_update_nth_other.
    + rewrite findIndex_None in F. rewrite (F ev Hin) in Hhit. discriminate.
Qed.

Lemma event_remove_first_match_witness :
  exists a',
    nth_error (fst (Atelier1.event_remove_click 0 Samples.e1 [Samples.analysis1])) 0
    = Some a' /\
    Model.events (Model.data a') = Some [Samples.e2].
Proof.
  destruct (event_remove_first_match 0 Samples.e1 [Samples.analysis1]
              Samples.analysis1 [Samples.e1; Samples.e2] eq_refl eq_refl)
    as [_ Hsome].
  destruct Hsome as (l1 & x & l2 & a' & Hsplit & Hx & Hl1 & Hnth & Hevs & _).
  { exists Samples.e1. split; [now left|reflexivity]. }
  exists a'. split; [exact Hnth|]. rewrite Hevs. f_equal.
  destruct l1 as [|y l1].
  - now injection Hsplit as _ <-.
  - injection Hsplit as <- _. specialize (Hl1 Samples.e1 (or_introl eq_refl)).
    discriminate.
Defined.

(** X5. An event created with the button of a mission row goes away with
    the mission: after the creation and then the deletion of the mission,
    the events of the analysis are the events it had before that were not
    attached to the mission. *)
Theorem added_event_is_removed_with_its_mission
  (rnd : nat -> jsstring) (n cur idx : nat) (mission : Model.Mission)
  (analyses : Model.Analyses) (a : Model.Analysis) :
  truthy (Model.m_id mission) = true ->
  nth_error analyses cur = Some a ->
  let added := fst (fst (Atelier1.event_add_click rnd n cur mission analyses)) in
  let deleted := fst (Model.mission_delete_click cur idx mission added) in
  exists a1 a2,
    nth_error added cur = Some a1 /\
    Model.events (Model.data a1)
    = Some (Model.events_or_empty (Model.data a)
            ++ [Atelier1.new_event (uid rnd n) mission]) /\
    nth_error deleted cur = Some a2 /\
    Model.events (Model.data a2)
    = Some (filter (fun ev => negb (strict_eq (Model.missionId ev) (Model.m_id mission)))
                   (Model.events_or_empty (Model.data a))).
Proof.
  intros Hid Ha added deleted.
  unfold deleted, added, Model.mission_delete_click, Atelier1.event_add_click.
  cbn [fst]. rewrite !nth_error_update_nth_same, Ha. cbn [option_map].
  eexists. eexists. split; [reflexivity|]. split; [reflexivity|].
  split; [reflexivity|].
  cbn [Model.on_data Model.data Model.set_events Model.set_missions Model.events].
  f_equal. rewrite filter_app. cbn [filter Atelier1.new_event Model.missionId].
  assert (Hself : strict_eq (Model.m_id mission) (Model.m_id mission) = true)
    by now apply strict_eq_truthy.
  rewrite Hself. cbn [negb]. apply app_nil_r.
Qed.

Lemma added_event_is_removed_with_its_mission_witness :
  exists a2,
    nth_error
      (fst (Model.mission_delete_click 0 0 Samples.m1
              (fst (fst (Atelier1.event_add_click ImportExport.sample_rnd 0 0
                           Samples.m1 [Samples.analysis1])))))
      0 = Some a2 /\
    Model.events (Model.data a2) = Some [Samples.e2].
Proof.
  destruct (added_event_is_removed_with_its_mission ImportExport.sample_rnd 0 0 0
              Samples.m1 [Samples.analysis1] Samples.analysis1 eq_refl eq_refl)
    as (a1 & a2 & _ & _ & Hnth & Hevs).
  exists a2. split; [exact Hnth|]. rewrite Hevs. reflexivity.
Defined.

(** *** Adding an existing support to a mission *)

Lemma existsb_str_false (k : jsstring) (l : list jsstring) :
  existsb (fun x => str_eqb x k) l = false <-> ~ In k l.
Proof.
  induction l as [|x l IH]; cbn.
  - split; [intros _ []|reflexivity].
  - rewrite orb_false_iff, IH. split.
    + intros [Hx Hl] [->|Hin]; [|contradiction].
      assert (str_eqb k k = true) by now apply str_eqb_eq. congruence.
    + intros H. split.
      * destruct (str_eqb x k) eqn:E; [|reflexivity].
        apply str_eqb_eq in E. exfalso. apply H. now left.
      * intros Hin. apply H. now right.
Qed.

Lemma existsb_name_false (k : jsstring) (acc : list Model.Support) :
  existsb (fun ss => str_eqb (Model.name ss) k) acc = false
  <-> ~ In k (map Model.name acc).
Proof.
  rewrite <- existsb_str_false. induction acc as [|x acc IH]; cbn; [tauto|].
  destruct (str_eqb (Model.name x) k); cbn; [tauto|exact IH].
Qed.

Lemma collect_step_keeps (ms : list Model.Mission) (m : Model.Mission)
  (acc : list Model.Support) (s : Model.Support) :
  In m ms -> In s (Model.supports m) ->
  collected ms acc -> collected ms (Atelier1.collect_step acc s).
Proof.
  intros Hm Hs [Hnd Hall]. unfold Atelier1.collect_step.
  destruct (trim (Model.name s)) as [|c r] eqn:T; [now split|].
  destruct (existsb _ acc) eqn:E; [now split|].
  apply existsb_name_false in E. split.
  - rewrite map_app. cbn [map Model.name].
    apply NoDup_app; [exact Hnd|repeat constructor; intros []|].
    intros k Hk [<-|[]]. contradiction.
  - intros x Hx. apply in_app_or in Hx as [Hx|[<-|[]]]; [now apply Hall|].
    cbn [Model.name]. split; [discriminate|]. exists m, s. now rewrite T.
Qed.

Lemma allSupports_collected (ms : list Model.Mission) :
  collected ms (Atelier1.allSupports ms).
Proof.
  unfold Atelier1.allSupports.
  assert (Hgen : forall l acc,
             (forall m, In m l -> In m ms) -> collected ms acc ->
             collected ms
               (fold_left (fun acc m2 => fold_left Atelier1.collect_step
                                           (Model.supports m2) acc) l acc)).
  { induction l as [|m l IH]; intros acc Hl Hacc; [exact Hacc|].
    cbn [fold_left]. apply IH; [intros m' Hm'; apply Hl; now right|].
    assert (Hin : forall sups acc',
               (forall s, In s sups -> In s (Model.supports m)) ->
               collected ms acc' ->
               collected ms (fold_left Atelier1.collect_step sups acc')).
    { induction sups as [|s sups IHs]; intros acc' Hs Hacc'; [exact Hacc'|].
      cbn [fold_left]. apply IHs; [intros s' Hs'; apply Hs; now right|].
      apply (collect_step_keeps ms m); auto. apply Hl. now left.
      apply Hs. now left. }
    apply Hin; auto. }
  apply Hgen; [auto|]. split; [constructor|intros x []].
Qed.

Lemma NoDup_map_filter {A B : Type} (g : A -> B) (f : A -> bool) (l : list A) :
  NoDup (map g l) -> NoDup (map g (filter f l)).
Proof.
  induction l as [|x l IH]; cbn; [auto|]. intros H. inversion H as [|? ? Hx Hl]; subst.
  destruct (f x); cbn; [|auto]. constructor; [|auto].
  intros Hin. apply Hx. apply in_map_iff in Hin as (y & Hy & Hin).
  apply filter_In in Hin as [Hin _]. apply in_map_iff. now exists y.
Qed.

(** X6. The supports offered by "+ Support existant" have distinct,
    non-empty names, each the trimmed name of a support of some mission and
    none the trimmed name of a support the mission already has.  The
    handler either leaves the store as it was and saves nothing (nothing to
    offer, prompt cancelled, answer that is not a number of the list), or
    appends to the mission a copy of one offered support, leaves the other
    missions as they were, and saves once; an answer [k] between 1 and the
    number of offers appends the [k]-th. *)
Theorem support_existing_never_duplicates
  (cur idx : nat) (input : option jsstring) (analyses : Model.Analyses)
  (a : Model.Analysis) (mission : Model.Mission) :
  nth_error analyses cur = Some a ->
  nth_error (Model.missions (Model.data a)) idx = Some mission ->
  let avail := Atelier1.available (Model.missions (Model.data a)) mission in
  let r := Atelier1.support_existing_click cur idx input analyses in
  NoDup (map Model.name avail) /\
  (forall s, In s avail ->
     Model.name s <> [] /\
     (forall t, In t (Model.supports mission) -> trim (Model.name t) <> Model.name s) /\
     exists m t, In m (Model.missions (Model.data a)) /\ In t (Model.supports m) /\
                 Model.name s = trim (Model.name t)) /\
  ((fst r = analyses /\ forall snapshot, ~ In (Save snapshot) (snd r)) \/
   (exists selected a',
      In selected avail /\
      nth_error (fst r) cur = Some a' /\
      nth_error (Model.missions (Model.data a')) idx
      = Some (Atelier1.push_support selected mission) /\
      (forall j, j <> idx ->
         nth_error (Model.missions (Model.data a')) j
         = nth_error (Model.missions (Model.data a)) j) /\
      Model.events (Model.data a') = Model.events (Model.data a) /\
      snd r = [Save (fst r); Redraw "renderMissionsTable"; Redraw "updateAtelier1Graph"])) /\
  (forall (text : jsstring) (k : Z) (selected : Model.Support),
      input = Some text -> parseInt_str text = Int k ->
      nth_error avail (Z.to_nat (k - 1)) = Some selected -> 1 <= k ->
      exists a',
        nth_error (fst r) cur = Some a' /\
        nth_error (Model.missions (Model.data a')) idx
        = Some (Atelier1.push_support selected mission)).
Proof.
  intros Ha Hm avail r.
  destruct (allSupports_collected (Model.missions (Model.data a))) as [Hnd Hall].
  split; [apply NoDup_map_filter; exact Hnd|].
  split.
  { intros s Hs. apply filter_In in Hs as [Hs Hnot].
    destruct (Hall s Hs) as [Hne Hfrom]. split; [exact Hne|]. split; [|exact Hfrom].
    intros t Ht Heq. apply negb_true_iff in Hnot.
    apply existsb_str_false in Hnot. apply Hnot.
    apply in_map_iff. now exists t. }
  assert (Hpush : forall selected,
             let an := update_nth cur
                         (Model.on_data (fun d =>
                            Model.set_missions
                              (update_nth idx (Atelier1.push_support selected)
                                 (Model.missions d)) d)) analyses in
             exists a',
               nth_error an cur = Some a' /\
               nth_error (Model.missions (Model.data a')) idx
               = Some (Atelier1.push_support selected mission) /\
               (forall j, j <> idx ->
                  nth_error (Model.missions (Model.data a')) j
                  = nth_error (Model.missions (Model.data a)) j) /\
               Model.events (Model.data a') = Model.events (Model.data a)).
  { intros selected an. unfold an. rewrite nth_error_update_nth_same, Ha.
    cbn [option_map]. eexists. split; [reflexivity|].
    cbn [Model.on_data Model.data Model.set_missions Model.missions Model.events].
    rewrite nth_error_update_nth_same, Hm. cbn [option_map].
    split; [reflexivity|]. split; [|reflexivity].
    intros j Hj. now apply nth_error_update_nth_other. }
  split.
  { unfold r, Atelier1.support_existing_click. rewrite Ha, Hm. fold avail.
    destruct avail as [|s0 rest] eqn:Av.
    { left. split; [reflexivity|]. intros snapshot [H|[]]. discriminate. }
    rewrite <- Av. destruct input as [text|]; [|left; split; [reflexivity|intros ? []]].
    destruct (parseInt_str text) as [|z]; [left; split; [reflexivity|intros ? []]|].
    destruct ((0 <=? z - 1) && (z - 1 <? Z.of_nat (List.length avail)))%bool;
      [|left; split; [reflexivity|intros ? []]].
    destruct (nth_error avail (Z.to_nat (z - 1))) as [selected|] eqn:N;
      [|left; split; [reflexivity|intros ? []]].
    right. destruct (Hpush selected) as (a' & H1 & H2 & H3 & H4).
    exists selected, a'. cbn [fst snd]. split; [now apply nth_error_In in N|].
    repeat split; assumption. }
  intros text k selected -> Hk Hsel Hk1.
  unfold r, Atelier1.support_existing_click. rewrite Ha, Hm. fold avail.
  destruct avail as [|s0 rest] eqn:Av.
  { destruct (Z.to_nat (k - 1)); discriminate. }
  rewrite <- Av in *. rewrite Hk.
  assert (Hlt : (Z.to_nat (k - 1) < List.length avail)%nat).
  { apply nth_error_Some. congruence. }
  assert (Hrange : ((0 <=? k - 1) && (k - 1 <? Z.of_nat (List.length avail)))%bool = true).
  { apply andb_true_iff. split; [apply Z.leb_le; lia|apply Z.ltb_lt; lia]. }
  rewrite Hrange, Hsel. cbn [fst].
  destruct (Hpush selected) as (a' & H1 & H2 & _). now exists a'.
Qed.

Lemma support_existing_never_duplicates_witness :
  exists a',
    nth_error (fst (Atelier1.support_existing_click 0 1 (Some (lit "1"))
                      [Samples.analysis1])) 0 = Some a' /\
    nth_error (Model.missions (Model.data a')) 1
    = Some (Atelier1.push_support Samples.s1 Samples.m2).
Proof.
  destruct (support_existing_never_duplicates 0 1 (Some (lit "1")) [Samples.analysis1]
              Samples.analysis1 Samples.m2 eq_refl eq_refl) as (_ & _ & _ & Hk).
  apply (Hk (lit "1") 1%Z Samples.s1); [reflexivity|reflexivity|reflexivity|lia].
Defined.

(** *** Nodes and lines of the network of missions and supports *)

Section MapSetFacts.
Context {K V : Type} (eqb : K -> K -> bool).
Hypothesis eqb_eq : forall a b, eqb a b = true <-> a = b.

Lemma map_get_None_keys (k : K) (m : list (K * V)) :
  Model.map_get eqb k m = None <-> ~ In k (map fst m).
Proof.
  induction m as [|[k' v'] m IH]; cbn; [tauto|].
  destruct (eqb k' k) eqn:E.
  - apply eqb_eq in E. split; [discriminate|]. intros H. exfalso. apply H. now left.
  - rewrite IH. split; [|tauto]. intros H [Hk|Hk]; [|contradiction].
    apply eqb_eq in Hk. congruence.
Qed.

Lemma map_set_keys (k : K) (v : V) (m : list (K * V)) :
  (In k (map fst m) -> map fst (Model.map_set eqb k v m) = map fst m) /\
  (~ In k (map fst m) -> map fst (Model.map_set eqb k v m) = map fst m ++ [k]).
Proof.
  induction m as [|[k' v'] m [IH1 IH2]]; cbn.
  - split; [contradiction|reflexivity].
  - destruct (eqb k' k) eqn:E; cbn.
    + apply eqb_eq in E. split; [reflexivity|]. intros H. exfalso. apply H. now left.
    + assert (Hne : k' <> k).
      { intros Heq. apply eqb_eq in Heq. congruence. }
      split.
      * intros [Hk|Hk]; [contradiction|]. now rewrite IH1.
      * intros H. rewrite IH2; [reflexivity|]. intros Hk. apply H. now right.
Qed.

End MapSetFacts.

Lemma degree_sum_set (k : jsstring) (v : Model.Stat) (m : list (jsstring * Model.Stat)) :
  Atelier1.degree_sum (Model.map_set str_eqb k v m)
  = Atelier1.degree_sum m
    - match Model.map_get str_eqb k m with
      | Some o => Model.degree o
      | None => 0
      end
    + Model.degree v.
Proof.
  unfold Atelier1.degree_sum.
  induction m as [|[k' v'] m IH]; cbn; [lia|].
  destruct (str_eqb k' k); cbn; [lia|]. rewrite IH. lia.
Qed.

Lemma support_step_keeps (mImp : Z) (stats : list (jsstring * Model.Stat))
  (s : Model.Support) :
  stat_keys_ok stats ->
  stat_keys_ok (Model.support_step mImp stats s) /\
  Atelier1.degree_sum (Model.support_step mImp stats s)
  = Atelier1.degree_sum stats + (if Model.nonempty (trim (Model.name s)) then 1 else 0).
Proof.
  intros [Hnd Hne]. unfold Model.support_step.
  destruct (trim (Model.name s)) as [|c r]; cbn [Model.nonempty].
  { split; [now split|lia]. }
  split.
  - cbv zeta.
    match goal with
    | |- stat_keys_ok (Model.map_set _ _ ?v _) =>
        destruct (map_set_keys str_eqb str_eqb_eq (c :: r) v stats) as [Hin Hout]
    end.
    unfold stat_keys_ok.
    destruct (in_dec (list_eq_dec N.eq_dec) (c :: r) (map fst stats)) as [Hk|Hk].
    + rewrite (Hin Hk). now split.
    + rewrite (Hout Hk). split.
      * apply NoDup_app; [exact Hnd|repeat constructor; intros []|].
        intros k Hk1 [<-|[]]. contradiction.
      * intros k Hk1. apply in_app_or in Hk1 as [Hk1|[<-|[]]]; [auto|discriminate].
  - cbv zeta. rewrite degree_sum_set. cbn [Model.degree].
    destruct (Model.map_get str_eqb (c :: r) stats); cbn [Model.degree]; lia.
Qed.

Lemma supports_fold_keeps (mImp : Z) (sups : list Model.Support)
  (stats : list (jsstring * Model.Stat)) :
  stat_keys_ok stats ->
  stat_keys_ok (fold_left (Model.support_step mImp) sups stats) /\
  Atelier1.degree_sum (fold_left (Model.support_step mImp) sups stats)
  = Atelier1.degree_sum stats
    + Z.of_nat (List.length
                  (filter (fun s => Model.nonempty (trim (Model.name s))) sups)).
Proof.
  revert stats. induction sups as [|s sups IH]; intros stats Hok; cbn [fold_left filter].
  - split; [exact Hok|cbn; lia].
  - destruct (support_step_keeps mImp stats s Hok) as [Hok' Hsum].
    destruct (IH _ Hok') as [Hok'' Hsum'']. split; [exact Hok''|].
    rewrite Hsum'', Hsum.
    destruct (Model.nonempty (trim (Model.name s))); cbn [List.length]; lia.
Qed.

Lemma stats_fold_keeps (ibm : list (value * Z)) (ms : list Model.Mission)
  (stats : list (jsstring * Model.Stat)) :
  stat_keys_ok stats ->
  stat_keys_ok (fold_left (Model.stats_step ibm) ms stats) /\
  Atelier1.degree_sum (fold_left (Model.stats_step ibm) ms stats)
  = Atelier1.degree_sum stats + Z.of_nat (List.length (Atelier1.named_entries ms)).
Proof.
  revert stats. induction ms as [|m ms IH]; intros stats Hok; cbn [fold_left].
  - split; [exact Hok|cbn; lia].
  - unfold Model.stats_step at 2 4.
    destruct (supports_fold_keeps (Model.mission_impact ibm (Model.m_id m))
                (Model.supports m) stats Hok) as [Hok' Hsum].
    destruct (IH _ Hok') as [Hok'' Hsum'']. split; [exact Hok''|].
    rewrite Hsum'', Hsum. unfold Atelier1.named_entries. cbn [flat_map].
    rewrite length_app. lia.
Qed.

Lemma named_entry_has_stat (ms : list Model.Mission) (evs : list Model.Event)
  (m : Model.Mission) (s : Model.Support) :
  In m ms -> In s (Model.supports m) -> trim (Model.name s) <> [] ->
  In (trim (Model.name s)) (map fst (Model.supportStats ms evs)).
Proof.
  intros Hm Hs Hne.
  destruct (in_dec (list_eq_dec N.eq_dec) (trim (Model.name s))
              (map fst (Model.supportStats ms evs))) as [Hin|Hout]; [exact Hin|].
  exfalso. apply (map_get_None_keys str_eqb str_eqb_eq) in Hout.
  unfold Model.supportStats in Hout. rewrite stats_fold_get in Hout by exact Hne.
  cbn [Model.map_get] in Hout. rewrite tally_none in Hout.
  destruct (Model.link_impacts (Model.impactByMission evs) (trim (Model.name s)) ms)
    as [|x l] eqn:L; [|discriminate].
  pose proof (link_impacts_length (Model.impactByMission evs) (trim (Model.name s)) ms)
    as Hlen.
  rewrite L in Hlen. cbn in Hlen. unfold Model.link_count in Hlen.
  assert (Hin : In s (flat_map (Model.links_to (trim (Model.name s))) ms)).
  { apply in_flat_map. exists m. split; [exact Hm|].
    apply filter_In. split; [exact Hs|]. now apply str_eqb_eq. }
  destruct (flat_map (Model.links_to (trim (Model.name s))) ms); [contradiction|].
  cbn in Hlen. lia.
Qed.

Lemma existsb_In_true {A : Type} (f : A -> bool) (l : list A) (x : A) :
  In x l -> f x = true -> existsb f l = true.
Proof. intros Hin Hf. apply existsb_exists. now exists x. Qed.

(** X7. In the network of Atelier 1 the support nodes have distinct,
    non-empty names; every support entry with a name gets its line, so the
    number of lines is the number of named support entries, and the degrees
    of the support nodes add up to that number; there is one mission node
    per mission. *)
Theorem network_degrees_add_up_to_lines (d : Model.AnalysisData) :
  let stats := Model.supportStats (Model.missions d) (Model.events_or_empty d) in
  map Model.sn_id (Model.supportNodes d) = map fst stats /\
  NoDup (map Model.sn_id (Model.supportNodes d)) /\
  (forall k, In k (map Model.sn_id (Model.supportNodes d)) -> k <> []) /\
  Atelier1.degree_sum stats
  = Z.of_nat (List.length (Atelier1.named_entries (Model.missions d))) /\
  List.length (Atelier1.lines d)
  = List.length (Atelier1.named_entries (Model.missions d)) /\
  List.length (Model.missionNodes d) = List.length (Model.missions d).
Proof.
  intros stats.
  assert (Hids : map Model.sn_id (Model.supportNodes d) = map fst stats).
  { unfold Model.supportNodes. fold (Model.events_or_empty d). fold stats.
    rewrite map_map. apply map_ext. now intros [nm st]. }
  destruct (stats_fold_keeps (Model.impactByMission (Model.events_or_empty d))
              (Model.missions d) []) as [[Hnd Hne] Hsum].
  { split; [constructor|intros k []]. }
  fold (Model.supportStats (Model.missions d) (Model.events_or_empty d)) in Hnd, Hne, Hsum.
  fold stats in Hnd, Hne, Hsum.
  split; [exact Hids|]. rewrite Hids.
  split; [exact Hnd|]. split; [exact Hne|]. split; [exact Hsum|].
  split; [|unfold Model.missionNodes; apply length_map].
  unfold Atelier1.lines, Atelier1.named_entries. rewrite Hids. fold stats.
  assert (Hmids : map Model.mn_id (Model.missionNodes d)
                  = map Model.m_id (Model.missions d)).
  { unfold Model.missionNodes. rewrite map_map. reflexivity. }
  rewrite Hmids.
  assert (Hgen : forall l, (forall m, In m l -> In m (Model.missions d)) ->
             List.length
               (flat_map
                  (fun m =>
                     flat_map
                       (fun s =>
                          match trim (Model.name s) with
                          | [] => []
                          | c :: r =>
                              if (existsb (fun k => same_value_zero k (Model.m_id m))
                                    (map Model.m_id (Model.missions d))
                                  && existsb (fun k => str_eqb k (c :: r))
                                       (map fst stats))%bool
                              then [(Model.m_id m, c :: r)] else []
                          end) (Model.supports m)) l)
             = List.length
                 (flat_map
                    (fun m => filter (fun s => Model.nonempty (trim (Model.name s)))
                                     (Model.supports m)) l)).
  { induction l as [|m l IH]; intros Hl; [reflexivity|].
    cbn [flat_map]. rewrite !length_app, IH by (intros m' Hm'; apply Hl; now right).
    f_equal.
    assert (Hm : In m (Model.missions d)) by (apply Hl; now left).
    assert (Hmid : existsb (fun k => same_value_zero k (Model.m_id m))
                     (map Model.m_id (Model.missions d)) = true).
    { apply (existsb_In_true _ _ (Model.m_id m)); [now apply in_map|].
      now apply same_value_zero_eq. }
    rewrite Hmid. cbn [andb].
    assert (Hsup : forall sups, (forall s, In s sups -> In s (Model.supports m)) ->
               List.length
                 (flat_map
                    (fun s =>
                       match trim (Model.name s) with
                       | [] => []
                       | c :: r =>
                           if existsb (fun k => str_eqb k (c :: r)) (map fst stats)
                           then [(Model.m_id m, c :: r)] else []
                       end) sups)
               = List.length
                   (filter (fun s => Model.nonempty (trim (Model.name s))) sups)).
    { induction sups as [|s sups IHs]; intros Hs; [reflexivity|].
      cbn [flat_map filter]. rewrite length_app, IHs by (intros s' Hs'; apply Hs; now right).
      assert (Hs0 : In s (Model.supports m)) by (apply Hs; now left).
      destruct (trim (Model.name s)) as [|c r] eqn:T; [reflexivity|].
      cbn [Model.nonempty].
      assert (Hk : existsb (fun k => str_eqb k (c :: r)) (map fst stats) = true).
      { apply (existsb_In_true _ _ (c :: r)); [|now apply str_eqb_eq].
        rewrite <- T. apply (named_entry_has_stat _ _ m); auto. rewrite T. discriminate. }
      rewrite Hk. reflexivity. }
    apply Hsup. auto. }
  apply Hgen. auto.
Qed.

(** *** Nodes and edges of the source/objective network *)

Lemma name_or_nonempty (s dflt : jsstring) : dflt <> [] -> Chart2.name_or s dflt <> [].
Proof. intros Hd. unfold Chart2.name_or. destruct (trim s); [exact Hd|discriminate]. Qed.

Lemma nth_error_NoDup_unique {A : Type} (l : list A) (i j : nat) (x : A) :
  NoDup l -> nth_error l i = Some x -> nth_error l j = Some x -> i = j.
Proof.
  intros Hnd Hi Hj. apply (proj1 (NoDup_nth_error l) Hnd).
  - apply nth_error_Some. congruence.
  - congruence.
Qed.

Lemma order_step_ok (o : Chart2.Order) (nm : jsstring) :
  order_ok o ->
  order_ok (Chart2.order_step o nm) /\
  (forall k, In k (Chart2.order (Chart2.order_step o nm)) <-> In k (Chart2.order o) \/ k = nm).
Proof.
  intros (Hkeys & Hnd & Hidx). unfold Chart2.order_step.
  destruct (Model.map_get str_eqb nm (Chart2.index_of o)) as [i|] eqn:G.
  - split; [exact (conj Hkeys (conj Hnd Hidx))|]. intros k. split; [now left|].
    intros [Hk| ->]; [exact Hk|]. apply Hidx in G. now apply nth_error_In in G.
  - assert (Hout : ~ In nm (Chart2.order o)).
    { rewrite <- Hkeys. now apply (map_get_None_keys str_eqb str_eqb_eq). }
    split.
    + unfold order_ok. cbn [Chart2.order Chart2.index_of]. split; [|split].
      * rewrite <- Hkeys in Hout.
        rewrite (proj2 (map_set_keys str_eqb str_eqb_eq nm _ _) Hout). now rewrite Hkeys.
      * apply NoDup_app; [exact Hnd|repeat constructor; intros []|].
        intros k Hk [<-|[]]. contradiction.
      * intros k i. destruct (list_eq_dec N.eq_dec nm k) as [<-|Hne].
        -- rewrite (map_get_set_same _ str_eqb_eq). split.
           ++ intros [= <-]. rewrite nth_error_app2, Nat.sub_diag by lia. reflexivity.
           ++ intros Hn. f_equal.
              destruct (Nat.lt_ge_cases i (List.length (Chart2.order o))) as [Hlt|Hge].
              ** rewrite nth_error_app1 in Hn by exact Hlt.
                 apply nth_error_In in Hn. contradiction.
              ** rewrite nth_error_app2 in Hn by exact Hge.
                 destruct (i - List.length (Chart2.order o))%nat as [|d] eqn:D;
                   [lia|destruct d; discriminate].
        -- rewrite (map_get_set_other _ str_eqb_eq) by exact Hne. rewrite Hidx. split.
           ++ intros Hn. rewrite nth_error_app1; [exact Hn|].
              apply nth_error_Some. congruence.
           ++ intros Hn.
              destruct (Nat.lt_ge_cases i (List.length (Chart2.order o))) as [Hlt|Hge].
              ** now rewrite nth_error_app1 in Hn by exact Hlt.
              ** rewrite nth_error_app2 in Hn by exact Hge.
                 destruct (i - List.length (Chart2.order o))%nat as [|d];
                   [cbn in Hn; congruence|destruct d; discriminate].
    + intros k. cbn [Chart2.order]. rewrite in_app_iff. cbn [In]. intuition congruence.
Qed.

Lemma order_fold_ok {A : Type} (f : A -> jsstring) (l : list A) (o : Chart2.Order) :
  order_ok o ->
  let o' := fold_left (fun o c => Chart2.order_step o (f c)) l o in
  order_ok o' /\
  (forall k, In k (Chart2.order o') <->
             In k (Chart2.order o) \/ exists c, In c l /\ f c = k).
Proof.
  revert o. induction l as [|c l IH]; intros o Hok; cbn [fold_left].
  - split; [exact Hok|]. intros k. split; [now left|]. now intros [H|[c [[] _]]].
  - destruct (order_step_ok o (f c) Hok) as [Hok' Hin'].
    destruct (IH _ Hok') as [Hok'' Hin'']. split; [exact Hok''|].
    intros k. rewrite Hin'', Hin'. split.
    + intros [[H| ->]|[c' [Hc' Hf]]]; [now left|right|right].
      * exists c. split; [now left|reflexivity].
      * exists c'. split; [now right|exact Hf].
    + intros [H|[c' [[<-|Hc'] Hf]]]; [now left; left|left; right; now symmetry|].
      right. now exists c'.
Qed.

Lemma empty_order_ok : order_ok Chart2.empty_order.
Proof.
  split; [reflexivity|]. split; [constructor|]. intros nm i. cbn.
  split; [discriminate|]. destruct i; discriminate.
Qed.

Lemma filter_filter_and {A : Type} (p q : A -> bool) (l : list A) :
  filter p (filter q l) = filter (fun x => (q x && p x)%bool) l.
Proof.
  induction l as [|x l IH]; [reflexivity|]. cbn [filter].
  destruct (q x); cbn [andb filter]; [destruct (p x)|]; now rewrite IH.
Qed.

Lemma existsb_str_eqb_In (k : jsstring) (l : list jsstring) :
  existsb (str_eqb k) l = true <-> In k l.
Proof.
  rewrite existsb_exists. split.
  - intros (x & Hx & E). apply str_eqb_eq in E. now subst.
  - intros H. exists k. split; [exact H|now apply str_eqb_eq].
Qed.

(** The loop appends to the side, in their order of first appearance, the
    names the side does not hold yet. *)
Lemma order_fold_firsts {A : Type} (f : A -> jsstring) (l : list A) (o : Chart2.Order) :
  order_ok o ->
  Chart2.order (fold_left (fun o c => Chart2.order_step o (f c)) l o)
  = Chart2.order o
    ++ filter (fun k => negb (existsb (str_eqb k) (Chart2.order o)))
         (Chart2.firsts (map f l)).
Proof.
  revert o. induction l as [|c l IH]; intros o Hok; cbn [fold_left map Chart2.firsts].
  - cbn [filter]. now rewrite app_nil_r.
  - destruct (order_step_ok o (f c) Hok) as [Hok' _].
    rewrite (IH _ Hok'). clear IH.
    destruct Hok as (Hkeys & Hnd & Hidx). unfold Chart2.order_step.
    destruct (Model.map_get str_eqb (f c) (Chart2.index_of o)) as [i|] eqn:G.
    + assert (Hin : In (f c) (Chart2.order o)).
      { apply Hidx in G. now apply nth_error_In in G. }
      f_equal. cbn [filter].
      rewrite (proj2 (existsb_str_eqb_In _ _) Hin). cbn [negb].
      rewrite filter_filter_and. apply filter_ext_in. intros k _.
      destruct (existsb (str_eqb k) (Chart2.order o)) eqn:E;
        [now rewrite andb_false_r|].
      rewrite andb_true_r. symmetry. apply negb_true_iff, not_true_is_false.
      intros Hk. apply str_eqb_eq in Hk. subst k.
      apply existsb_str_eqb_In in Hin. congruence.
    + assert (Hout : ~ In (f c) (Chart2.order o)).
      { rewrite <- Hkeys. now apply (map_get_None_keys str_eqb str_eqb_eq). }
      cbn [Chart2.order filter].
      assert (E : existsb (str_eqb (f c)) (Chart2.order o) = false).
      { apply not_true_is_false. intros H. now apply existsb_str_eqb_In in H. }
      rewrite E. cbn [negb]. rewrite <- app_assoc. cbn [app]. do 2 f_equal.
      rewrite filter_filter_and. apply filter_ext. intros k.
      rewrite existsb_app. cbn [existsb]. rewrite orb_false_r, negb_orb.
      apply andb_comm.
Qed.

Lemma sides_are_firsts {A : Type} (f : A -> jsstring) (l : list A) :
  Chart2.order (fold_left (fun o c => Chart2.order_step o (f c)) l Chart2.empty_order)
  = Chart2.firsts (map f l).
Proof.
  rewrite order_fold_firsts by exact empty_order_ok. cbn [Chart2.order Chart2.empty_order app].
  generalize (Chart2.firsts (map f l)). intros r.
  induction r as [|x r IH]; [reflexivity|].
  cbn [filter existsb negb]. f_equal. exact IH.
Qed.

(** X8. In the network of Atelier 2 each source and each objective gets
    one node: the names of a side are distinct and not empty, they are
    exactly the names of the couples (trimmed, "Source" or "Objectif" when
    empty), listed in the order in which the table first shows them, and
    the map of the side sends a name to its position in that order. *)
Theorem chart_nodes_are_the_distinct_names (couples : list Chart2.Couple) :
  let S := Chart2.sources couples in
  let O := Chart2.objectives couples in
  Chart2.order S = Chart2.firsts (map Chart2.source_name couples) /\
  Chart2.order O = Chart2.firsts (map Chart2.objective_name couples) /\
  (forall c rest, couples = c :: rest ->
     hd_error (Chart2.order S) = Some (Chart2.source_name c) /\
     hd_error (Chart2.order O) = Some (Chart2.objective_name c)) /\
  NoDup (Chart2.order S) /\ NoDup (Chart2.order O) /\
  (forall nm, In nm (Chart2.order S) <->
              exists c, In c couples /\ Chart2.source_name c = nm) /\
  (forall nm, In nm (Chart2.order O) <->
              exists c, In c couples /\ Chart2.objective_name c = nm) /\
  (forall nm, In nm (Chart2.order S) \/ In nm (Chart2.order O) -> nm <> []) /\
  (forall nm i, Model.map_get str_eqb nm (Chart2.index_of S) = Some i <->
                nth_error (Chart2.order S) i = Some nm) /\
  (forall nm i, Model.map_get str_eqb nm (Chart2.index_of O) = Some i <->
                nth_error (Chart2.order O) i = Some nm).
Proof.
  intros S O.
  destruct (order_fold_ok Chart2.source_name couples _ empty_order_ok)
    as [(_ & HndS & HidxS) HinS].
  destruct (order_fold_ok Chart2.objective_name couples _ empty_order_ok)
    as [(_ & HndO & HidxO) HinO].
  fold (Chart2.sources couples) in HndS, HidxS, HinS.
  fold (Chart2.objectives couples) in HndO, HidxO, HinO.
  fold S in HndS, HidxS, HinS. fold O in HndO, HidxO, HinO.
  assert (HS : forall nm, In nm (Chart2.order S) <->
                 exists c, In c couples /\ Chart2.source_name c = nm).
  { intros nm. rewrite HinS. cbn. tauto. }
  assert (HO : forall nm, In nm (Chart2.order O) <->
                 exists c, In c couples /\ Chart2.objective_name c = nm).
  { intros nm. rewrite HinO. cbn. tauto. }
  assert (HfS : Chart2.order S = Chart2.firsts (map Chart2.source_name couples))
    by apply sides_are_firsts.
  assert (HfO : Chart2.order O = Chart2.firsts (map Chart2.objective_name couples))
    by apply sides_are_firsts.
  split; [exact HfS|]. split; [exact HfO|].
  split.
  { intros c rest ->. rewrite HfS, HfO. split; reflexivity. }
  repeat split; try assumption; try (now apply HS); try (now apply HO);
    try (now apply HidxS); try (now apply HidxO).
  intros nm [H|H].
  - apply HS in H as (c & _ & <-). now apply name_or_nonempty.
  - apply HO in H as (c & _ & <-). now apply name_or_nonempty.
Qed.

(** Couples naming the sources B, A, B and the objectives X, X, Y: the
    sources are drawn in the order B, A and the objectives in the order
    X, Y. *)
Example chart_sides_in_table_order :
  let couple src obj :=
    {| Chart2.c_source := src; Chart2.c_objectif := obj;
       Chart2.c_motivation := VNum (Int 2); Chart2.c_ressources := VNum (Int 2);
       Chart2.c_priorite := VNum (Int 1); Chart2.c_retenue := VBool true;
       Chart2.c_justification := [] |} in
  let couples := [couple (lit "B") (lit "X"); couple (lit " A ") (lit "X");
                  couple (lit "B") (lit "Y")] in
  Chart2.order (Chart2.sources couples) = [lit "B"; lit "A"] /\
  Chart2.order (Chart2.objectives couples) = [lit "X"; lit "Y"].
Proof. split; reflexivity. Qed.

Lemma assoc_get_map_get {V : Type} (k : jsstring) (l : list (jsstring * V)) :
  assoc_get k l = Model.map_get str_eqb k l.
Proof. induction l as [|[k' v] l IH]; cbn; [reflexivity|now rewrite IH]. Qed.

Lemma assoc_set_map_set {V : Type} (k : jsstring) (v : V) (l : list (jsstring * V)) :
  assoc_set k v l = Model.map_set str_eqb k v l.
Proof. induction l as [|[k' v'] l IH]; cbn; [reflexivity|now rewrite IH]. Qed.

Lemma place_get_other (prefix key : jsstring) (names : list jsstring) (k : nat)
  (pos : list (jsstring * nat)) :
  (forall nm, In nm names -> prefix ++ nm <> key) ->
  assoc_get key (Chart2.place prefix names k pos) = assoc_get key pos.
Proof.
  revert k pos. induction names as [|n0 rest IH]; intros k pos Hne; cbn [Chart2.place];
    [reflexivity|].
  rewrite IH by (intros nm Hnm; apply Hne; now right).
  rewrite assoc_get_map_get, assoc_set_map_set.
  rewrite (map_get_set_other _ str_eqb_eq); [now rewrite assoc_get_map_get|].
  apply Hne. now left.
Qed.

Lemma place_get_in (prefix : jsstring) (names : list jsstring) (k i : nat)
  (nm : jsstring) (pos : list (jsstring * nat)) :
  NoDup names -> nth_error names i = Some nm ->
  assoc_get (prefix ++ nm) (Chart2.place prefix names k pos) = Some (S (k + i)).
Proof.
  revert k i pos. induction names as [|n0 rest IH]; intros k i pos Hnd Hi;
    [destruct i; discriminate|].
  inversion Hnd as [|? ? Hn0 Hrest]; subst. cbn [Chart2.place].
  destruct i as [|i]; cbn in Hi.
  - injection Hi as <-. rewrite place_get_other.
    + rewrite assoc_get_map_get, assoc_set_map_set, (map_get_set_same _ str_eqb_eq).
      f_equal. lia.
    + intros nm Hnm Heq. apply app_inv_head in Heq. congruence.
  - rewrite (IH (S k) i) by assumption. f_equal. lia.
Qed.

(** X9. Every couple gets its edge in the network of Atelier 2: the edges
    are, couple by couple and in the order of the table, the line from the
    node of the source of the couple to the node of its objective, with the
    pertinence level of the couple; the ranks of both ends are positions of
    their side, counted from 1. *)
Theorem chart_draws_one_edge_per_couple (couples : list Chart2.Couple) :
  let S := Chart2.sources couples in
  let O := Chart2.objectives couples in
  Chart2.edges couples
  = map (fun c =>
           {| Chart2.from_rank := Chart2.rank_in S (Chart2.source_name c);
              Chart2.to_rank := Chart2.rank_in O (Chart2.objective_name c);
              Chart2.drawn := Srov.chart_edge (Chart2.to_stored c) |})
        couples /\
  (forall c, In c couples ->
     nth_error (Chart2.order S) (Chart2.rank_in S (Chart2.source_name c) - 1)
     = Some (Chart2.source_name c) /\
     nth_error (Chart2.order O) (Chart2.rank_in O (Chart2.objective_name c) - 1)
     = Some (Chart2.objective_name c) /\
     (1 <= Chart2.rank_in S (Chart2.source_name c) <= List.length (Chart2.order S))%nat /\
     (1 <= Chart2.rank_in O (Chart2.objective_name c) <= List.length (Chart2.order O))%nat).
Proof.
  intros S O.
  destruct (order_fold_ok Chart2.source_name couples _ empty_order_ok)
    as [(_ & HndS & HidxS) HinS0].
  destruct (order_fold_ok Chart2.objective_name couples _ empty_order_ok)
    as [(_ & HndO & HidxO) HinO0].
  fold (Chart2.sources couples) in HndS, HidxS, HinS0.
  fold (Chart2.objectives couples) in HndO, HidxO, HinO0.
  fold S in HndS, HidxS, HinS0. fold O in HndO, HidxO, HinO0.
  assert (HinS : forall nm, In nm (Chart2.order S) <->
                 exists c, In c couples /\ Chart2.source_name c = nm).
  { intros nm. rewrite HinS0. cbn. tauto. }
  assert (HinO : forall nm, In nm (Chart2.order O) <->
                 exists c, In c couples /\ Chart2.objective_name c = nm).
  { intros nm. rewrite HinO0. cbn. tauto. }
  assert (Hrank : forall c, In c couples ->
             exists i j,
               Model.map_get str_eqb (Chart2.source_name c) (Chart2.index_of S) = Some i /\
               Model.map_get str_eqb (Chart2.objective_name c) (Chart2.index_of O) = Some j /\
               nth_error (Chart2.order S) i = Some (Chart2.source_name c) /\
               nth_error (Chart2.order O) j = Some (Chart2.objective_name c)).
  { intros c Hc.
    assert (Hs : In (Chart2.source_name c) (Chart2.order S)) by (apply HinS; now exists c).
    assert (Ho : In (Chart2.objective_name c) (Chart2.order O)) by (apply HinO; now exists c).
    apply In_nth_error in Hs as [i Hi]. apply In_nth_error in Ho as [j Hj].
    exists i, j. repeat split; try assumption; [now apply HidxS|now apply HidxO]. }
  split.
  - unfold Chart2.edges.
    assert (Hgen : forall l, (forall c, In c l -> In c couples) ->
               flat_map
                 (fun c =>
                    match assoc_get (lit "src:" ++ Chart2.source_name c)
                            (Chart2.positions couples),
                          assoc_get (lit "obj:" ++ Chart2.objective_name c)
                            (Chart2.positions couples) with
                    | Some sPos, Some oPos =>
                        [{| Chart2.from_rank := sPos; Chart2.to_rank := oPos;
                            Chart2.drawn := Srov.chart_edge (Chart2.to_stored c) |}]
                    | _, _ => []
                    end) l
               = map (fun c =>
                        {| Chart2.from_rank := Chart2.rank_in S (Chart2.source_name c);
                           Chart2.to_rank := Chart2.rank_in O (Chart2.objective_name c);
                           Chart2.drawn := Srov.chart_edge (Chart2.to_stored c) |}) l).
    { induction l as [|c l IH]; intros Hl; [reflexivity|].
      cbn [flat_map map]. rewrite IH by (intros c' Hc'; apply Hl; now right).
      destruct (Hrank c (Hl c (or_introl eq_refl))) as (i & j & Gi & Gj & Hi & Hj).
      unfold Chart2.positions. fold S. fold O.
      rewrite (place_get_other (lit "obj:") (lit "src:" ++ Chart2.source_name c))
        by (intros nm _; discriminate).
      rewrite (place_get_in (lit "src:") _ 0 i) by assumption.
      rewrite (place_get_in (lit "obj:") _ 0 j) by assumption.
      unfold Chart2.rank_in. rewrite Gi, Gj. reflexivity. }
    apply Hgen. auto.
  - intros c Hc. destruct (Hrank c Hc) as (i & j & Gi & Gj & Hi & Hj).
    unfold Chart2.rank_in. rewrite Gi, Gj. cbn [Nat.sub]. rewrite !Nat.sub_0_r.
    split; [exact Hi|]. split; [exact Hj|].
    assert (i < List.length (Chart2.order S))%nat by (apply nth_error_Some; congruence).
    assert (j < List.length (Chart2.order O))%nat by (apply nth_error_Some; congruence).
    lia.
Qed.

(** *** The priority shown on an objective *)

Lemma priority_step_get (inherited : jsstring -> bool) (obj : list (jsstring * Z))
  (c : Chart2.Couple) (nm : jsstring) :
  (forall k v, assoc_get k obj = Some v -> v <> 0) ->
  (forall k v, assoc_get k (Chart2.priority_step inherited obj c) = Some v -> v <> 0) /\
  assoc_get nm (Chart2.priority_step inherited obj c)
  = if (str_eqb (Chart2.objective_name c) nm && negb (inherited nm))%bool
    then Some (match assoc_get nm obj with
               | None => num_or (parseInt (Chart2.c_priorite c)) 1
               | Some cur => Z.max cur (num_or (parseInt (Chart2.c_priorite c)) 1)
               end)
    else assoc_get nm obj.
Proof.
  intros Hnz. unfold Chart2.priority_step.
  set (o := Chart2.objective_name c). set (prio := num_or (parseInt (Chart2.c_priorite c)) 1).
  assert (Hprio : prio <> 0) by (apply num_or_nonzero; lia).
  assert (Hset : forall k v, assoc_get k (assoc_set o prio obj) = Some v -> v <> 0).
  { intros k v. rewrite assoc_get_map_get, assoc_set_map_set.
    destruct (list_eq_dec N.eq_dec o k) as [<-|Hne].
    - rewrite (map_get_set_same _ str_eqb_eq). now intros [= <-].
    - rewrite (map_get_set_other _ str_eqb_eq) by exact Hne.
      rewrite <- assoc_get_map_get. apply Hnz. }
  destruct (str_eqb o nm) eqn:E.
  - apply str_eqb_eq in E. subst nm.
    destruct (inherited o); cbn [negb andb]; [now split|].
    destruct (assoc_get o obj) as [cur|] eqn:G.
    + pose proof (Hnz o cur G) as Hcur.
      destruct (Z.eqb_spec cur 0); [contradiction|]. cbn [orb].
      destruct (Z.ltb_spec cur prio).
      * split; [exact Hset|].
        rewrite assoc_get_map_get, assoc_set_map_set, (map_get_set_same _ str_eqb_eq).
        f_equal. lia.
      * split; [exact Hnz|]. rewrite G. f_equal. lia.
    + split; [exact Hset|].
      now rewrite assoc_get_map_get, assoc_set_map_set, (map_get_set_same _ str_eqb_eq).
  - cbn [andb].
    assert (Hne : o <> nm) by (intros Heq; apply str_eqb_eq in Heq; congruence).
    assert (Hsame : assoc_get nm (assoc_set o prio obj) = assoc_get nm obj).
    { rewrite !assoc_get_map_get, assoc_set_map_set.
      now apply (map_get_set_other _ str_eqb_eq). }
    destruct (inherited o); [now split|].
    destruct (assoc_get o obj) as [cur|]; [|now split].
    destruct ((cur =? 0) || (cur <? prio))%bool; now split.
Qed.

Lemma priority_fold_get (inherited : jsstring -> bool) (couples : list Chart2.Couple)
  (obj : list (jsstring * Z)) (nm : jsstring) :
  (forall k v, assoc_get k obj = Some v -> v <> 0) ->
  assoc_get nm (fold_left (Chart2.priority_step inherited) couples obj)
  = if inherited nm then assoc_get nm obj
    else Model.seen (assoc_get nm obj) (Chart2.priorities_of couples nm).
Proof.
  revert obj. induction couples as [|c couples IH]; intros obj Hnz; cbn [fold_left].
  - cbn. now destruct (inherited nm).
  - destruct (priority_step_get inherited obj c nm Hnz) as [Hnz' Hget].
    rewrite IH by exact Hnz'. rewrite Hget.
    unfold Chart2.priorities_of. cbn [filter].
    destruct (inherited nm); cbn [negb]; [now rewrite andb_false_r|].
    rewrite andb_true_r.
    destruct (str_eqb (Chart2.objective_name c) nm); reflexivity.
Qed.

(** X10. The priority kept for an objective is the greatest priority of
    the couples that aim at it, each read as [parseInt(priorite) || 1]; an
    objective no couple aims at has none.  For an objective whose name is a
    property every object inherits, nothing is ever stored: the lookup gives
    the inherited property instead of a priority. *)
Theorem objective_priority_is_the_maximum
  (inherited : jsstring -> bool) (couples : list Chart2.Couple) (nm : jsstring) :
  let obj := Chart2.objMaxPriority inherited couples in
  (inherited nm = true -> assoc_get nm obj = None) /\
  (inherited nm = false ->
   assoc_get nm obj
   = match Chart2.priorities_of couples nm with
     | [] => None
     | x :: l => Some (Model.max_from x l)
     end /\
   forall p, assoc_get nm obj = Some p ->
     In p (Chart2.priorities_of couples nm) /\
     forall x, In x (Chart2.priorities_of couples nm) -> x <= p).
Proof.
  intros obj. unfold obj, Chart2.objMaxPriority.
  rewrite priority_fold_get by (intros k v; discriminate).
  split; [now intros ->|]. intros ->. cbn [assoc_get].
  destruct (Chart2.priorities_of couples nm) as [|x l]; [split; [reflexivity|discriminate]|].
  cbn [Model.seen fold_left]. change (fold_left _ l (Some x)) with (Model.seen (Some x) l).
  rewrite seen_some. split; [reflexivity|]. intros p [= <-].
  destruct (max_from_spec l x) as (H1 & H2 & H3). split.
  - destruct H3 as [-> |H3]; [now left|now right].
  - intros y [<-|Hy]; [exact H1|auto].
Qed.

(** *** The compliance chart and the import of actions *)

Lemma whitespace_values (c : N) :
  isWhiteSpace c = true ->
  In c [9; 10; 11; 12; 13; 32; 160; 5760; 8192; 8193; 8194; 8195; 8196; 8197;
        8198; 8199; 8200; 8201; 8202; 8232; 8233; 8239; 8287; 12288; 65279]%N.
Proof.
  unfold isWhiteSpace. rewrite !orb_true_iff, !andb_true_iff, !N.leb_le, !N.eqb_eq.
  intros H.
  assert (Hc : (9 <= c <= 13 \/ c = 32 \/ c = 160 \/ c = 5760 \/ 8192 <= c <= 8202
                \/ c = 8232 \/ c = 8233 \/ c = 8239 \/ c = 8287 \/ c = 12288
                \/ c = 65279)%N) by tauto.
  clear H.
  assert (Hsmall : (9 <= c <= 13 ->
                    c = 9 \/ c = 10 \/ c = 11 \/ c = 12 \/ c = 13)%N) by lia.
  assert (Hquad : (8192 <= c <= 8202 ->
                   c = 8192 \/ c = 8193 \/ c = 8194 \/ c = 8195 \/ c = 8196 \/ c = 8197
                   \/ c = 8198 \/ c = 8199 \/ c = 8200 \/ c = 8201 \/ c = 8202)%N) by lia.
  cbn [In]. intuition auto.
Qed.

Lemma stripped_app (a b : jsstring) : stripped (a ++ b) = stripped a ++ stripped b.
Proof.
  unfold stripped, Text.strip_spaces, Text.strip_diacritics, Text.normalizeNFD.
  now rewrite flat_map_app, !filter_app.
Qed.

Lemma stripped_whitespace (w : jsstring) :
  Forall (fun c => isWhiteSpace c = true) w -> stripped w = [].
Proof.
  induction 1 as [|c w Hc Hw IH]; [reflexivity|].
  change (c :: w) with ([c] ++ w). rewrite stripped_app, IH, app_nil_r.
  apply whitespace_values in Hc. cbn [In] in Hc.
  repeat (destruct Hc as [<-|Hc]; [reflexivity|]). contradiction.
Qed.

Lemma trimStart_split (s : jsstring) :
  exists w, s = w ++ trimStart s /\ Forall (fun c => isWhiteSpace c = true) w.
Proof.
  induction s as [|c s (w & Hs & Hw)]; cbn.
  - exists []. split; [reflexivity|constructor].
  - destruct (isWhiteSpace c) eqn:E.
    + exists (c :: w). split; [cbn; now rewrite <- Hs|now constructor].
    + exists []. split; [reflexivity|constructor].
Qed.

Lemma trim_split (s : jsstring) :
  exists w1 w2,
    s = w1 ++ trim s ++ w2 /\
    Forall (fun c => isWhiteSpace c = true) w1 /\
    Forall (fun c => isWhiteSpace c = true) w2.
Proof.
  destruct (trimStart_split s) as (w1 & Hs & Hw1).
  destruct (trimStart_split (rev (trimStart s))) as (w & Hr & Hw).
  exists w1, (rev w). split; [|split; [exact Hw1|now apply Forall_rev]].
  unfold trim. rewrite <- rev_app_distr, <- Hr, rev_involutive. exact Hs.
Qed.

Lemma is_applied_of_trimmed (q : Model.GapRequirement) :
  Model.is_applied q
  = startsWith (lit "applique")
      (stripped (trim (Text.toLowerCase (Model.application q)))).
Proof.
  unfold Model.is_applied, Model.application_prefix.
  change (Text.strip_spaces
            (Text.strip_diacritics
               (Text.normalizeNFD (Text.toLowerCase (Model.application q)))))
    with (stripped (Text.toLowerCase (Model.application q))).
  destruct (trim_split (Text.toLowerCase (Model.application q)))
    as (w1 & w2 & Hs & Hw1 & Hw2).
  rewrite Hs at 1. rewrite !stripped_app, (stripped_whitespace w1 Hw1),
    (stripped_whitespace w2 Hw2), app_nil_r. reflexivity.
Qed.

Lemma count_step_total (c : GapChart.Counts) (q : Model.GapRequirement) :
  0 <= GapChart.applique c -> 0 <= GapChart.partiel c ->
  0 <= GapChart.non c -> 0 <= GapChart.nonApp c ->
  let c' := GapChart.count_step c q in
  0 <= GapChart.applique c' /\ 0 <= GapChart.partiel c' /\
  0 <= GapChart.non c' /\ 0 <= GapChart.nonApp c' /\
  GapChart.total c'
  = GapChart.total c + (match GapChart.status_of q with Some _ => 1 | None => 0 end).
Proof.
  intros H1 H2 H3 H4. unfold GapChart.count_step, GapChart.total.
  destruct (GapChart.status_of q) as [[]|]; cbn; repeat split; lia.
Qed.

Lemma counts_fold_total (l : list Model.GapRequirement) (c : GapChart.Counts) :
  0 <= GapChart.applique c -> 0 <= GapChart.partiel c ->
  0 <= GapChart.non c -> 0 <= GapChart.nonApp c ->
  let c' := fold_left GapChart.count_step l c in
  0 <= GapChart.applique c' /\ 0 <= GapChart.partiel c' /\
  0 <= GapChart.non c' /\ 0 <= GapChart.nonApp c' /\
  GapChart.total c' = GapChart.total c + Z.of_nat (List.length (filter recognised l)).
Proof.
  revert c. induction l as [|q l IH]; intros c H1 H2 H3 H4; cbn [fold_left filter].
  - cbn. repeat split; try assumption. lia.
  - destruct (count_step_total c q H1 H2 H3 H4) as (G1 & G2 & G3 & G4 & Gt).
    destruct (IH _ G1 G2 G3 G4) as (K1 & K2 & K3 & K4 & Kt).
    repeat split; try assumption. rewrite Kt, Gt. unfold recognised.
    destruct (GapChart.status_of q); cbn [List.length]; lia.
Qed.

(** X11. The compliance chart counts a requirement at most once: the four
    counts add up to the number of requirements whose status is one of the
    four known ones, and the chart shows "Aucune exigence" exactly when
    there is none.  The chart and the import of actions agree: a
    requirement the chart counts as applied is never offered for import, and
    one it counts as partially applied, not applied or not applicable always
    is. *)
Theorem gap_chart_counts_and_import_agree (g : option (list Model.GapRequirement)) :
  let reqs := match g with Some l => l | None => [] end in
  let c := GapChart.counts_of g in
  GapChart.total c = Z.of_nat (List.length (filter recognised reqs)) /\
  GapChart.total c <= Z.of_nat (List.length reqs) /\
  0 <= GapChart.applique c /\ 0 <= GapChart.partiel c /\
  0 <= GapChart.non c /\ 0 <= GapChart.nonApp c /\
  (GapChart.updateGapChart g = GapChart.NoRequirement <->
   forall q, In q reqs -> GapChart.status_of q = None) /\
  (forall q : Model.GapRequirement,
      (GapChart.status_of q = Some GapChart.Applique -> Model.is_applied q = true) /\
      (GapChart.status_of q = Some GapChart.Partiel -> Model.is_applied q = false) /\
      (GapChart.status_of q = Some GapChart.Non -> Model.is_applied q = false) /\
      (GapChart.status_of q = Some GapChart.NonApp -> Model.is_applied q = false)).
Proof.
  intros reqs c.
  destruct (counts_fold_total reqs
              {| GapChart.applique := 0; GapChart.partiel := 0;
                 GapChart.non := 0; GapChart.nonApp := 0 |}
              (Z.le_refl 0) (Z.le_refl 0) (Z.le_refl 0) (Z.le_refl 0))
    as (H1 & H2 & H3 & H4 & Ht).
  change (fold_left GapChart.count_step reqs _) with c in H1, H2, H3, H4, Ht.
  change (GapChart.total _ + ?n) with (0 + n) in Ht. rewrite Z.add_0_l in Ht.
  split; [exact Ht|].
  split; [rewrite Ht; pose proof (filter_length_le recognised reqs); lia|].
  split; [exact H1|]. split; [exact H2|]. split; [exact H3|]. split; [exact H4|].
  split.
  { unfold GapChart.updateGapChart. fold c. rewrite Ht.
    destruct (Z.eqb_spec (Z.of_nat (List.length (filter recognised reqs))) 0) as [E|E].
    - split; [|reflexivity]. intros _ q Hq.
      destruct (filter recognised reqs) as [|x l] eqn:F; [|cbn in E; lia].
      destruct (GapChart.status_of q) eqn:St; [|reflexivity].
      assert (Hin : In q (filter recognised reqs)).
      { apply filter_In. split; [exact Hq|]. unfold recognised. now rewrite St. }
      rewrite F in Hin. contradiction.
    - split; [discriminate|]. intros Hnone. exfalso. apply E.
      destruct (filter recognised reqs) as [|x l] eqn:F; [reflexivity|].
      assert (Hx : In x (filter recognised reqs)) by (rewrite F; now left).
      apply filter_In in Hx as [Hx Hr]. unfold recognised in Hr.
      now rewrite (Hnone x Hx) in Hr. }
  intros q. rewrite is_applied_of_trimmed. unfold GapChart.status_of.
  set (val := trim (Text.toLowerCase (Model.application q))).
  destruct (str_eqb val (GapChart.accented "appliqu")) eqn:E1.
  { apply str_eqb_eq in E1. rewrite E1. cbn [orb].
    repeat split; try discriminate. }
  destruct (str_eqb val (lit "applique")) eqn:E2.
  { apply str_eqb_eq in E2. rewrite E2. cbn [orb].
    repeat split; try discriminate. }
  cbn [orb].
  destruct (str_eqb val (GapChart.accented "partiellement appliqu")) eqn:E3.
  { apply str_eqb_eq in E3. rewrite E3. cbn [orb].
    repeat split; try discriminate. }
  destruct (str_eqb val (lit "partiellement applique")) eqn:E4.
  { apply str_eqb_eq in E4. rewrite E4. cbn [orb].
    repeat split; try discriminate. }
  cbn [orb].
  destruct (str_eqb val (GapChart.accented "non appliqu")) eqn:E5.
  { apply str_eqb_eq in E5. rewrite E5. cbn [orb].
    repeat split; try discriminate. }
  destruct (str_eqb val (lit "non applique")) eqn:E6.
  { apply str_eqb_eq in E6. rewrite E6. cbn [orb].
    repeat split; try discriminate. }
  cbn [orb].
  destruct (str_eqb val (lit "non applicable")) eqn:E7.
  { apply str_eqb_eq in E7. rewrite E7.
    repeat split; try discriminate. }
  cbn [orb]. repeat split; discriminate.
Qed.

(** *** The library of techniques *)

Lemma split_lines_from_single (cur text : jsstring) :
  (forall c, In c text -> c <> 10%N) ->
  Mitre.split_lines_from cur text = [rev cur ++ text].
Proof.
  revert cur. induction text as [|c text IH]; intros cur Hno; cbn.
  - now rewrite app_nil_r.
  - destruct (N.eqb_spec c 10) as [->|_].
    + exfalso. now apply (Hno 10%N (or_introl eq_refl)).
    + rewrite IH by (intros c' Hc'; apply Hno; now right).
      cbn. now rewrite <- app_assoc.
Qed.

Lemma row_step_get (cs : Mitre.Columns) (m : list (jsstring * Mitre.Technique))
  (row tid : jsstring) :
  tid <> [] ->
  Model.map_get str_eqb tid (Mitre.row_step cs m row)
  = if str_eqb (Mitre.row_tid cs row) tid
    then Some (extended cs (Model.map_get str_eqb tid m) row)
    else Model.map_get str_eqb tid m.
Proof.
  intros Htid. unfold Mitre.row_step, Mitre.row_tid, extended, Mitre.row_mitigation,
    Mitre.opened.
  destruct (trim row) as [|c0 r0].
  { destruct tid; [contradiction|reflexivity]. }
  set (cols := Mitre.split_commas row).
  destruct (Mitre.column cols (Mitre.idIndex cs)) as [|c1 r1] eqn:T.
  { destruct tid; [contradiction|reflexivity]. }
  destruct (str_eqb (c1 :: r1) tid) eqn:E.
  - apply str_eqb_eq in E. subst tid.
    destruct (Model.map_get str_eqb (c1 :: r1) m) as [e|] eqn:G.
    + rewrite G. destruct (Mitre.column cols (Mitre.mitIdIndex cs)); [exact G|].
      now rewrite (map_get_set_same _ str_eqb_eq).
    + rewrite (map_get_set_same _ str_eqb_eq).
      destruct (Mitre.column cols (Mitre.mitIdIndex cs)).
      * now rewrite (map_get_set_same _ str_eqb_eq).
      * now rewrite (map_get_set_same _ str_eqb_eq).
  - assert (Hne : c1 :: r1 <> tid) by (intros H; apply str_eqb_eq in H; congruence).
    assert (H1 : forall (v : Mitre.Technique) mp, Model.map_get str_eqb tid (Model.map_set str_eqb (c1 :: r1) v mp)
                              = Model.map_get str_eqb tid mp).
    { intros v mp. now apply (map_get_set_other _ str_eqb_eq). }
    destruct (Model.map_get str_eqb (c1 :: r1) m) as [e|] eqn:G.
    + rewrite G. destruct (Mitre.column cols (Mitre.mitIdIndex cs)); [reflexivity|].
      apply H1.
    + rewrite (map_get_set_same _ str_eqb_eq).
      destruct (Mitre.column cols (Mitre.mitIdIndex cs)); [apply H1|].
      now rewrite !H1.
Qed.

Lemma rows_fold_get (cs : Mitre.Columns) (rows : list jsstring)
  (m : list (jsstring * Mitre.Technique)) (tid : jsstring) :
  tid <> [] ->
  Model.map_get str_eqb tid (fold_left (Mitre.row_step cs) rows m)
  = fold_left (fun o row => Some (extended cs o row)) (Mitre.rows_of cs tid rows)
      (Model.map_get str_eqb tid m).
Proof.
  intros Htid. revert m. induction rows as [|row rows IH]; intros m; [reflexivity|].
  cbn [fold_left]. rewrite IH, row_step_get by exact Htid.
  unfold Mitre.rows_of. cbn [filter].
  destruct (str_eqb (Mitre.row_tid cs row) tid); reflexivity.
Qed.

Lemma extended_fold_some (cs : Mitre.Columns) (rows : list jsstring) (e : Mitre.Technique) :
  fold_left (fun o row => Some (extended cs o row)) rows (Some e)
  = Some {| Mitre.tech_id := Mitre.tech_id e; Mitre.title := Mitre.title e;
            Mitre.tech_description := Mitre.tech_description e;
            Mitre.mitigations := Mitre.mitigations e ++ Mitre.picks cs rows |}.
Proof.
  revert e. induction rows as [|row rows IH]; intros e; cbn [fold_left].
  - destruct e. cbn. now rewrite app_nil_r.
  - rewrite IH. unfold extended, Mitre.picks. cbn [flat_map].
    destruct (Mitre.row_mitigation cs row); cbn; [|reflexivity].
    now rewrite <- app_assoc.
Qed.

Lemma map_set_In {V : Type} (k : jsstring) (v : V) (m : list (jsstring * V)) (k' : jsstring)
  (v' : V) :
  In (k', v') (Model.map_set str_eqb k v m) -> (k' = k /\ v' = v) \/ In (k', v') m.
Proof.
  induction m as [|[k0 v0] m IH]; cbn.
  - intros [[= <- <-]|[]]. now left.
  - destruct (str_eqb k0 k) eqn:E; cbn.
    + apply str_eqb_eq in E. subst k0. intros [[= <- <-]|H]; [now left|right; now right].
    + intros [H|H]; [right; now left|]. destruct (IH H) as [H'|H']; [now left|right; now right].
Qed.

Lemma map_set_NoDup {V : Type} (k : jsstring) (v : V) (m : list (jsstring * V)) :
  NoDup (map fst m) -> NoDup (map fst (Model.map_set str_eqb k v m)).
Proof.
  intros Hnd. destruct (map_set_keys str_eqb str_eqb_eq k v m) as [Hin Hout].
  destruct (in_dec (list_eq_dec N.eq_dec) k (map fst m)) as [Hk|Hk].
  - now rewrite (Hin Hk).
  - rewrite (Hout Hk). apply NoDup_app; [exact Hnd|repeat constructor; intros []|].
    intros x Hx [<-|[]]. contradiction.
Qed.

Lemma map_get_In {V : Type} (k : jsstring) (m : list (jsstring * V)) (v : V) :
  Model.map_get str_eqb k m = Some v -> In (k, v) m.
Proof.
  induction m as [|[k0 v0] m IH]; cbn; [discriminate|].
  destruct (str_eqb k0 k) eqn:E.
  - apply str_eqb_eq in E. intros [= <-]. left. congruence.
  - intros H. right. now apply IH.
Qed.

Lemma In_map_get {V : Type} (k : jsstring) (m : list (jsstring * V)) (v : V) :
  NoDup (map fst m) -> In (k, v) m -> Model.map_get str_eqb k m = Some v.
Proof.
  induction m as [|[k0 v0] m IH]; cbn; [intros _ []|].
  intros Hnd [[= -> ->]|Hin].
  - assert (E : str_eqb k k = true) by now apply str_eqb_eq. now rewrite E.
  - inversion Hnd as [|? ? Hk0 Hm]; subst.
    destruct (str_eqb k0 k) eqn:E; [|auto].
    apply str_eqb_eq in E. subst k0. exfalso. apply Hk0.
    apply in_map_iff. now exists (k, v).
Qed.

Lemma row_step_ok (cs : Mitre.Columns) (m : list (jsstring * Mitre.Technique))
  (row : jsstring) :
  techniques_ok m -> techniques_ok (Mitre.row_step cs m row).
Proof.
  intros [Hnd Hall]. unfold Mitre.row_step.
  destruct (trim row); [now split|].
  set (cols := Mitre.split_commas row).
  destruct (Mitre.column cols (Mitre.idIndex cs)) as [|c1 r1] eqn:T; [now split|].
  set (tid := c1 :: r1).
  assert (Hmap1 : techniques_ok
                    match Model.map_get str_eqb tid m with
                    | Some _ => m
                    | None =>
                        Model.map_set str_eqb tid
                          {| Mitre.tech_id := tid;
                             Mitre.title := Mitre.column cols (Mitre.nameIndex cs);
                             Mitre.tech_description := Mitre.column cols (Mitre.descIndex cs);
                             Mitre.mitigations := [] |} m
                    end).
  { destruct (Model.map_get str_eqb tid m); [now split|]. split.
    - now apply map_set_NoDup.
    - intros k t Hin. apply map_set_In in Hin as [[-> ->]|Hin]; [|now apply Hall].
      split; [reflexivity|discriminate]. }
  destruct Hmap1 as [Hnd1 Hall1].
  destruct (Mitre.column cols (Mitre.mitIdIndex cs)) as [|c2 r2]; [now split|].
  match goal with
  | |- techniques_ok match ?g with _ => _ end => destruct g as [entry|] eqn:G
  end; [|now split].
  split.
  - now apply map_set_NoDup.
  - intros k t Hin. apply map_set_In in Hin as [[-> ->]|Hin]; [|now apply Hall1].
    apply map_get_In in G. destruct (Hall1 _ _ G) as [Hid Hne].
    split; [exact Hid|exact Hne].
Qed.

Lemma rows_fold_ok (cs : Mitre.Columns) (rows : list jsstring)
  (m : list (jsstring * Mitre.Technique)) :
  techniques_ok m -> techniques_ok (fold_left (Mitre.row_step cs) rows m).
Proof.
  revert m. induction rows as [|row rows IH]; intros m Hok; [exact Hok|].
  cbn [fold_left]. apply IH. now apply row_step_ok.
Qed.

(** X12. The techniques [parseMitreCsv] returns have distinct, non-empty
    identifiers.  A text without a line feed gives no technique, and so does
    a text whose first line names no column "technique id". *)
Theorem parsed_techniques_have_distinct_ids (text : jsstring) :
  NoDup (map Mitre.tech_id (Mitre.parseMitreCsv text)) /\
  (forall t, In t (Mitre.parseMitreCsv text) -> Mitre.tech_id t <> []) /\
  ((forall c, In c text -> c <> 10%N) -> Mitre.parseMitreCsv text = []) /\
  (Mitre.idIndex
     (Mitre.columns_of (Mitre.split_commas (hd [] (Mitre.split_lines text)))) = None ->
   Mitre.parseMitreCsv text = []).
Proof.
  unfold Mitre.parseMitreCsv.
  destruct (Mitre.split_lines text) as [|header [|row1 more]] eqn:L.
  - repeat split; try constructor; try contradiction; reflexivity.
  - repeat split; try constructor; try contradiction; reflexivity.
  - set (cs := Mitre.columns_of (Mitre.split_commas header)).
    destruct (rows_fold_ok cs (row1 :: more) []) as [Hnd Hall].
    { split; [constructor|intros k t []]. }
    set (M := fold_left (Mitre.row_step cs) (row1 :: more) []) in *.
    assert (Hids : map Mitre.tech_id (map snd M) = map fst M).
    { rewrite map_map. apply map_ext_in. intros [k t] Hin. cbn.
      now destruct (Hall k t Hin). }
    split; [now rewrite Hids|]. split.
    { intros t Ht. apply in_map_iff in Ht as ([k t'] & <- & Hin). cbn.
      destruct (Hall k t' Hin) as [-> Hne]. exact Hne. }
    split.
    { intros Hno. unfold Mitre.split_lines in L.
      rewrite split_lines_from_single in L by exact Hno. discriminate. }
    cbn [hd]. fold cs. intros Hnone.
    assert (Hempty : forall rows m, fold_left (Mitre.row_step cs) rows m = m).
    { induction rows as [|row rows IH]; intros m; [reflexivity|].
      cbn [fold_left]. rewrite <- (IH m) at 2. f_equal.
      unfold Mitre.row_step. rewrite Hnone. cbn [Mitre.column].
      now destruct (trim row). }
    unfold M. now rewrite Hempty.
Qed.

(** X13. Rows are grouped by technique: each technique returned carries
    the name and the description of the first row with its identifier, and
    the mitigations of all the rows with its identifier, in the order of the
    text (a row without mitigation id adds none); every row with a technique
    id has its technique in the result.  Blank rows and rows without
    technique id are skipped. *)
Theorem parsed_techniques_group_rows
  (text header : jsstring) (rows : list jsstring) :
  Mitre.split_lines text = header :: rows ->
  rows <> [] ->
  let cs := Mitre.columns_of (Mitre.split_commas header) in
  (forall t, In t (Mitre.parseMitreCsv text) ->
     exists r0 rest,
       Mitre.rows_of cs (Mitre.tech_id t) rows = r0 :: rest /\
       Mitre.title t = Mitre.title (Mitre.opened cs r0) /\
       Mitre.tech_description t = Mitre.tech_description (Mitre.opened cs r0) /\
       Mitre.mitigations t = Mitre.picks cs (Mitre.rows_of cs (Mitre.tech_id t) rows)) /\
  (forall row, In row rows -> Mitre.row_tid cs row <> [] ->
     exists t, In t (Mitre.parseMitreCsv text) /\ Mitre.tech_id t = Mitre.row_tid cs row).
Proof.
  intros L Hrows cs. unfold Mitre.parseMitreCsv. rewrite L.
  destruct rows as [|row1 more]; [contradiction|]. fold cs.
  destruct (rows_fold_ok cs (row1 :: more) []) as [Hnd Hall].
  { split; [constructor|intros k t []]. }
  set (rows := row1 :: more) in *.
  set (M := fold_left (Mitre.row_step cs) rows []) in *.
  assert (Hget : forall tid, tid <> [] ->
             Model.map_get str_eqb tid M
             = match Mitre.rows_of cs tid rows with
               | [] => None
               | r0 :: rest =>
                   Some {| Mitre.tech_id := Mitre.tech_id (Mitre.opened cs r0);
                           Mitre.title := Mitre.title (Mitre.opened cs r0);
                           Mitre.tech_description :=
                             Mitre.tech_description (Mitre.opened cs r0);
                           Mitre.mitigations := Mitre.picks cs (r0 :: rest) |}
               end).
  { intros tid Htid. unfold M. rewrite rows_fold_get by exact Htid. cbn [Model.map_get].
    destruct (Mitre.rows_of cs tid rows) as [|r0 rest]; [reflexivity|].
    cbn [fold_left]. rewrite extended_fold_some. unfold extended, Mitre.picks.
    cbn [flat_map]. destruct (Mitre.row_mitigation cs r0); reflexivity. }
  split.
  - intros t Ht. apply in_map_iff in Ht as ([k t'] & Heq & Hin). cbn in Heq. subst t'.
    destruct (Hall k t Hin) as [Hid Hne]. subst k.
    pose proof (In_map_get _ _ _ Hnd Hin) as G. rewrite Hget in G by exact Hne.
    destruct (Mitre.rows_of cs (Mitre.tech_id t) rows) as [|r0 rest]; [discriminate|].
    injection G as <-. exists r0, rest. repeat split.
  - intros row Hrow Htid.
    specialize (Hget (Mitre.row_tid cs row) Htid).
    destruct (Mitre.rows_of cs (Mitre.row_tid cs row) rows) as [|r0 rest] eqn:R.
    + exfalso. assert (Hin : In row (Mitre.rows_of cs (Mitre.row_tid cs row) rows)).
      { apply filter_In. split; [exact Hrow|]. now apply str_eqb_eq. }
      rewrite R in Hin. contradiction.
    + apply map_get_In in Hget. eexists. split.
      * apply in_map_iff. eexists. split; [|exact Hget]. reflexivity.
      * cbn [snd Mitre.tech_id].
        assert (Hr0 : In r0 (Mitre.rows_of cs (Mitre.row_tid cs row) rows))
          by (rewrite R; now left).
        apply filter_In in Hr0 as [_ Hr0]. apply str_eqb_eq in Hr0.
        rewrite <- Hr0. unfold Mitre.row_tid, Mitre.opened. cbn [Mitre.tech_id].
        destruct (trim r0) eqn:T; [|reflexivity].
        exfalso. apply Htid. rewrite <- Hr0. unfold Mitre.row_tid. now rewrite T.
Qed.

Lemma parsed_techniques_group_rows_witness :
  exists t,
    In t (Mitre.parseMitreCsv Samples.csv) /\
    Mitre.tech_id t = lit "T1" /\
    Mitre.title t = lit "Phishing" /\
    map Mitre.mit_id (Mitre.mitigations t) = [lit "M1"; lit "M2"].
Proof.
  destruct (parsed_techniques_group_rows Samples.csv Samples.csv_header Samples.csv_rows
              eq_refl) as [Hgroup Hall].
  { discriminate. }
  destruct (Hall (lit "T1,Other,M2")) as (t & Hin & Hid).
  { right. now left. }
  { discriminate. }
  exists t. split; [exact Hin|]. split; [exact Hid|].
  destruct (Hgroup t Hin) as (r0 & rest & Hrows & Htitle & _ & Hmits).
  rewrite Hid in Hrows, Hmits. rewrite Htitle, Hmits.
  injection Hrows as <- _. split; reflexivity.
Defined.

(** *** The level of the indice de menace *)

Lemma ratio_ge_quotient (expo niveau k : Z) :
  niveau <> 0 ->
  Z.abs expo < 9007199254740992 -> Z.abs niveau < 4503599627370496 ->
  1 <= k <= 4 ->
  Ppc.ratio_ge (Ppc.indice_expr expo niveau) k = (k <=? expo / niveau).
Proof.
  intros Hn He Hv Hk. rewrite indice_expr_cases.
  destruct (Z.eqb_spec niveau 0); [contradiction|].
  now apply fl_div_ge.
Qed.

(** X14. For scores below 2^26 in magnitude, the level shown for the
    indice de menace of a cartography row is the integer part of
    exposition / niveau SSI (rounded down), kept between 1 and 4; the
    thresholds 13, 9 and 5 of the exposition play no part in it. *)
Theorem indice_level_is_clamped_quotient (entry : Ppc.Item) :
  Ppc.bounded entry ->
  let d := Ppc.updateDerivedCells entry in
  Ppc.indLvl d = Z.max 1 (Z.min 4 (Ppc.expo d / Ppc.niveau d)) /\
  Ppc.indice_color d = Srov.levelColor (Z.max 1 (Z.min 4 (Ppc.expo d / Ppc.niveau d))).
Proof.
  intros Hb d. pose proof (niveau_nonzero entry) as Hn. fold d in Hn.
  destruct (bounded_products entry Hb) as [He Hv]. fold d in He, Hv.
  assert (Hlvl : Ppc.indLvl d = Z.max 1 (Z.min 4 (Ppc.expo d / Ppc.niveau d))).
  { change (Ppc.indLvl d)
      with (if Ppc.ratio_ge (Ppc.indice_expr (Ppc.expo d) (Ppc.niveau d)) 4 then 4
            else if Ppc.ratio_ge (Ppc.indice_expr (Ppc.expo d) (Ppc.niveau d)) 3 then 3
            else if Ppc.ratio_ge (Ppc.indice_expr (Ppc.expo d) (Ppc.niveau d)) 2 then 2
            else 1).
    rewrite !ratio_ge_quotient by (try exact Hn; lia).
    destruct (Z.leb_spec 4 (Ppc.expo d / Ppc.niveau d)),
             (Z.leb_spec 3 (Ppc.expo d / Ppc.niveau d)),
             (Z.leb_spec 2 (Ppc.expo d / Ppc.niveau d)); lia. }
  split; [exact Hlvl|].
  change (Ppc.indice_color d) with (Srov.levelColor (Ppc.indLvl d)). now rewrite Hlvl.
Qed.

Lemma indice_level_is_clamped_quotient_witness :
  Ppc.indLvl (Ppc.updateDerivedCells (Ppc.normalize [] Samples.ppc_balanced)) = 2.
Proof.
  destruct (indice_level_is_clamped_quotient (Ppc.normalize [] Samples.ppc_balanced))
    as [Hlvl _].
  { repeat split. }
  rewrite Hlvl. reflexivity.
Defined.

(** Beyond the bound the rounding of the division shows: with an
    exposition of 13510798882111490 and a niveau SSI of 4503599627370497 the
    quotient is below 3 and the double nearest to it is 3, so the level
    is 3. *)
Example indice_level_beyond_the_bound :
  let d := Ppc.updateDerivedCells
             {| Ppc.id := VStr (lit "id-p4"); Ppc.nom := VStr []; Ppc.categorie := VStr [];
                Ppc.supportIds := []; Ppc.valueIds := [];
                Ppc.dependance := Int 6755399441055745; Ppc.penetration := Int 2;
                Ppc.maturite := Int 4503599627370497; Ppc.confiance := Int 1 |} in
  Ppc.expo d / Ppc.niveau d = 2 /\ Ppc.indLvl d = 3.
Proof. split; vm_compute; reflexivity. Qed.

(** *** The selection of the risk modal *)

Lemma remove_first_spec (nm : jsstring) (l : list jsstring) :
  NoDup l ->
  NoDup (Model.remove_first nm l) /\
  forall x, In x (Model.remove_first nm l) <-> In x l /\ x <> nm.
Proof.
  induction l as [|y l IH]; intros Hnd; cbn.
  - split; [constructor|]. intros x. tauto.
  - inversion Hnd as [|? ? Hy Hl]; subst. destruct (IH Hl) as [IHnd IHin].
    destruct (str_eqb y nm) eqn:E.
    + apply str_eqb_eq in E. subst y. split; [exact Hl|].
      intros x. split.
      * intros Hx. split; [now right|]. intros ->. contradiction.
      * intros [[<-|Hx] Hne]; [contradiction|exact Hx].
    + assert (Hne : y <> nm) by (intros H; apply str_eqb_eq in H; congruence).
      split.
      * constructor; [|exact IHnd]. intros Hin. apply IHin in Hin. tauto.
      * intros x. cbn. rewrite IHin. split.
        -- intros [<-|[Hx Hxn]]; [split; [now left|exact Hne]|split; [now right|exact Hxn]].
        -- intros [[<-|Hx] Hxn]; [now left|right; now split].
Qed.

Lemma li_click_selection (nm : jsstring) (ui : Model.Ui) :
  NoDup (Model.selectedRiskNames ui) ->
  let ui' := fst (Model.li_click nm ui) in
  NoDup (Model.selectedRiskNames ui') /\
  (In nm (Model.selectedRiskNames ui') <-> ~ In nm (Model.selectedRiskNames ui)) /\
  (forall x, x <> nm ->
     (In x (Model.selectedRiskNames ui') <-> In x (Model.selectedRiskNames ui))) /\
  Model.ui_analyses ui' = Model.ui_analyses ui /\
  Model.riskModalTarget ui' = Model.riskModalTarget ui.
Proof.
  intros Hnd ui'. unfold ui', Model.li_click.
  cbn [fst Model.selectedRiskNames Model.ui_analyses Model.riskModalTarget].
  destruct (existsb (fun x => str_eqb x nm) (Model.selectedRiskNames ui)) eqn:E.
  - assert (Hin : In nm (Model.selectedRiskNames ui)).
    { apply existsb_exists in E as (x & Hx & Hxn). apply str_eqb_eq in Hxn. now subst x. }
    destruct (remove_first_spec nm _ Hnd) as [Hnd' Hin'].
    split; [exact Hnd'|]. split; [|split; [|split; reflexivity]].
    + rewrite Hin'. tauto.
    + intros x Hx. rewrite Hin'. tauto.
  - assert (Hout : ~ In nm (Model.selectedRiskNames ui)).
    { intros Hin. assert (Ht : existsb (fun x => str_eqb x nm) (Model.selectedRiskNames ui) = true).
      { apply existsb_exists. exists nm. split; [exact Hin|now apply str_eqb_eq]. }
      congruence. }
    split; [|split; [|split; [|split; reflexivity]]].
    + apply NoDup_app; [exact Hnd|repeat constructor; intros []|].
      intros x Hx [<-|[]]. contradiction.
    + rewrite in_app_iff. cbn. tauto.
    + intros x Hx. rewrite in_app_iff. cbn. split; [|tauto].
      intros [H|[H|[]]]; [exact H|congruence].
Qed.

(** X15. In the risk modal, whatever entries of the library are clicked
    and in whatever order, the selection never holds a name twice, and a
    name is selected exactly when it was clicked an odd number of times
    since the modal was opened.  The clicks change neither the analyses nor
    the scenario the modal was opened for. *)
Theorem risk_selection_follows_click_parity
  (target : nat * nat) (ui : Model.Ui) (clicks : list jsstring) :
  let ui' := fold_left (fun u nm => fst (Model.li_click nm u)) clicks
               (Model.openRiskModal target ui) in
  NoDup (Model.selectedRiskNames ui') /\
  (forall nm, In nm (Model.selectedRiskNames ui') <->
              Nat.odd (List.length (filter (fun c => str_eqb c nm) clicks)) = true) /\
  Model.ui_analyses ui' = Model.ui_analyses ui /\
  Model.riskModalTarget ui' = Some target.
Proof.
  induction clicks as [|c clicks IH] using rev_ind.
  - cbn. split; [constructor|]. split; [|split; reflexivity].
    intros nm. split; [intros []|discriminate].
  - intros ui'. unfold ui'. rewrite fold_left_app. cbn [fold_left].
    destruct IH as (Hnd & Hpar & Han & Htg).
    set (u := fold_left (fun u nm => fst (Model.li_click nm u)) clicks
                (Model.openRiskModal target ui)) in *.
    destruct (li_click_selection c u Hnd) as (Hnd' & Hc & Hother & Han' & Htg').
    split; [exact Hnd'|]. split; [|split; congruence].
    intros nm. rewrite filter_app, length_app. cbn [filter].
    destruct (str_eqb c nm) eqn:E.
    + apply str_eqb_eq in E. subst nm. cbn [List.length].
      rewrite Hc, Hpar, Nat.add_1_r, Nat.odd_succ, <- Nat.negb_odd.
      destruct (Nat.odd _); cbn; split; congruence.
    + assert (Hne : nm <> c) by (intros ->; assert (str_eqb c c = true) by (now apply str_eqb_eq); congruence).
      cbn [List.length]. rewrite Nat.add_0_r, (Hother nm Hne). apply Hpar.
Qed.

(** *** The import of GAP requirements, when it succeeds *)

Lemma assoc_get_set_same {V : Type} (k : jsstring) (x : V) (l : list (jsstring * V)) :
  assoc_get k (assoc_set k x l) = Some x.
Proof.
  rewrite assoc_get_map_get, assoc_set_map_set.
  apply (map_get_set_same _ str_eqb_eq).
Qed.

Lemma assoc_get_set_other {V : Type} (k k' : jsstring) (x : V) (l : list (jsstring * V)) :
  k <> k' -> assoc_get k' (assoc_set k x l) = assoc_get k' l.
Proof.
  intros Hne. rewrite !assoc_get_map_get, assoc_set_map_set.
  now apply (map_get_set_other _ str_eqb_eq).
Qed.

Lemma get_set_prop_same (v : json) (k : jsstring) (x o : json) :
  get_prop (Some v) k = Some (Some o) ->
  get_prop (Some (set_prop v k x)) k = Some (Some x).
Proof.
  destruct v; cbn; try discriminate; intros _; now rewrite assoc_get_set_same.
Qed.

Lemma get_set_prop_other (v : json) (k k' : jsstring) (x : json) :
  k <> k' -> get_prop (Some (set_prop v k x)) k' = get_prop (Some v) k'.
Proof.
  intros Hne. destruct v; cbn; try reflexivity; now rewrite assoc_get_set_other.
Qed.

Lemma push_gap_items (req analysis : json) (items : list json) :
  ImportExport.gap_items analysis = Some items ->
  exists analysis',
    ImportExport.push_gap req analysis = Some analysis' /\
    ImportExport.gap_items analysis' = Some (items ++ [req]) /\
    forall k, k <> lit "data" ->
      get_prop (Some analysis') k = get_prop (Some analysis) k.
Proof.
  unfold ImportExport.gap_items, ImportExport.push_gap.
  destruct (get_prop (Some analysis) (lit "data")) as [[d|]|] eqn:D; try discriminate.
  destruct (get_prop (Some d) (lit "gap")) as [[g|]|] eqn:G; try discriminate.
  destruct g as [| | | |gitems own|]; try discriminate.
  intros [= <-]. eexists. split; [reflexivity|]. split.
  - rewrite (get_set_prop_same _ _ _ _ D), (get_set_prop_same _ _ _ _ G). reflexivity.
  - intros k Hk. apply get_set_prop_other. congruence.
Qed.

Lemma alias2_some (obj : json) (k1 k2 : jsstring) :
  obj <> JNull -> exists v, ImportExport.alias2 obj k1 k2 = Some v.
Proof.
  intros Hobj. unfold ImportExport.alias2.
  destruct obj; try contradiction; cbn [get_prop]; eexists; reflexivity.
Qed.

Lemma gap_req_some (id : jsstring) (obj : json) :
  obj <> JNull -> exists req, ImportExport.gap_req id obj = Some req.
Proof.
  intros Hobj. unfold ImportExport.gap_req.
  destruct (alias2_some obj (lit "domaine") (lit "domain") Hobj) as [v1 ->].
  destruct (alias2_some obj (lit "titre") (lit "title") Hobj) as [v2 ->].
  destruct (alias2_some obj (lit "description") (lit "desc") Hobj) as [v3 ->].
  destruct (alias2_some obj (lit "application") (lit "status") Hobj) as [v4 ->].
  destruct (alias2_some obj (lit "justification") (lit "justif") Hobj) as [v5 ->].
  eexists. reflexivity.
Qed.

Lemma gap_loop_appends (rnd : nat -> jsstring) (elems : list json) :
  Forall (fun obj => obj <> JNull) elems ->
  forall (analysis : json) (n : nat) (items : list json),
  ImportExport.gap_items analysis = Some items ->
  exists analysis' reqs,
    ImportExport.gap_loop rnd elems analysis n
    = (analysis', (n + List.length elems)%nat, false) /\
    ImportExport.gap_items analysis' = Some (items ++ reqs) /\
    List.length reqs = List.length elems /\
    (forall i obj, nth_error elems i = Some obj ->
       nth_error reqs i = ImportExport.gap_req (uid rnd (n + i)) obj) /\
    (forall k, k <> lit "data" ->
       get_prop (Some analysis') k = get_prop (Some analysis) k).
Proof.
  induction 1 as [|obj elems Hobj _ IH]; intros analysis n items Hitems.
  - exists analysis, []. cbn. rewrite Nat.add_0_r, app_nil_r.
    repeat split; try assumption. intros [|i] obj; discriminate.
  - cbn [ImportExport.gap_loop].
    destruct (gap_req_some (uid rnd n) obj Hobj) as [req Hreq]. rewrite Hreq.
    destruct (push_gap_items req analysis items Hitems) as (a1 & Hpush & Hitems1 & Hkeep1).
    rewrite Hpush.
    destruct (IH a1 (S n) (items ++ [req]) Hitems1)
      as (a' & reqs & Hloop & Hitems' & Hlen & Hnth & Hkeep).
    exists a', (req :: reqs). rewrite Hloop. split.
    { cbn [List.length]. do 2 f_equal. lia. }
    split; [now rewrite Hitems', <- app_assoc|].
    split; [cbn; now rewrite Hlen|]. split.
    + intros [|i] o Ho; cbn [nth_error] in Ho |- *.
      * injection Ho as <-. now rewrite Nat.add_0_r.
      * rewrite (Hnth i o Ho). replace (n + S i)%nat with (S n + i)%nat by lia.
        reflexivity.
    + intros k Hk. now rewrite Hkeep, Hkeep1.
Qed.

(** X16. When the file of the GAP import holds an array without [null]
    element, and [data.gap] of the current analysis is an array once the two
    guards have run, the import adds one requirement per element at the end
    of [data.gap], in the order of the file, each with a fresh identifier
    and the fields read from its element; the requirements already there
    stay in place, the properties of the analysis other than [data] are
    untouched, and the store is saved once, before the views are redrawn. *)
Theorem gap_import_appends_one_requirement_per_element
  (JSON_parse : jsstring -> jsstring + json)
  (JSON_stringify : json -> Z -> jsstring)
  (rnd : nat -> jsstring) (typeErrorMessage : jsstring)
  (redrawGap : ImportExport.Store -> ImportExport.Store * option jsstring)
  (text : jsstring) (st : ImportExport.Store)
  (elems : list json) (own : list (jsstring * json))
  (a1 a2 : json) (items : list json) :
  JSON_parse text = inr (JArr elems own) ->
  Forall (fun obj => obj <> JNull) elems ->
  ImportExport.ensure_data
    (ImportExport.at_index (ImportExport.analyses st) (ImportExport.currentIndex st))
  = Some a1 ->
  ImportExport.ensure_gap a1 = Some a2 ->
  ImportExport.gap_items a2 = Some items ->
  exists (a3 : json) (reqs : list json),
    let st1 := ImportExport.set_uid_calls
                 (ImportExport.uid_calls st + List.length elems)
                 (ImportExport.put_current a3 st) in
    ImportExport.gap_import_onload JSON_parse JSON_stringify rnd typeErrorMessage
      redrawGap text st
    = (fst (redrawGap st1),
       Save (ImportExport.saved JSON_stringify st1)
       :: match snd (redrawGap st1) with
          | None => []
          | Some msg => [ImportExport.gap_error msg]
          end) /\
    ImportExport.gap_items a3 = Some (items ++ reqs) /\
    List.length reqs = List.length elems /\
    (forall i obj, nth_error elems i = Some obj ->
       nth_error reqs i
       = ImportExport.gap_req (uid rnd (ImportExport.uid_calls st + i)) obj) /\
    (forall k, k <> lit "data" -> get_prop (Some a3) k = get_prop (Some a2) k).
Proof.
  intros Hparse Helems Hdata Hgap Hitems.
  destruct (gap_loop_appends rnd elems Helems a2 (ImportExport.uid_calls st) items Hitems)
    as (a3 & reqs & Hloop & Hitems' & Hlen & Hnth & Hkeep).
  exists a3, reqs. cbv zeta.
  split; [|repeat split; assumption].
  unfold ImportExport.gap_import_onload. rewrite Hparse, Hdata, Hgap, Hloop.
  destruct (redrawGap _) as [st2 [msg|]]; reflexivity.
Qed.

Lemma gap_import_appends_one_requirement_per_element_witness :
  exists a3,
    ImportExport.analyses
      (fst (ImportExport.gap_import_onload
              (fun _ => inr (JArr [JObj [(lit "domain", JStr (lit "Gouvernance"))]] []))
              ImportExport.sample_stringify ImportExport.sample_rnd
              (lit "Cannot read properties") ImportExport.sample_redraw []
              ImportExport.sample_store))
    = [a3] /\
    ImportExport.gap_items a3
    = Some [JObj [(lit "id", JStr (lit "id-k3x9"));
                  (lit "domaine", JStr (lit "Gouvernance")); (lit "titre", JStr []);
                  (lit "description", JStr []); (lit "application", JStr []);
                  (lit "justification", JStr [])]].
Proof.
  destruct (gap_import_appends_one_requirement_per_element
              (fun _ => inr (JArr [JObj [(lit "domain", JStr (lit "Gouvernance"))]] []))
              ImportExport.sample_stringify ImportExport.sample_rnd
              (lit "Cannot read properties") ImportExport.sample_redraw []
              ImportExport.sample_store
              [JObj [(lit "domain", JStr (lit "Gouvernance"))]] []
              (JObj [(lit "data", JObj [])])
              (JObj [(lit "data", JObj [(lit "gap", JArr [] [])])])
              [] eq_refl)
    as (a3 & reqs & Hrun & Hitems & Hlen & Hnth & _).
  { repeat constructor; discriminate. }
  { reflexivity. }
  { reflexivity. }
  { reflexivity. }
  exists a3. cbv zeta in Hrun. rewrite Hrun. split; [reflexivity|].
  rewrite Hitems. destruct reqs as [|req [|req' reqs]]; try discriminate.
  specialize (Hnth 0%nat _ eq_refl). cbn in Hnth. cbn. now injection Hnth as ->.
Defined.

(** *** Importing requirements into the action table, and the plan *)

Lemma import_fold_spec (selection : list jsstring) :
  forall rows : list Actions.GapRow,
  exists added,
    fold_left Actions.import_step selection rows = rows ++ added /\
    (forall r, In r added ->
       exists id, In id selection /\
         r = {| Actions.sourceId := VStr id; Actions.gap_actions := Some [] |} /\
         existsb (fun entry => strict_eq (Actions.sourceId entry) (VStr id)) rows = false) /\
    NoDup (map Actions.sourceId added) /\
    (forall id, In id selection ->
       existsb (fun entry => strict_eq (Actions.sourceId entry) (VStr id)) (rows ++ added)
       = true).
Proof.
  induction selection as [|id selection IH]; intros rows.
  - exists []. rewrite app_nil_r. split; [reflexivity|].
    split; [intros r []|]. split; [constructor|intros id []].
  - cbn [fold_left]. unfold Actions.import_step at 2.
    destruct (existsb (fun entry => strict_eq (Actions.sourceId entry) (VStr id)) rows) eqn:E.
    + destruct (IH rows) as (added & Hfold & Hadded & Hnd & Hall).
      exists added. split; [exact Hfold|]. split.
      { intros r Hr. destruct (Hadded r Hr) as (id' & Hid' & Hr' & Hno).
        exists id'. split; [now right|]. now split. }
      split; [exact Hnd|].
      intros id' [<-|Hid']; [|now apply Hall].
      rewrite existsb_app, E. reflexivity.
    + set (fresh := {| Actions.sourceId := VStr id; Actions.gap_actions := Some [] |}).
      destruct (IH (rows ++ [fresh])) as (added & Hfold & Hadded & Hnd & Hall).
      exists (fresh :: added). split; [now rewrite Hfold, <- app_assoc|].
      assert (Hother : forall r, In r added ->
                exists id', In id' selection /\
                  r = {| Actions.sourceId := VStr id'; Actions.gap_actions := Some [] |} /\
                  existsb (fun entry => strict_eq (Actions.sourceId entry) (VStr id')) rows
                  = false /\ id' <> id).
      { intros r Hr. destruct (Hadded r Hr) as (id' & Hid' & Hr' & Hno).
        rewrite existsb_app in Hno. apply orb_false_iff in Hno as [Hno Hfresh].
        exists id'. split; [exact Hid'|]. split; [exact Hr'|]. split; [exact Hno|].
        intros ->. cbn in Hfresh. rewrite orb_false_r in Hfresh.
        assert (Ht : str_eqb id id = true) by now apply str_eqb_eq. congruence. }
      split.
      { intros r [<-|Hr].
        - exists id. split; [now left|]. now split.
        - destruct (Hother r Hr) as (id' & Hid' & Hr' & Hno & _).
          exists id'. split; [now right|]. now split. }
      split.
      { cbn [map]. constructor; [|exact Hnd].
        intros Hin. apply in_map_iff in Hin as (r & Hsid & Hr).
        destruct (Hother r Hr) as (id' & _ & -> & _ & Hne).
        cbn in Hsid. congruence. }
      intros id' [<-|Hid'].
      * rewrite existsb_app. apply orb_true_iff. right. cbn.
        assert (Ht : str_eqb id id = true) by now apply str_eqb_eq. now rewrite Ht.
      * specialize (Hall id' Hid'). now rewrite <- app_assoc in Hall.
Qed.

Lemma import_fold_fixed (selection : list jsstring) (rows : list Actions.GapRow) :
  (forall id, In id selection ->
     existsb (fun entry => strict_eq (Actions.sourceId entry) (VStr id)) rows = true) ->
  fold_left Actions.import_step selection rows = rows.
Proof.
  induction selection as [|id selection IH]; intros Hall; [reflexivity|].
  cbn [fold_left]. unfold Actions.import_step at 2.
  rewrite (Hall id (or_introl eq_refl)). apply IH. intros id' Hid'. apply Hall. now right.
Qed.

(** X17. Applying a selection of requirements to the action table of
    Atelier 5 keeps every row the table had, in place and with its actions,
    and appends rows without actions, one for each selected identifier that
    no row referred to, never two for the same identifier.  Afterwards every
    selected identifier has a row, and applying the same selection again
    changes nothing. *)
Theorem selected_requirements_get_one_row_each
  (selection : list jsstring) (rows : option (list Actions.GapRow)) :
  let before := Actions.or_empty rows in
  let after := Actions.apply_gap_selection selection rows in
  (exists added,
     after = before ++ added /\
     (forall r, In r added ->
        exists id, In id selection /\
          r = {| Actions.sourceId := VStr id; Actions.gap_actions := Some [] |} /\
          forall entry, In entry before -> Actions.sourceId entry <> VStr id) /\
     NoDup (map Actions.sourceId added)) /\
  (forall id, In id selection ->
     exists entry, In entry after /\ Actions.sourceId entry = VStr id) /\
  Actions.apply_gap_selection selection (Some after) = after.
Proof.
  intros before after.
  destruct (import_fold_spec selection before) as (added & Hfold & Hadded & Hnd & Hall).
  change (after = before ++ added) in Hfold.
  split.
  { exists added. split; [exact Hfold|]. split; [|exact Hnd].
    intros r Hr. destruct (Hadded r Hr) as (id & Hid & Hr' & Hno).
    exists id. split; [exact Hid|]. split; [exact Hr'|].
    intros entry Hentry Heq.
    assert (Ht : existsb (fun e => strict_eq (Actions.sourceId e) (VStr id)) before = true).
    { apply existsb_exists. exists entry. split; [exact Hentry|].
      rewrite Heq. cbn. now apply str_eqb_eq. }
    congruence. }
  split.
  { intros id Hid. specialize (Hall id Hid). rewrite <- Hfold in Hall.
    apply existsb_exists in Hall as (entry & Hentry & Heq).
    exists entry. split; [exact Hentry|].
    destruct (Actions.sourceId entry) as [| | |[|z]|s]; try discriminate.
    cbn in Heq. apply str_eqb_eq in Heq. now subst s. }
  unfold Actions.apply_gap_selection at 1. cbn [Actions.or_empty].
  apply import_fold_fixed. intros id Hid. rewrite Hfold. now apply Hall.
Qed.

Lemma flat_map_map_map {A B C : Type} (f : A -> list B) (g : A -> B -> C) (h : C -> B)
  (l : list A) :
  (forall a b, h (g a b) = b) ->
  map h (flat_map (fun a => map (g a) (f a)) l) = flat_map f l.
Proof.
  intros Hh. induction l as [|a l IH]; [reflexivity|].
  cbn [flat_map]. rewrite map_app, IH, map_map. f_equal.
  rewrite <- (map_id (f a)) at 2. apply map_ext. intros b. apply Hh.
Qed.

Lemma action_of_plan_line (source : jsstring) (act : Actions.Action) :
  Actions.action_of (Actions.plan_line source act) = act.
Proof. now destruct act. Qed.

(** X18. The plan of Atelier 5 shows every action of the four tables
    exactly once, in the order of the tables (GAP, supports, parties,
    risks) and of their rows, with its name, description, responsable and
    dates as entered; a row without actions gives no line.  So applying a
    selection of requirements, which only adds rows without actions, leaves
    the plan as it was. *)
Theorem plan_shows_every_action_once
  (d : Actions.PlanData) (selection : list jsstring) :
  map Actions.action_of (Actions.planActions d) = Actions.all_actions d /\
  List.length (Actions.planActions d) = List.length (Actions.all_actions d) /\
  Actions.planActions
    (Actions.set_actionsGap
       (Actions.apply_gap_selection selection (Actions.actionsGap d)) d)
  = Actions.planActions d.
Proof.
  assert (Hmap : map Actions.action_of (Actions.planActions d) = Actions.all_actions d).
  { unfold Actions.planActions, Actions.all_actions. rewrite !map_app.
    rewrite (flat_map_map_map (fun e => Actions.or_empty (Actions.gap_actions e))
               (fun e => Actions.plan_line (Actions.gap_source d e)))
      by (intros; apply action_of_plan_line).
    rewrite (flat_map_map_map (fun r => Actions.or_empty (Actions.support_actions r))
               (fun r => Actions.plan_line (Actions.support_source r)))
      by (intros; apply action_of_plan_line).
    rewrite (flat_map_map_map (fun r => Actions.or_empty (Actions.party_actions r))
               (fun r => Actions.plan_line (Actions.party_source d r)))
      by (intros; apply action_of_plan_line).
    rewrite (flat_map_map_map (fun r => Actions.or_empty (Actions.risk_actions r))
               (fun r => Actions.plan_line (Actions.risk_source r)))
      by (intros; apply action_of_plan_line).
    reflexivity. }
  split; [exact Hmap|]. split; [now rewrite <- Hmap, length_map|].
  destruct (import_fold_spec selection (Actions.or_empty (Actions.actionsGap d)))
    as (added & Hfold & Hadded & _ & _).
  unfold Actions.planActions, Actions.apply_gap_selection.
  cbn [Actions.set_actionsGap Actions.actionsGap Actions.actionsSupports
       Actions.actionsParties Actions.actionsRisques Actions.pd_gap Actions.pd_ppc
       Actions.or_empty].
  rewrite Hfold. f_equal.
  - rewrite flat_map_app.
    assert (Hnone : forall l : list Actions.GapRow,
              (forall r, In r l -> Actions.gap_actions r = Some []) ->
              flat_map (fun entry =>
                          map (Actions.plan_line
                                 (Actions.gap_source
                                    (Actions.set_actionsGap
                                       (Actions.or_empty (Actions.actionsGap d) ++ added) d)
                                    entry))
                              (Actions.or_empty (Actions.gap_actions entry))) l = []).
    { induction l as [|r l IH]; intros Hl; [reflexivity|].
      cbn [flat_map]. rewrite (Hl r (or_introl eq_refl)). cbn.
      apply IH. intros r' Hr'. apply Hl. now right. }
    rewrite (Hnone added), app_nil_r.
    + apply flat_map_ext. intros entry. reflexivity.
    + intros r Hr. destruct (Hadded r Hr) as (id & _ & -> & _). reflexivity.
Qed.

(** *** The identifiers of the import candidates *)

Lemma gap_step_again (rnd : nat -> jsstring) (st : Model.GapLoop)
  (q : Model.GapRequirement) :
  exists q' its,
    Model.visited (Model.gap_step rnd st q) = Model.visited st ++ [q'] /\
    Model.items (Model.gap_step rnd st q) = Model.items st ++ its /\
    (forall st2,
       Model.gap_step rnd st2 q'
       = {| Model.uid_calls := Model.uid_calls st2;
            Model.visited := Model.visited st2 ++ [q'];
            Model.items := Model.items st2 ++ its |}) /\
    (forall it, In it its ->
       Model.item_id it <> [] /\ Model.g_id q' = Some (Model.item_id it) /\
       Model.is_applied q' = false).
Proof.
  unfold Model.gap_step at 1 2. destruct (Model.is_applied q) eqn:A.
  - exists q, []. cbn [Model.visited Model.items]. rewrite app_nil_r.
    split; [reflexivity|]. split; [reflexivity|]. split; [|intros it []].
    intros st2. unfold Model.gap_step. rewrite A, app_nil_r. reflexivity.
  - destruct (Model.g_id q) as [[|c r]|] eqn:G.
    + eexists. eexists. cbn [Model.visited Model.items].
      split; [reflexivity|]. split; [reflexivity|]. split.
      * intros st2. unfold Model.gap_step, Model.is_applied, Model.application_prefix.
        cbn [Model.application Model.g_id Model.domaine Model.titre Model.g_description].
        unfold Model.is_applied, Model.application_prefix in A. rewrite A.
        unfold uid. cbn [lit list_ascii_of_string map app]. reflexivity.
      * intros it [<-|[]]. cbn [Model.item_id Model.g_id]. unfold uid. cbn.
        split; [discriminate|]. split; [reflexivity|exact A].
    + exists q. eexists. cbn [Model.visited Model.items].
      split; [reflexivity|]. split; [reflexivity|]. split.
      * intros st2. unfold Model.gap_step. rewrite A, G. reflexivity.
      * intros it [<-|[]]. cbn [Model.item_id].
        split; [discriminate|]. split; [exact G|exact A].
    + eexists. eexists. cbn [Model.visited Model.items].
      split; [reflexivity|]. split; [reflexivity|]. split.
      * intros st2. unfold Model.gap_step, Model.is_applied, Model.application_prefix.
        cbn [Model.application Model.g_id Model.domaine Model.titre Model.g_description].
        unfold Model.is_applied, Model.application_prefix in A. rewrite A.
        unfold uid. cbn [lit list_ascii_of_string map app]. reflexivity.
      * intros it [<-|[]]. cbn [Model.item_id Model.g_id]. unfold uid. cbn.
        split; [discriminate|]. split; [reflexivity|exact A].
Qed.

Lemma gap_fold_again (rnd : nat -> jsstring) (l : list Model.GapRequirement) :
  forall st : Model.GapLoop,
  exists l' its,
    Model.visited (fold_left (Model.gap_step rnd) l st) = Model.visited st ++ l' /\
    Model.items (fold_left (Model.gap_step rnd) l st) = Model.items st ++ its /\
    (forall st2,
       fold_left (Model.gap_step rnd) l' st2
       = {| Model.uid_calls := Model.uid_calls st2;
            Model.visited := Model.visited st2 ++ l';
            Model.items := Model.items st2 ++ its |}) /\
    (forall it, In it its ->
       Model.item_id it <> [] /\
       exists q, In q l' /\ Model.g_id q = Some (Model.item_id it) /\
                 Model.is_applied q = false).
Proof.
  induction l as [|q l IH]; intros st.
  - exists [], []. cbn [fold_left]. rewrite !app_nil_r.
    split; [reflexivity|]. split; [reflexivity|]. split; [|intros it []].
    intros [n v i]. cbn. now rewrite !app_nil_r.
  - cbn [fold_left].
    destruct (gap_step_again rnd st q) as (q' & its1 & Hv1 & Hi1 & Hagain1 & Hids1).
    destruct (IH (Model.gap_step rnd st q)) as (l' & its & Hv & Hi & Hagain & Hids).
    exists (q' :: l'), (its1 ++ its).
    split; [now rewrite Hv, Hv1, <- app_assoc|].
    split; [now rewrite Hi, Hi1, <- app_assoc|]. split.
    + intros st2. cbn [fold_left]. rewrite Hagain, Hagain1.
      cbn [Model.uid_calls Model.visited Model.items]. now rewrite <- !app_assoc.
    + intros it Hit. apply in_app_iff in Hit as [Hit|Hit].
      * destruct (Hids1 it Hit) as (Hne & Hg & Ha). split; [exact Hne|].
        exists q'. split; [now left|]. now split.
      * destruct (Hids it Hit) as (Hne & q0 & Hq0 & Hg & Ha). split; [exact Hne|].
        exists q0. split; [now right|]. now split.
Qed.

(** X19. The candidates of the GAP action import keep their identifiers:
    when the list is built again on the requirements as the first build left
    them, it draws no new identifier, leaves the requirements as they are
    and offers the same items.  Every item carries a non-empty identifier,
    which is the identifier of a requirement of the table that is not
    applied. *)
Theorem gap_candidate_ids_are_stable
  (rnd : nat -> jsstring) (n n' : nat) (g : option (list Model.GapRequirement)) :
  let first := Model.gap_candidates rnd n g in
  let second := Model.gap_candidates rnd n' (Some (Model.visited first)) in
  Model.items second = Model.items first /\
  Model.visited second = Model.visited first /\
  Model.uid_calls second = n' /\
  (forall it, In it (Model.items first) ->
     Model.item_id it <> [] /\
     exists q, In q (Model.visited first) /\
               Model.g_id q = Some (Model.item_id it) /\
               Model.is_applied q = false).
Proof.
  intros first second.
  destruct (gap_fold_again rnd (match g with Some l => l | None => [] end)
              {| Model.uid_calls := n; Model.visited := []; Model.items := [] |})
    as (l' & its & Hv & Hi & Hagain & Hids).
  change (Model.visited first = [] ++ l') in Hv.
  change (Model.items first = [] ++ its) in Hi.
  cbn [app] in Hv, Hi.
  assert (Hsecond : second = {| Model.uid_calls := n'; Model.visited := l';
                                Model.items := its |}).
  { unfold second, Model.gap_candidates. rewrite Hv. apply Hagain. }
  rewrite Hsecond, Hv, Hi. cbn [Model.items Model.visited Model.uid_calls].
  repeat split; try reflexivity; apply Hids; assumption.
Qed.

(** *** The name of the exported file *)

Lemma safeTitle_plain (title : jsstring) :
  forallb ImportExport.is_plain (ImportExport.safeTitle title) = true /\
  List.length (ImportExport.safeTitle title) = List.length title.
Proof.
  unfold ImportExport.safeTitle, Text.toLowerCase. rewrite !length_map.
  split; [|reflexivity]. rewrite map_map.
  induction title as [|c title IH]; [reflexivity|].
  cbn [map forallb]. rewrite IH, andb_true_r.
  destruct (ImportExport.is_alnum c) eqn:E; [|reflexivity].
  unfold ImportExport.is_alnum in E.
  rewrite !orb_true_iff, !andb_true_iff, !N.leb_le in E.
  unfold ImportExport.is_plain, Text.lower_cu.
  rewrite !orb_true_iff, !andb_true_iff.
  destruct (N.leb_spec 65 c), (N.leb_spec c 90); cbn [andb];
    try (destruct (N.leb_spec 192 c); cbn [andb]; [exfalso; lia|]);
    rewrite !N.leb_le, N.eqb_eq; lia.
Qed.

Lemma safeTitle_plain_of (title : jsstring) :
  ImportExport.safeTitle title = map ImportExport.plain_of title.
Proof.
  unfold ImportExport.safeTitle, Text.toLowerCase. rewrite map_map.
  apply map_ext. intros c.
  unfold ImportExport.is_alnum, ImportExport.plain_of, Text.lower_cu.
  destruct (N.leb_spec 48 c), (N.leb_spec c 57), (N.leb_spec 65 c),
    (N.leb_spec c 90), (N.leb_spec 97 c), (N.leb_spec c 122);
    cbn [andb orb]; try lia; try reflexivity;
    repeat match goal with
           | |- context [N.leb ?a ?b] => destruct (N.leb_spec a b); try lia
           end; cbn [andb orb negb]; try reflexivity; try lia.
Qed.

(** X20. Whatever the title of the analysis, the file the export offers
    is named by a non-empty run of digits, small ASCII letters and
    underscores followed by ".json".  For a title that is a non-empty
    string the name is the title, code unit by code unit: a capital ASCII
    letter has become its small letter, a small ASCII letter or a digit is
    kept, and every other code unit has become an underscore.  A missing or
    empty title gives "analyse.json". *)
Theorem export_file_name_is_plain
  (JSON_stringify : json -> Z -> jsstring) (st : ImportExport.Store)
  (d : ImportExport.Download) :
  ImportExport.export_click JSON_stringify st = ImportExport.Exported d ->
  exists base,
    ImportExport.filename d = base ++ lit ".json" /\
    base <> [] /\
    forallb ImportExport.is_plain base = true /\
    (forall a, ImportExport.at_index (ImportExport.analyses st)
                 (ImportExport.currentIndex st) = Some a ->
       match get_prop (Some a) (lit "title") with
       | Some (Some (JStr (c :: title))) =>
           base = map ImportExport.plain_of (c :: title) /\
           List.length base = List.length (c :: title)
       | Some (Some (JStr [])) | Some None | Some (Some JNull) => base = lit "analyse"
       | _ => True
       end).
Proof.
  unfold ImportExport.export_click.
  destruct (ImportExport.currentIndex st <? 0); [discriminate|].
  destruct (ImportExport.at_index _ _) as [a|]; [|discriminate].
  destruct (get_prop (Some a) (lit "title")) as [t|] eqn:T; [|discriminate].
  assert (Hcase : (exists c s, t = Some (JStr (c :: s)) /\ truthy_json t = true) \/
                  (truthy_json t = false) \/
                  (truthy_json t = true /\ forall s, t <> Some (JStr s))).
  { destruct t as [[| b | z | [|c s] | items own | fields]|]; cbn.
    - right. now left.
    - destruct b; [right; right; split; [reflexivity|discriminate]|right; now left].
    - destruct (z =? 0); [right; now left|right; right; split; [reflexivity|discriminate]].
    - right. now left.
    - left. now exists c, s.
    - right. right. split; [reflexivity|discriminate].
    - right. right. split; [reflexivity|discriminate].
    - right. now left. }
  destruct Hcase as [(c & s & -> & Ht)|[Hf|[Ht Hns]]].
  - cbn [truthy_json]. intros [= <-]. exists (ImportExport.safeTitle (c :: s)).
    cbn [ImportExport.filename]. destruct (safeTitle_plain (c :: s)) as [Hp Hl].
    split; [reflexivity|]. split.
    { intros H0. rewrite H0 in Hl. discriminate. }
    split; [exact Hp|]. intros a' [= <-]. rewrite T.
    split; [apply safeTitle_plain_of|exact Hl].
  - rewrite Hf. intros [= <-]. exists (lit "analyse"). cbn [ImportExport.filename].
    split; [reflexivity|]. split; [discriminate|]. split; [reflexivity|].
    intros a' [= <-]. rewrite T.
    destruct t as [[| b | z | [|c s] | items own | fields]|]; try reflexivity; try exact I.
    discriminate.
  - rewrite Ht. destruct t as [[| b | z | s | items own | fields]|]; try discriminate.
    exfalso. now apply (Hns s).
Qed.

Lemma export_file_name_is_plain_witness :
  ImportExport.export_click ImportExport.sample_stringify Samples.titled_store
  = ImportExport.Exported
      {| ImportExport.filename := lit "etude_2024.json";
         ImportExport.content := lit "[{}]" |} /\
  exists base,
    lit "etude_2024.json" = base ++ lit ".json" /\
    base = map ImportExport.plain_of (lit "Etude 2024").
Proof.
  split; [reflexivity|].
  destruct (export_file_name_is_plain ImportExport.sample_stringify
              Samples.titled_store
              {| ImportExport.filename := lit "etude_2024.json";
                 ImportExport.content := lit "[{}]" |} eq_refl)
    as (base & Hname & _ & _ & Htitle).
  destruct (Htitle _ eq_refl) as [Hbase _].
  exists base. split; [exact Hname|exact Hbase].
Defined.

(** The file of an analysis with no title. *)
Example export_file_name_without_title :
  ImportExport.export_click ImportExport.sample_stringify ImportExport.sample_store
  = ImportExport.Exported
      {| ImportExport.filename := lit "analyse.json"; ImportExport.content := lit "{}" |}.
Proof. reflexivity. Qed.

(** *** The selection across a reload *)

Lemma findIndex_first {A : Type} (f : A -> bool) (l : list A) :
  forall (i : nat) (x : A),
  nth_error l i = Some x -> f x = true ->
  (forall j y, (j < i)%nat -> nth_error l j = Some y -> f y = false) ->
  Atelier1.findIndex f l = Some i.
Proof.
  induction l as [|z l IH]; intros [|i] x Hx Hf Hbefore; try discriminate; cbn in Hx |- *.
  - injection Hx as ->. now rewrite Hf.
  - rewrite (Hbefore 0%nat z) by (try lia; reflexivity).
    rewrite (IH i x Hx Hf); [reflexivity|].
    intros j y Hj Hy. apply (Hbefore (S j) y); [lia|exact Hy].
Qed.

(** X21. Reloading the page restores the selected analysis: when the
    analysis selected last has a non-empty string as identifier, which no
    analysis before it in the list shares, and the browser storage can be
    written and read, [init] selects that analysis again on the same list.
    When the analysis selected last has no identifier, the stored entry is
    left as it was. *)
Theorem reload_restores_selection
  (st : Session.State) (i : nat) (a : Model.Analysis) (s : jsstring) :
  nth_error (Session.analyses st) i = Some a ->
  Model.a_id a = VStr s ->
  s <> [] ->
  (forall j b, (j < i)%nat -> nth_error (Session.analyses st) j = Some b ->
     Model.a_id b <> VStr s) ->
  let selected := Session.selectAnalysis true (Z.of_nat i) st in
  Session.savedId selected = Some s /\
  Session.currentIndex
    (Session.init true true (Session.analyses st) (Session.savedId selected))
  = Z.of_nat i /\
  (forall (k : nat) (b : Model.Analysis),
     nth_error (Session.analyses st) k = Some b ->
     truthy (Model.a_id b) = false ->
     Session.savedId (Session.selectAnalysis true (Z.of_nat k) st) = Session.savedId st).
Proof.
  intros Ha Hid Hs Hbefore selected.
  assert (Hat : forall (k : nat) b, nth_error (Session.analyses st) k = Some b ->
            Session.at_index (Session.analyses st) (Z.of_nat k) = Some b).
  { intros k b Hk. unfold Session.at_index.
    destruct (Z.ltb_spec (Z.of_nat k) 0); [lia|]. now rewrite Nat2Z.id. }
  assert (Hsaved : Session.savedId selected = Some s).
  { unfold selected, Session.selectAnalysis, Session.persistCurrentAnalysisId.
    cbn [Session.analyses Session.currentIndex]. rewrite (Hat i a Ha), Hid.
    destruct s; [contradiction|reflexivity]. }
  split; [exact Hsaved|]. split.
  - rewrite Hsaved. unfold Session.init.
    destruct s as [|c r]; [contradiction|].
    rewrite (findIndex_first _ (Session.analyses st) i a Ha).
    + destruct (Session.analyses st) as [|a0 rest] eqn:L; [destruct i; discriminate|].
      destruct (Z.leb_spec 0 (Z.of_nat i)); [|lia].
      unfold Session.selectAnalysis, Session.persistCurrentAnalysisId.
      cbn [Session.analyses Session.currentIndex].
      rewrite (Hat i a Ha), Hid. reflexivity.
    + rewrite Hid. cbn [strict_eq]. now apply str_eqb_eq.
    + intros j b Hj Hb. specialize (Hbefore j b Hj Hb).
      destruct (Model.a_id b) as [| | |[|z]|t]; try reflexivity.
      cbn [strict_eq]. destruct (str_eqb t (c :: r)) eqn:E; [|reflexivity].
      apply str_eqb_eq in E. congruence.
  - intros k b Hk Hfalsy.
    unfold Session.selectAnalysis, Session.persistCurrentAnalysisId.
    cbn [Session.analyses Session.currentIndex]. rewrite (Hat k b Hk), Hfalsy.
    reflexivity.
Qed.

Lemma reload_restores_selection_witness :
  Session.currentIndex
    (Session.init true true [Samples.analysis1]
       (Session.savedId
          (Session.selectAnalysis true 0
             {| Session.analyses := [Samples.analysis1]; Session.currentIndex := -1;
                Session.savedId := None |})))
  = 0.
Proof.
  destruct (reload_restores_selection
              {| Session.analyses := [Samples.analysis1]; Session.currentIndex := -1;
                 Session.savedId := None |}
              0%nat Samples.analysis1 (lit "id-an1") eq_refl eq_refl)
    as (_ & Hinit & _).
  { discriminate. }
  { intros j b Hj. lia. }
  exact Hinit.
Defined.

(** *** The chart of the operational scenarios *)

Lemma chart4_step (c : Chart4.Counts) (item : Model.Scenario) :
  0 <= Chart4.level1 c -> 0 <= Chart4.level2 c ->
  0 <= Chart4.level3 c -> 0 <= Chart4.level4 c ->
  let r := Chart4.count_step c item in
  Chart4.level1 r = Chart4.level1 c + Z.of_nat (List.length (Chart4.rated 1 [item])) /\
  Chart4.level2 r = Chart4.level2 c + Z.of_nat (List.length (Chart4.rated 2 [item])) /\
  Chart4.level3 r = Chart4.level3 c + Z.of_nat (List.length (Chart4.rated 3 [item])) /\
  Chart4.level4 r = Chart4.level4 c + Z.of_nat (List.length (Chart4.rated 4 [item])).
Proof.
  intros H1 H2 H3 H4.
  assert (Hor : forall z, 0 <= z -> num_or (Int z) 0 = z).
  { intros z Hz. cbn. destruct (Z.eqb_spec z 0); lia. }
  unfold Chart4.count_step, Chart4.rated. cbn [filter].
  destruct (parseInt (Model.vraisemblance item)) as [|lvl]; [cbn; lia|].
  destruct (Z.leb_spec 1 lvl), (Z.leb_spec lvl 4); cbn [andb].
  - assert (Hl : lvl = 1 \/ lvl = 2 \/ lvl = 3 \/ lvl = 4) by lia.
    destruct Hl as [-> | [-> | [-> | ->]]];
      cbn [Z.eqb Pos.eqb List.length Chart4.level1 Chart4.level2 Chart4.level3
           Chart4.level4];
      rewrite Hor by assumption; lia.
  - destruct (Z.eqb_spec lvl 1), (Z.eqb_spec lvl 2), (Z.eqb_spec lvl 3),
             (Z.eqb_spec lvl 4); try lia; cbn; lia.
  - destruct (Z.eqb_spec lvl 1), (Z.eqb_spec lvl 2), (Z.eqb_spec lvl 3),
             (Z.eqb_spec lvl 4); try lia; cbn; lia.
  - lia.
Qed.

Lemma chart4_fold (ops : list Model.Scenario) :
  forall c : Chart4.Counts,
  0 <= Chart4.level1 c -> 0 <= Chart4.level2 c ->
  0 <= Chart4.level3 c -> 0 <= Chart4.level4 c ->
  let r := fold_left Chart4.count_step ops c in
  Chart4.level1 r = Chart4.level1 c + Z.of_nat (List.length (Chart4.rated 1 ops)) /\
  Chart4.level2 r = Chart4.level2 c + Z.of_nat (List.length (Chart4.rated 2 ops)) /\
  Chart4.level3 r = Chart4.level3 c + Z.of_nat (List.length (Chart4.rated 3 ops)) /\
  Chart4.level4 r = Chart4.level4 c + Z.of_nat (List.length (Chart4.rated 4 ops)).
Proof.
  induction ops as [|item ops IH]; intros c H1 H2 H3 H4.
  - cbn. lia.
  - cbn [fold_left].
    destruct (chart4_step c item H1 H2 H3 H4) as (S1 & S2 & S3 & S4).
    destruct (IH (Chart4.count_step c item)) as (I1 & I2 & I3 & I4); try lia.
    assert (Hcons : forall k, List.length (Chart4.rated k (item :: ops))
                              = (List.length (Chart4.rated k [item])
                                 + List.length (Chart4.rated k ops))%nat).
    { intros k. change (item :: ops) with ([item] ++ ops). unfold Chart4.rated.
      now rewrite filter_app, length_app. }
    cbv zeta. rewrite I1, I2, I3, I4, S1, S2, S3, S4, !Hcons. lia.
Qed.

(** X22. The chart of Atelier 4 draws four bars: the bar of the level k
    counts the scenarios whose likelihood reads (with [parseInt]) as k.  A
    scenario whose likelihood reads as another number, or as no number, is
    in no bar, so that the bars add up to the number of scenarios rated from
    1 to 4. *)
Theorem scenario_bars_count_each_level (ops : list Model.Scenario) :
  Chart4.updateAtelier4Chart ops
  = [Z.of_nat (List.length (Chart4.rated 1 ops));
     Z.of_nat (List.length (Chart4.rated 2 ops));
     Z.of_nat (List.length (Chart4.rated 3 ops));
     Z.of_nat (List.length (Chart4.rated 4 ops))] /\
  fold_right Z.add 0 (Chart4.updateAtelier4Chart ops)
  = Z.of_nat (List.length
                (filter (fun item => match parseInt (Model.vraisemblance item) with
                                     | Int lvl => ((1 <=? lvl) && (lvl <=? 4))%bool
                                     | NaN => false
                                     end) ops)).
Proof.
  destruct (chart4_fold ops {| Chart4.level1 := 0; Chart4.level2 := 0;
                               Chart4.level3 := 0; Chart4.level4 := 0 |})
    as (H1 & H2 & H3 & H4); cbn [Chart4.level1 Chart4.level2 Chart4.level3 Chart4.level4];
    try lia.
  cbn [Chart4.level1 Chart4.level2 Chart4.level3 Chart4.level4] in H1, H2, H3, H4.
  assert (Hbars : Chart4.updateAtelier4Chart ops
                  = [Z.of_nat (List.length (Chart4.rated 1 ops));
                     Z.of_nat (List.length (Chart4.rated 2 ops));
                     Z.of_nat (List.length (Chart4.rated 3 ops));
                     Z.of_nat (List.length (Chart4.rated 4 ops))]).
  { unfold Chart4.updateAtelier4Chart. cbv zeta. now rewrite H1, H2, H3, H4. }
  split; [exact Hbars|]. rewrite Hbars. cbn [fold_right].
  clear. unfold Chart4.rated. induction ops as [|item ops IH]; [reflexivity|].
  cbn [filter]. destruct (parseInt (Model.vraisemblance item)) as [|lvl].
  - exact IH.
  - destruct (Z.eqb_spec lvl 1), (Z.eqb_spec lvl 2), (Z.eqb_spec lvl 3),
             (Z.eqb_spec lvl 4), (Z.leb_spec 1 lvl), (Z.leb_spec lvl 4);
      cbn [andb List.length]; lia.
Qed.
